(** * The appointment-booking dialogue engine of the veterinary chatbot

    A shallow embedding of [backend/src/services/appointmentFlowService.js]
    (field schema and validators, natural-language date and time parsers,
    field extractor, intent classifier, booking state machine, prompt
    generator) and of the part of the chat controller that starts a booking,
    keeps the booking state of each session and hands a confirmed booking to
    the creation of the appointment.

    Conventions of the embedding.
    - A JavaScript string is a [string]: one character per UTF-16 code unit,
      for code units below 256.  Literal texts of the source that contain
      other characters are kept byte for byte; the engine never inspects
      them.
    - A regular expression literal is a value of [Regex], run by a
      backtracking matcher that follows the pattern semantics of the
      language standard (greedy quantifiers, ordered alternation, capture
      groups, leftmost match).
    - A [Date] is its local time value in milliseconds, an integer; the host
      clock and the host's implementation-defined parsing of date strings are
      the fields of [Host].
    - The answer of the optional generative model is an input of every turn. *)

From Stdlib Require Import ZArith Lia String Ascii DecimalString DecimalPos.
From stdpp Require Import gmap strings list.

Local Open Scope string_scope.

(** ** Characters and strings *)

Module Js.

Definition code (c : ascii) : N := N_of_ascii c.

Definition inRange (lo hi : N) (c : ascii) : bool :=
  (lo <=? code c)%N && (code c <=? hi)%N.

Definition isDigit (c : ascii) : bool := inRange 48 57 c.
Definition isUpper (c : ascii) : bool := inRange 65 90 c.
Definition isLower (c : ascii) : bool := inRange 97 122 c.
Definition isLetter (c : ascii) : bool := isUpper c || isLower c.

(** [\w]: letters, digits and the underscore. *)
Definition isWordChar (c : ascii) : bool :=
  isLetter c || isDigit c || (code c =? 95)%N.

(** [\s] and the characters removed by [trim]: TAB, LF, VT, FF, CR, space
    and the no-break space. *)
Definition isSpace (c : ascii) : bool :=
  inRange 9 13 c || (code c =? 32)%N || (code c =? 160)%N.

(** [String.prototype.toLowerCase], one code unit at a time. *)
Definition toLowerChar (c : ascii) : ascii :=
  if isUpper c || (inRange 192 222 c && negb (code c =? 215)%N)
  then ascii_of_N (code c + 32) else c.

(** The canonical form used by a pattern with the [i] flag. *)
Definition canonicalize (c : ascii) : ascii :=
  if isLower c || (inRange 224 254 c && negb (code c =? 247)%N)
  then ascii_of_N (code c - 32) else c.

Fixpoint toLowerCase (s : string) : string :=
  match s with
  | EmptyString => EmptyString
  | String c s' => String (toLowerChar c) (toLowerCase s')
  end.

Fixpoint trimStart (s : string) : string :=
  match s with
  | EmptyString => EmptyString
  | String c s' => if isSpace c then trimStart s' else s
  end.

Fixpoint trimEnd (s : string) : string :=
  match s with
  | EmptyString => EmptyString
  | String c s' =>
      match trimEnd s' with
      | EmptyString => if isSpace c then EmptyString else String c EmptyString
      | t => String c t
      end
  end.

Definition trim (s : string) : string := trimEnd (trimStart s).

Fixpoint startsWith (p s : string) : bool :=
  match p, s with
  | EmptyString, _ => true
  | String a p', String b s' => Ascii.eqb a b && startsWith p' s'
  | String _ _, EmptyString => false
  end.

(** [hay.includes(needle)] *)
Fixpoint includes (needle hay : string) : bool :=
  startsWith needle hay ||
  match hay with
  | EmptyString => false
  | String _ hay' => includes needle hay'
  end.

(** [s.substring(0, n)] *)
Fixpoint take (n : nat) (s : string) : string :=
  match n, s with
  | S n', String c s' => String c (take n' s')
  | _, _ => EmptyString
  end.

(** A value is falsy when it is [undefined], [null] or the empty string. *)
Definition truthy (v : option string) : bool :=
  match v with
  | Some (String _ _) => true
  | _ => false
  end.

(** [a || b] on optional strings. *)
Definition orElse (a b : option string) : option string :=
  if truthy a then a else b.

(** [n.toString()] for an integer [n]. *)
Definition numToString (n : Z) : string := NilZero.string_of_int (Z.to_int n).

(** [s.padStart(2, '0')] *)
Definition padStart2 (s : string) : string :=
  match s with
  | EmptyString => "00"
  | String c EmptyString => String "0" (String c EmptyString)
  | _ => s
  end.

Definition digitValue (c : ascii) : Z := (Z.of_N (code c) - 48)%Z.

Fixpoint parseDigits (acc : Z) (s : string) : Z :=
  match s with
  | String c s' => if isDigit c then parseDigits (10 * acc + digitValue c)%Z s' else acc
  | EmptyString => acc
  end.

(** [parseInt(v)] in radix 10: leading white space is skipped, then an
    optional sign and the longest run of decimal digits are read; [None] is
    [NaN].  (The source only passes it runs of digits captured by [\d].) *)
Definition parseInt (v : option string) : option Z :=
  match v with
  | None => None
  | Some s =>
      match trimStart s with
      | String "-" (String c r) =>
          if isDigit c then Some (- parseDigits 0 (String c r))%Z else None
      | String "+" (String c r) =>
          if isDigit c then Some (parseDigits 0 (String c r)) else None
      | String c r => if isDigit c then Some (parseDigits 0 (String c r)) else None
      | EmptyString => None
      end
  end.

End Js.

(** ** Regular expressions *)

Module Re.

Inductive ClassItem :=
| CChar (c : ascii)
| CRange (lo hi : ascii)
| CDigit
| CWord
| CSpace.

Inductive Regex :=
| REmpty
| RChar (c : ascii)
| RClass (negated : bool) (items : list ClassItem)
| RSeq (r1 r2 : Regex)
| RAlt (r1 r2 : Regex)
| RRepeat (min : nat) (max : option nat) (r : Regex)
| RGroup (n : nat) (r : Regex)
| RBol
| REol
| RWordBoundary.

(** The state of a match: the current position (the end index of the
    standard), the character before it, the text from it on, and the
    captures made so far. *)
Record MState := {
  pos : nat;
  before : option ascii;
  rest : string;
  captures : list (nat * string);
}.

Definition Cont := MState -> option MState.

Definition itemMatches (it : ClassItem) (c : ascii) : bool :=
  match it with
  | CChar a => Ascii.eqb a c
  | CRange lo hi => Js.inRange (Js.code lo) (Js.code hi) c
  | CDigit => Js.isDigit c
  | CWord => Js.isWordChar c
  | CSpace => Js.isSpace c
  end.

Definition inClass (items : list ClassItem) (c : ascii) : bool :=
  existsb (fun it => itemMatches it c) items.

Definition charMatches (icase : bool) (a c : ascii) : bool :=
  if icase then Ascii.eqb (Js.canonicalize a) (Js.canonicalize c)
  else Ascii.eqb a c.

(** With the [i] flag a class matches when one of its members has the
    canonical form of the character. *)
Definition classMatches (icase negated : bool) (items : list ClassItem)
    (c : ascii) : bool :=
  xorb negated
    (if icase
     then inClass items c || inClass items (Js.canonicalize c)
          || inClass items (Js.toLowerChar c)
     else inClass items c).

Definition step (x : MState) (c : ascii) (s : string) : MState :=
  {| pos := S (pos x); before := Some c; rest := s; captures := captures x |}.

Definition isWordAt (o : option ascii) : bool :=
  match o with
  | Some c => Js.isWordChar c
  | None => false
  end.

Definition nextChar (x : MState) : option ascii :=
  match rest x with
  | String c _ => Some c
  | EmptyString => None
  end.

Fixpoint groupsOf (r : Regex) : list nat :=
  match r with
  | RSeq r1 r2 | RAlt r1 r2 => groupsOf r1 ++ groupsOf r2
  | RRepeat _ _ r' => groupsOf r'
  | RGroup n r' => n :: groupsOf r'
  | _ => []
  end.

Definition clearCaptures (gs : list nat) (x : MState) : MState :=
  {| pos := pos x; before := before x; rest := rest x;
     captures := filter (fun p => negb (existsb (Nat.eqb p.1) gs)) (captures x) |}.

Definition setCapture (n : nat) (x y : MState) : MState :=
  {| pos := pos y; before := before y; rest := rest y;
     captures := (n, Js.take (pos y - pos x) (rest x)) :: captures y |}.

Definition predMax (max : option nat) : option nat :=
  match max with
  | Some n => Some (Nat.pred n)
  | None => None
  end.

(** The repeat matcher of the standard: greedy, and an iteration that
    consumes nothing once the minimum is reached is abandoned.  [fuel]
    bounds the number of iterations: an iteration either lowers [min] or
    consumes a character. *)
Fixpoint repeatMatcher (body : MState -> Cont -> option MState)
    (gs : list nat) (fuel min : nat) (max : option nat)
    (x : MState) (k : Cont) : option MState :=
  match fuel with
  | O => None
  | S fuel' =>
      match max with
      | Some O => k x
      | _ =>
          let d : Cont := fun y =>
            if Nat.eqb min 0 && Nat.eqb (pos y) (pos x)
            then None
            else repeatMatcher body gs fuel' (Nat.pred min) (predMax max) y k in
          let xr := clearCaptures gs x in
          if Nat.eqb min 0
          then match body xr d with
               | Some z => Some z
               | None => k x
               end
          else body xr d
      end
  end.

Fixpoint matcher (icase : bool) (r : Regex) (x : MState) (k : Cont)
    {struct r} : option MState :=
  match r with
  | REmpty => k x
  | RChar a =>
      match rest x with
      | String c s => if charMatches icase a c then k (step x c s) else None
      | EmptyString => None
      end
  | RClass negated items =>
      match rest x with
      | String c s =>
          if classMatches icase negated items c then k (step x c s) else None
      | EmptyString => None
      end
  | RSeq r1 r2 => matcher icase r1 x (fun y => matcher icase r2 y k)
  | RAlt r1 r2 =>
      match matcher icase r1 x k with
      | Some z => Some z
      | None => matcher icase r2 x k
      end
  | RRepeat min max r' =>
      repeatMatcher (matcher icase r') (groupsOf r')
        (S (min + String.length (rest x))) min max x k
  | RGroup n r' => matcher icase r' x (fun y => k (setCapture n x y))
  | RBol =>
      match before x with
      | None => k x
      | Some _ => None
      end
  | REol =>
      match rest x with
      | EmptyString => k x
      | String _ _ => None
      end
  | RWordBoundary =>
      if xorb (isWordAt (before x)) (isWordAt (nextChar x)) then k x else None
  end.

(** The result of [s.match(re)] and [re.exec(s)] for a pattern without the
    [g] flag: the leftmost match. *)
Record Match := {
  index : nat;
  whole : string;
  groups : list (nat * string);
}.

Fixpoint search (icase : bool) (r : Regex) (prev : option ascii)
    (s : string) (idx : nat) : option Match :=
  match matcher icase r
          {| pos := idx; before := prev; rest := s; captures := [] |} Some with
  | Some y =>
      Some {| index := idx;
              whole := Js.take (pos y - idx) s;
              groups := captures y |}
  | None =>
      match s with
      | EmptyString => None
      | String c s' => search icase r (Some c) s' (S idx)
      end
  end.

(** A pattern with its flag: [/r/] or [/r/i]. *)
Record Pattern := { icase : bool; body : Regex }.

Definition exec (p : Pattern) (s : string) : option Match :=
  search (icase p) (body p) None s 0.

Definition test (p : Pattern) (s : string) : bool :=
  bool_decide (is_Some (exec p s)).

(** [m[n]] for a match [m]; [None] is [undefined]. *)
Fixpoint assoc (n : nat) (l : list (nat * string)) : option string :=
  match l with
  | [] => None
  | (m, v) :: l' => if Nat.eqb n m then Some v else assoc n l'
  end.

Definition group (m : Match) (n : nat) : option string := assoc n (groups m).

(** *** Pattern syntax *)

Fixpoint lit (s : string) : Regex :=
  match s with
  | EmptyString => REmpty
  | String c s' => RSeq (RChar c) (lit s')
  end.

Fixpoint seq (rs : list Regex) : Regex :=
  match rs with
  | [] => REmpty
  | r :: rs' => RSeq r (seq rs')
  end.

Fixpoint alt (rs : list Regex) : Regex :=
  match rs with
  | [] => RClass false []
  | [r] => r
  | r :: rs' => RAlt r (alt rs')
  end.

Definition opt (r : Regex) : Regex := RRepeat 0 (Some 1) r.
Definition plus (r : Regex) : Regex := RRepeat 1 None r.
Definition star (r : Regex) : Regex := RRepeat 0 None r.
Definition times (n : nat) (r : Regex) : Regex := RRepeat n (Some n) r.
Definition between (n m : nat) (r : Regex) : Regex := RRepeat n (Some m) r.

Definition word : Regex := RClass false [CWord].
Definition space : Regex := RClass false [CSpace].
Definition digit : Regex := RClass false [CDigit].
Definition digit09 : Regex := RClass false [CRange "0" "9"].

End Re.

(** ** Dates

    The day and time functions of the language standard, on time values
    taken in local time (a fixed offset from UTC, without daylight-saving
    transitions). *)

Module JsDate.

Local Open Scope Z_scope.

Definition msPerDay : Z := 86400000.

Definition Day (t : Z) : Z := t / msPerDay.
Definition TimeWithinDay (t : Z) : Z := t mod msPerDay.

Definition isLeap (y : Z) : bool :=
  (y mod 4 =? 0) && (negb (y mod 100 =? 0) || (y mod 400 =? 0)).

Definition DaysInYear (y : Z) : Z := if isLeap y then 366 else 365.

Definition DayFromYear (y : Z) : Z :=
  365 * (y - 1970) + (y - 1969) / 4 - (y - 1901) / 100 + (y - 1601) / 400.

(** The largest year [y] with [DayFromYear y <= d]: an estimate from the
    mean length of a year, then one step of adjustment. *)
Definition YearFromDay (d : Z) : Z :=
  let y := 1970 + (400 * d) / 146097 in
  if d <? DayFromYear y then y - 1
  else if DayFromYear (y + 1) <=? d then y + 1
  else y.

Definition YearFromTime (t : Z) : Z := YearFromDay (Day t).
Definition InLeapYear (t : Z) : Z := if isLeap (YearFromTime t) then 1 else 0.
Definition DayWithinYear (t : Z) : Z := Day t - DayFromYear (YearFromTime t).

(** Number of days of the year before month [m] (0 = January). *)
Definition monthStart (m leap : Z) : Z :=
  if m =? 0 then 0
  else if m =? 1 then 31
  else if m =? 2 then 59 + leap
  else if m =? 3 then 90 + leap
  else if m =? 4 then 120 + leap
  else if m =? 5 then 151 + leap
  else if m =? 6 then 181 + leap
  else if m =? 7 then 212 + leap
  else if m =? 8 then 243 + leap
  else if m =? 9 then 273 + leap
  else if m =? 10 then 304 + leap
  else 334 + leap.

Definition monthOfDay (dwy leap : Z) : Z :=
  if dwy <? 31 then 0
  else if dwy <? 59 + leap then 1
  else if dwy <? 90 + leap then 2
  else if dwy <? 120 + leap then 3
  else if dwy <? 151 + leap then 4
  else if dwy <? 181 + leap then 5
  else if dwy <? 212 + leap then 6
  else if dwy <? 243 + leap then 7
  else if dwy <? 273 + leap then 8
  else if dwy <? 304 + leap then 9
  else if dwy <? 334 + leap then 10
  else 11.

Definition MonthFromTime (t : Z) : Z :=
  monthOfDay (DayWithinYear t) (InLeapYear t).

Definition DateFromTime (t : Z) : Z :=
  DayWithinYear t - monthStart (MonthFromTime t) (InLeapYear t) + 1.

Definition WeekDay (t : Z) : Z := (Day t + 4) mod 7.

Definition MakeDay (year month date : Z) : Z :=
  let ym := year + month / 12 in
  let mn := month mod 12 in
  DayFromYear ym + monthStart mn (if isLeap ym then 1 else 0) + date - 1.

Definition MakeDate (day time : Z) : Z := day * msPerDay + time.

(** [new Date(year, month, day)]; a year from 0 to 99 stands for 1900 + year. *)
Definition newDate (year month day : Z) : Z :=
  let yr := if (0 <=? year) && (year <=? 99) then 1900 + year else year in
  MakeDate (MakeDay yr month day) 0.

Definition getFullYear (t : Z) : Z := YearFromTime t.
Definition getMonth (t : Z) : Z := MonthFromTime t.
Definition getDate (t : Z) : Z := DateFromTime t.
Definition getDay (t : Z) : Z := WeekDay t.

Definition setDate (t dt : Z) : Z :=
  MakeDate (MakeDay (YearFromTime t) (MonthFromTime t) dt) (TimeWithinDay t).

Definition setFullYear (t year : Z) : Z :=
  MakeDate (MakeDay year (MonthFromTime t) (DateFromTime t)) (TimeWithinDay t).

(** [d.setHours(0, 0, 0, 0)] *)
Definition startOfDay (t : Z) : Z := MakeDate (Day t) 0.

(** The time value of the [n]-th day after the day of [t], at midnight. *)
Definition addDays (t n : Z) : Z := startOfDay t + n * msPerDay.

End JsDate.

(** The environment of a turn: the clock, and what [new Date(text)] makes of
    a string ([None] is an invalid date).  Apart from the ISO format the
    language standard leaves this parsing to the implementation. *)
Record Host := {
  now : Z;
  dateParse : string -> option Z;
}.

Definition todayOf (h : Host) : Z := JsDate.startOfDay (now h).

(** ** The appointment flow service *)

Module Flow.

Import Re.

Definition nl : string := String (ascii_of_nat 10) EmptyString.

(** *** Configuration *)

Definition REQUIRED_FIELDS : list string :=
  ["petOwnerName"; "petName"; "phoneNumber"; "preferredDate"; "preferredTime"].

Inductive Validation :=
| Valid
| Invalid (error : string).

Record FieldConfig := {
  prompt : string;
  followUp : string;
  errorPrompt : string;
  validate : Host -> option string -> Validation;
  extractPatterns : option (list Pattern);
}.

(** [/^[a-zA-Z\s\-']+$/] *)
Definition nameCharsRe : Pattern :=
  {| icase := false;
     body := seq [RBol;
                  plus (RClass false [CRange "a" "z"; CRange "A" "Z"; CSpace;
                                      CChar "-"; CChar "'"]);
                  REol] |}.

Definition validateOwnerName (_ : Host) (value : option string) : Validation :=
  match value with
  | Some v =>
      if negb (Js.truthy value) || (String.length (Js.trim v) <? 2)%nat
      then Invalid "Name must be at least 2 characters"
      else if (50 <? String.length v)%nat then Invalid "Name is too long"
      else if negb (test nameCharsRe v)
      then Invalid "Name should only contain letters"
      else Valid
  | None => Invalid "Name must be at least 2 characters"
  end.

Definition validatePetName (_ : Host) (value : option string) : Validation :=
  match value with
  | Some v =>
      if negb (Js.truthy value) || (String.length (Js.trim v) <? 1)%nat
      then Invalid "Pet name is required"
      else if (30 <? String.length v)%nat then Invalid "Pet name is too long"
      else Valid
  | None => Invalid "Pet name is required"
  end.

(** [value.replace(/\D/g, '')] *)
Fixpoint digitsOf (s : string) : string :=
  match s with
  | EmptyString => EmptyString
  | String c s' => if Js.isDigit c then String c (digitsOf s') else digitsOf s'
  end.

Definition validatePhone (_ : Host) (value : option string) : Validation :=
  match value with
  | Some v =>
      if negb (Js.truthy value) then Invalid "Phone number is required"
      else
        let digits := digitsOf v in
        if (String.length digits <? 10)%nat || (15 <? String.length digits)%nat
        then Invalid "Please provide a valid phone number with 10+ digits"
        else Valid
  | None => Invalid "Phone number is required"
  end.

Definition validateDate (h : Host) (value : option string) : Validation :=
  match value with
  | Some v =>
      if negb (Js.truthy value) then Invalid "Date is required"
      else
        match dateParse h v with
        | None => Invalid "Invalid date format"
        | Some date =>
            let today := todayOf h in
            if (date <? today)%Z then Invalid "Date cannot be in the past"
            else
              let maxDate := JsDate.setDate today (JsDate.getDate today + 90) in
              if (maxDate <? date)%Z
              then Invalid "Date must be within the next 90 days"
              else Valid
        end
  | None => Invalid "Date is required"
  end.

(** [/^([01]?[0-9]|2[0-3]):[0-5][0-9]$/] *)
Definition timeFormatRe : Pattern :=
  {| icase := false;
     body := seq [RBol;
                  RGroup 1 (alt [seq [opt (RClass false [CChar "0"; CChar "1"]);
                                      digit09];
                                 seq [RChar "2"; RClass false [CRange "0" "3"]]]);
                  RChar ":";
                  RClass false [CRange "0" "5"];
                  digit09;
                  REol] |}.

Definition validateTime (_ : Host) (value : option string) : Validation :=
  match value with
  | Some v =>
      if negb (Js.truthy value) then Invalid "Time is required"
      else if negb (test timeFormatRe v) then Invalid "Invalid time format"
      else Valid
  | None => Invalid "Time is required"
  end.

(** [(\w+(?:\s+\w+)?)] *)
Definition oneOrTwoWords : Regex :=
  RGroup 1 (seq [plus word; opt (seq [plus space; plus word])]).

(** [(\w+)] *)
Definition oneWord : Regex := RGroup 1 (plus word).

Definition ownerNamePatterns : list Pattern :=
  [ {| icase := true; body := seq [lit "my name is "; oneOrTwoWords] |};
    {| icase := true; body := seq [lit "i'm "; oneOrTwoWords] |};
    {| icase := true; body := seq [lit "i am "; oneOrTwoWords] |};
    {| icase := true; body := seq [lit "call me "; oneWord] |};
    {| icase := true; body := seq [lit "this is "; oneOrTwoWords] |} ].

(** [(?:pet|dog|cat|bird|rabbit)] *)
Definition petKind : Regex :=
  alt [lit "pet"; lit "dog"; lit "cat"; lit "bird"; lit "rabbit"].

Definition petNamePatterns : list Pattern :=
  [ {| icase := true; body := seq [lit "my "; petKind; lit "'s name is "; oneWord] |};
    {| icase := true;
       body := seq [petKind; RChar " "; alt [lit "is called"; lit "named"];
                    RChar " "; oneWord] |};
    {| icase := true;
       body := seq [alt [lit "his"; lit "her"; lit "its"]; lit " name is "; oneWord] |};
    {| icase := true; body := seq [lit "called "; oneWord] |};
    {| icase := true; body := seq [lit "named "; oneWord] |} ].

(** [[-.\s]?] *)
Definition optSep : Regex := opt (RClass false [CChar "-"; CChar "."; CSpace]).

Definition phonePatterns : list Pattern :=
  [ {| icase := false;
       body := RGroup 1 (seq [opt (RChar "+"); opt (RChar "1"); optSep;
                              opt (RChar "("); times 3 digit09; opt (RChar ")");
                              optSep; times 3 digit09; optSep; times 4 digit09]) |};
    {| icase := false;
       body := RGroup 1 (seq [times 3 digit; optSep; times 3 digit; optSep;
                              times 4 digit]) |};
    {| icase := false; body := RGroup 1 (between 10 15 digit) |} ].

Definition FIELD_CONFIG : list (string * FieldConfig) :=
  [ ("petOwnerName",
     {| prompt := "What's your name?";
        followUp := "Could you please tell me your name?";
        errorPrompt :=
          "I didn't quite catch your name. Could you please provide your full name?";
        validate := validateOwnerName;
        extractPatterns := Some ownerNamePatterns |});
    ("petName",
     {| prompt := "What's your pet's name?";
        followUp := "And what's your furry friend's name?";
        errorPrompt :=
          "I need your pet's name to continue. What should I call your pet?";
        validate := validatePetName;
        extractPatterns := Some petNamePatterns |});
    ("phoneNumber",
     {| prompt := "What's the best phone number to reach you?";
        followUp := "What phone number should we use to contact you?";
        errorPrompt :=
          "I need a valid phone number. Please provide your contact number (e.g., 555-123-4567).";
        validate := validatePhone;
        extractPatterns := Some phonePatterns |});
    ("preferredDate",
     {| prompt :=
          "What date works best for you? (e.g., January 20, tomorrow, next Monday)";
        followUp := "When would you like to schedule the appointment?";
        errorPrompt :=
          "I couldn't understand that date. Please specify a date like 'January 20' or 'next Monday'.";
        validate := validateDate;
        extractPatterns := None |});
    ("preferredTime",
     {| prompt := "What time would you prefer? (e.g., 10:00 AM, afternoon, 2pm)";
        followUp := "What time of day works best for you?";
        errorPrompt :=
          "I need a valid time. Please specify like '10:00 AM' or 'afternoon'.";
        validate := validateTime;
        extractPatterns := None |}) ].

(** [FIELD_CONFIG[name]] *)
Fixpoint lookupConfig (name : string) (l : list (string * FieldConfig))
    : option FieldConfig :=
  match l with
  | [] => None
  | (k, c) :: l' => if String.eqb name k then Some c else lookupConfig name l'
  end.

Definition configOf (name : string) : option FieldConfig :=
  lookupConfig name FIELD_CONFIG.

(** *** Natural language parsing *)

(** [formatDate]: the local calendar date of a time value as YYYY-MM-DD. *)
Definition formatDate (date : Z) : string :=
  let year := JsDate.getFullYear date in
  let month := Js.padStart2 (Js.numToString (JsDate.getMonth date + 1)) in
  let day := Js.padStart2 (Js.numToString (JsDate.getDate date)) in
  Js.numToString year +:+ "-" +:+ month +:+ "-" +:+ day.

Definition dayNames : list string :=
  ["sunday"; "monday"; "tuesday"; "wednesday"; "thursday"; "friday"; "saturday"].

(** [(monday|tuesday|wednesday|thursday|friday|saturday|sunday)] *)
Definition weekdayGroup : Regex :=
  RGroup 1 (alt [lit "monday"; lit "tuesday"; lit "wednesday"; lit "thursday";
                 lit "friday"; lit "saturday"; lit "sunday"]).

Definition nextDayRe : Pattern :=
  {| icase := true; body := seq [lit "next"; plus space; weekdayGroup] |}.

Definition thisDayRe : Pattern :=
  {| icase := true; body := seq [lit "this"; plus space; weekdayGroup] |}.

(** [(?:st|nd|rd|th)?] *)
Definition optOrdinal : Regex :=
  opt (alt [lit "st"; lit "nd"; lit "rd"; lit "th"]).

Definition monthAlternatives : Regex :=
  alt [seq [lit "jan"; opt (lit "uary")];
       seq [lit "feb"; opt (lit "ruary")];
       seq [lit "mar"; opt (lit "ch")];
       seq [lit "apr"; opt (lit "il")];
       lit "may";
       seq [lit "jun"; opt (lit "e")];
       seq [lit "jul"; opt (lit "y")];
       seq [lit "aug"; opt (lit "ust")];
       seq [lit "sep"; opt (lit "tember")];
       seq [lit "oct"; opt (lit "ober")];
       seq [lit "nov"; opt (lit "ember")];
       seq [lit "dec"; opt (lit "ember")]].

Definition monthDayRe : Pattern :=
  {| icase := true;
     body := seq [opt (seq [RGroup 1 (between 1 2 digit); optOrdinal; plus space]);
                  RGroup 2 monthAlternatives;
                  star space;
                  opt (RGroup 3 (between 1 2 digit));
                  optOrdinal] |}.

Definition monthNames : list (string * Z) :=
  [ ("jan", 0); ("january", 0); ("feb", 1); ("february", 1); ("mar", 2);
    ("march", 2); ("apr", 3); ("april", 3); ("may", 4); ("jun", 5); ("june", 5);
    ("jul", 6); ("july", 6); ("aug", 7); ("august", 7); ("sep", 8);
    ("september", 8); ("oct", 9); ("october", 9); ("nov", 10); ("november", 10);
    ("dec", 11); ("december", 11) ]%Z.

Fixpoint lookupZ (k : string) (l : list (string * Z)) : option Z :=
  match l with
  | [] => None
  | (k', v) :: l' => if String.eqb k k' then Some v else lookupZ k l'
  end.

(** [names.indexOf(s)], with -1 when [s] is absent. *)
Fixpoint indexOf (s : string) (names : list string) (i : Z) : Z :=
  match names with
  | [] => (-1)%Z
  | n :: names' => if String.eqb s n then i else indexOf s names' (i + 1)%Z
  end.

(** [/(\d{4})-(\d{2})-(\d{2})/] *)
Definition isoRe : Pattern :=
  {| icase := false;
     body := seq [RGroup 1 (times 4 digit); RChar "-"; RGroup 2 (times 2 digit);
                  RChar "-"; RGroup 3 (times 2 digit)] |}.

(** [/(\d{1,2})\/(\d{1,2})\/(\d{4})/] *)
Definition slashRe : Pattern :=
  {| icase := false;
     body := seq [RGroup 1 (between 1 2 digit); RChar "/";
                  RGroup 2 (between 1 2 digit); RChar "/";
                  RGroup 3 (times 4 digit)] |}.

(** The number of days from today to the named weekday, 1 to 7. *)
Definition daysUntilWeekday (today : Z) (name : option string) : Z :=
  let targetDay := indexOf (Js.toLowerCase (default EmptyString name)) dayNames 0 in
  let currentDay := JsDate.getDay today in
  let daysUntil := (targetDay - currentDay)%Z in
  if (daysUntil <=? 0)%Z then (daysUntil + 7)%Z else daysUntil.

Definition parseNaturalDate (h : Host) (text : string) : option string :=
  if negb (Js.truthy (Some text)) then None else
  let today := todayOf h in
  let lowerText := Js.trim (Js.toLowerCase text) in
  if String.eqb lowerText "today" then Some (formatDate today)
  else if String.eqb lowerText "tomorrow"
  then Some (formatDate (JsDate.setDate today (JsDate.getDate today + 1)))
  else if Js.includes "day after tomorrow" lowerText
  then Some (formatDate (JsDate.setDate today (JsDate.getDate today + 2)))
  else if String.eqb lowerText "next week"
  then Some (formatDate (JsDate.setDate today (JsDate.getDate today + 7)))
  else
  match exec nextDayRe lowerText with
  | Some dayMatch =>
      let daysUntil := (daysUntilWeekday today (group dayMatch 1) + 7)%Z in
      Some (formatDate (JsDate.setDate today (JsDate.getDate today + daysUntil)))
  | None =>
  match exec thisDayRe lowerText with
  | Some thisDayMatch =>
      let daysUntil := daysUntilWeekday today (group thisDayMatch 1) in
      Some (formatDate (JsDate.setDate today (JsDate.getDate today + daysUntil)))
  | None =>
  let byMonthName :=
    match exec monthDayRe lowerText with
    | Some monthDayMatch =>
        let month :=
          lookupZ (Js.toLowerCase (default EmptyString (group monthDayMatch 2))) monthNames in
        let day :=
          Js.parseInt (Js.orElse (group monthDayMatch 1) (group monthDayMatch 3)) in
        match day, month with
        | Some day, Some month =>
            let year := JsDate.getFullYear today in
            let date := JsDate.newDate year month day in
            Some (formatDate (if (date <? today)%Z
                              then JsDate.setFullYear date (year + 1)
                              else date))
        | _, _ => None
        end
    | None => None
    end in
  match byMonthName with
  | Some result => Some result
  | None =>
  match dateParse h text with
  | Some parsedDate => Some (formatDate parsedDate)
  | None =>
  match exec isoRe text with
  | Some isoMatch => Some (whole isoMatch)
  | None =>
  match exec slashRe text with
  | Some slashMatch =>
      match Js.parseInt (group slashMatch 3), Js.parseInt (group slashMatch 1),
            Js.parseInt (group slashMatch 2) with
      | Some year, Some first, Some second =>
          Some (formatDate (JsDate.newDate year (first - 1) second))
      | _, _, _ => None
      end
  | None => None
  end end end end end end.

(** [/(\d{1,2})(?::(\d{2}))?\s*(am|pm)/i] *)
Definition amPmRe : Pattern :=
  {| icase := true;
     body := seq [RGroup 1 (between 1 2 digit);
                  opt (seq [RChar ":"; RGroup 2 (times 2 digit)]);
                  star space;
                  RGroup 3 (alt [lit "am"; lit "pm"])] |}.

(** [/(\d{1,2})(am|pm)/i] *)
Definition simpleAmPmRe : Pattern :=
  {| icase := true;
     body := seq [RGroup 1 (between 1 2 digit); RGroup 2 (alt [lit "am"; lit "pm"])] |}.

(** [/(\d{1,2}):(\d{2})/] *)
Definition hourMinRe : Pattern :=
  {| icase := false;
     body := seq [RGroup 1 (between 1 2 digit); RChar ":"; RGroup 2 (times 2 digit)] |}.

(** [/^(\d{1,2})$/] *)
Definition justHourRe : Pattern :=
  {| icase := false; body := seq [RBol; RGroup 1 (between 1 2 digit); REol] |}.

Definition pad2 (n : Z) : string := Js.padStart2 (Js.numToString n).

(** The hour on the 24-hour clock of an hour given with am or pm. *)
Definition to24 (hours : Z) (isPm : bool) : Z :=
  let hours := if isPm && negb (hours =? 12)%Z then (hours + 12)%Z else hours in
  if negb isPm && (hours =? 12)%Z then 0%Z else hours.

Definition parseNaturalTime (text : string) : option string :=
  if negb (Js.truthy (Some text)) then None else
  let lowerText := Js.trim (Js.toLowerCase text) in
  if String.eqb lowerText "morning" || String.eqb lowerText "in the morning"
  then Some "09:00"
  else if String.eqb lowerText "afternoon" || String.eqb lowerText "in the afternoon"
  then Some "14:00"
  else if String.eqb lowerText "evening" || String.eqb lowerText "in the evening"
  then Some "17:00"
  else if String.eqb lowerText "noon" || String.eqb lowerText "midday"
  then Some "12:00"
  else
  match exec amPmRe lowerText with
  | Some amPmMatch =>
      let hours := default 0%Z (Js.parseInt (group amPmMatch 1)) in
      let minutes :=
        default 0%Z (Js.parseInt (Js.orElse (group amPmMatch 2) (Some "0"))) in
      let isPm := String.eqb (Js.toLowerCase (default EmptyString (group amPmMatch 3))) "pm" in
      Some (pad2 (to24 hours isPm) +:+ ":" +:+ pad2 minutes)
  | None =>
  match exec simpleAmPmRe lowerText with
  | Some simpleAmPmMatch =>
      let hours := default 0%Z (Js.parseInt (group simpleAmPmMatch 1)) in
      let isPm :=
        String.eqb (Js.toLowerCase (default EmptyString (group simpleAmPmMatch 2))) "pm" in
      Some (pad2 (to24 hours isPm) +:+ ":00")
  | None =>
  let byHourMin :=
    match exec hourMinRe lowerText with
    | Some hourMinMatch =>
        let hours := default 0%Z (Js.parseInt (group hourMinMatch 1)) in
        let minutes := default 0%Z (Js.parseInt (group hourMinMatch 2)) in
        if (0 <=? hours)%Z && (hours <=? 23)%Z && (0 <=? minutes)%Z
           && (minutes <=? 59)%Z
        then Some (pad2 hours +:+ ":" +:+ pad2 minutes)
        else None
    | None => None
    end in
  match byHourMin with
  | Some result => Some result
  | None =>
  match exec justHourRe lowerText with
  | Some justHour =>
      let hours := default 0%Z (Js.parseInt (group justHour 1)) in
      if (8 <=? hours)%Z && (hours <=? 18)%Z then Some (pad2 hours +:+ ":00")
      else None
  | None => None
  end end end end.

(** *** Display forms *)

Definition weekdayLong (d : Z) : string :=
  nth (Z.to_nat d)
    ["Sunday"; "Monday"; "Tuesday"; "Wednesday"; "Thursday"; "Friday"; "Saturday"]
    EmptyString.

Definition monthLong (m : Z) : string :=
  nth (Z.to_nat m)
    ["January"; "February"; "March"; "April"; "May"; "June"; "July"; "August";
     "September"; "October"; "November"; "December"]
    EmptyString.

(** [formatDateForDisplay]: the [en-US] long form with the weekday, for a
    date of the common era. *)
Definition formatDateForDisplay (h : Host) (dateStr : string) : string :=
  match dateParse h dateStr with
  | None => "Invalid Date"
  | Some date =>
      weekdayLong (JsDate.getDay date) +:+ ", "
      +:+ monthLong (JsDate.getMonth date) +:+ " "
      +:+ Js.numToString (JsDate.getDate date) +:+ ", "
      +:+ Js.numToString (JsDate.getFullYear date)
  end.

(** [s.split(':')] *)
Fixpoint splitColon (s : string) : list string :=
  match s with
  | EmptyString => [EmptyString]
  | String c s' =>
      match splitColon s' with
      | [] => [String c EmptyString]
      | p :: ps => if Ascii.eqb c ":" then EmptyString :: p :: ps
                   else String c p :: ps
      end
  end.

Fixpoint allDigits (s : string) : bool :=
  match s with
  | EmptyString => true
  | String c s' => Js.isDigit c && allDigits s'
  end.

(** [Number(s)] where the trimmed string is empty or a run of decimal
    digits, which covers every value the time validator admits; any other
    string is taken to [NaN], here [None]. *)
Definition toNumber (s : string) : option Z :=
  let t := Js.trim s in
  if allDigits t then Some (Js.parseDigits 0 t) else None.

Definition showNumber (n : option Z) : string :=
  match n with
  | Some z => Js.numToString z
  | None => "NaN"
  end.

(** [formatTimeForDisplay]; [None] when the text has no colon, where the
    source reads a property of [undefined] and throws. *)
Definition formatTimeForDisplay (timeStr : string) : option string :=
  match map toNumber (splitColon timeStr) with
  | hours :: minutes :: _ =>
      let ampm :=
        match hours with
        | Some hh => if (12 <=? hh)%Z then "PM" else "AM"
        | None => "AM"
        end in
      let displayHours :=
        match hours with
        | Some hh => if (Z.rem hh 12 =? 0)%Z then 12%Z else Z.rem hh 12
        | None => 12%Z
        end in
      Some (Js.numToString displayHours +:+ ":"
            +:+ Js.padStart2 (showNumber minutes) +:+ " " +:+ ampm)
  | _ => None
  end.

(** *** Booking state *)

Record BookingState := {
  isActive : bool;
  collectedFields : gmap string string;
  currentField : option string;
  isComplete_ : bool;
  isConfirming : bool;
  errorField : option string;
  lastError : option string;
  attempts : gmap string nat;
}.

Definition createBookingState (existingData : gmap string string) : BookingState :=
  {| isActive := true;
     collectedFields := existingData;
     currentField := None;
     isComplete_ := false;
     isConfirming := false;
     errorField := None;
     lastError := None;
     attempts := ∅ |}.

Definition isMissing (collected : gmap string string) (field : string) : bool :=
  match collected !! field with
  | Some value => negb (Js.truthy (Some value)) || String.eqb (Js.trim value) EmptyString
  | None => true
  end.

Definition getMissingFields (collected : gmap string string) : list string :=
  List.filter (isMissing collected) REQUIRED_FIELDS.

Definition isComplete (collected : gmap string string) : bool :=
  (List.length (getMissingFields collected) =? 0)%nat.

Definition getNextField (collected : gmap string string)
    : option (string * string) :=
  match getMissingFields collected with
  | [] => None
  | nextField :: _ =>
      match configOf nextField with
      | Some config => Some (nextField, prompt config)
      | None => None
      end
  end.

Definition validateField (h : Host) (fieldName : string) (value : option string)
    : Validation :=
  match configOf fieldName with
  | Some config => validate config h value
  | None => Valid
  end.

Definition generatePrompt (fieldName : string) (isRetry : bool) : string :=
  match configOf fieldName with
  | None => "Could you please provide the missing information?"
  | Some config => if isRetry then errorPrompt config else prompt config
  end.

(** *** Extraction *)

(** The first pattern of the list with a non-empty first group gives the
    value, trimmed. *)
Fixpoint firstCapture (patterns : list Pattern) (message : string)
    : option string :=
  match patterns with
  | [] => None
  | pattern :: patterns' =>
      match exec pattern message with
      | Some m =>
          if Js.truthy (group m 1) then Js.trim <$> group m 1
          else firstCapture patterns' message
      | None => firstCapture patterns' message
      end
  end.

Definition extractField (message : string) (extracted : gmap string string)
    (entry : string * FieldConfig) : gmap string string :=
  match extractPatterns entry.2 with
  | Some patterns =>
      match firstCapture patterns message with
      | Some value => <[entry.1 := value]> extracted
      | None => extracted
      end
  | None => extracted
  end.

Definition extractWithPatterns (h : Host) (message : string)
    : gmap string string :=
  let extracted := foldl (extractField message) ∅ FIELD_CONFIG in
  let extracted :=
    match parseNaturalDate h message with
    | Some dateResult =>
        if Js.truthy (Some dateResult)
        then <["preferredDate" := dateResult]> extracted else extracted
    | None => extracted
    end in
  match parseNaturalTime message with
  | Some timeResult =>
      if Js.truthy (Some timeResult)
      then <["preferredTime" := timeResult]> extracted else extracted
  | None => extracted
  end.

(** What a turn extracts: the string-valued properties, and the intent
    signals.  A property that is [null] is left out of [fields]. *)
Record Extracted := {
  fields : gmap string string;
  wantsToCancel : bool;
  wantsToRestart : bool;
  confirmation : option string;
}.

(** [/\b(cancel|stop|nevermind|never mind|forget it|don't want)\b/i] *)
Definition cancelRe : Pattern :=
  {| icase := true;
     body := seq [RWordBoundary;
                  RGroup 1 (alt [lit "cancel"; lit "stop"; lit "nevermind";
                                 lit "never mind"; lit "forget it";
                                 lit "don't want"]);
                  RWordBoundary] |}.

(** [/\b(restart|start over|begin again|reset)\b/i] *)
Definition restartRe : Pattern :=
  {| icase := true;
     body := seq [RWordBoundary;
                  RGroup 1 (alt [lit "restart"; lit "start over"; lit "begin again";
                                 lit "reset"]);
                  RWordBoundary] |}.

Definition yesRe : Pattern :=
  {| icase := true;
     body := seq [RBol;
                  RGroup 1 (alt [lit "yes"; lit "yeah"; lit "yep"; lit "correct";
                                 lit "right"; lit "confirm"; lit "that's right";
                                 lit "looks good"; lit "perfect"])] |}.

Definition noRe : Pattern :=
  {| icase := true;
     body := seq [RBol;
                  RGroup 1 (alt [lit "no"; lit "nope"; lit "wrong"; lit "incorrect";
                                 lit "change"; lit "fix"; lit "not right"])] |}.

Definition keywordCancel (message : string) : bool :=
  test cancelRe (Js.toLowerCase message).

Definition keywordRestart (message : string) : bool :=
  test restartRe (Js.toLowerCase message).

Definition keywordConfirmation (message : string) : option string :=
  let lowerMessage := Js.toLowerCase message in
  if test yesRe lowerMessage then Some "yes"
  else if test noRe lowerMessage then Some "no"
  else None.

(** [analyzeMessage].  [ai] is the parsed answer of the generative model,
    with string values; [None] when the model is not available, the call
    fails, or its answer cannot be parsed.  The properties found by the
    patterns override those of the model. *)
Definition analyzeMessage (h : Host) (ai : option Extracted) (message : string)
    : Extracted :=
  let regexExtracted := extractWithPatterns h message in
  match ai with
  | Some aiExtracted =>
      {| fields := regexExtracted ∪ fields aiExtracted;
         wantsToCancel := wantsToCancel aiExtracted || keywordCancel message;
         wantsToRestart := wantsToRestart aiExtracted || keywordRestart message;
         confirmation :=
           Js.orElse (confirmation aiExtracted) (keywordConfirmation message) |}
  | None =>
      {| fields := regexExtracted;
         wantsToCancel := keywordCancel message;
         wantsToRestart := keywordRestart message;
         confirmation := keywordConfirmation message |}
  end.

(** *** Messages *)

(** The text of a property inside a template literal. *)
Definition showValue (v : option string) : string := default "undefined" v.

Definition confirmationText (name pet phone dateDisplay timeDisplay : string)
    : string :=
  "Great! Let me confirm your appointment details:

📋 **Your Information:**
• **Name:** " +:+ name +:+ "
• **Pet's Name:** " +:+ pet +:+ "
• **Phone:** " +:+ phone +:+ "
• **Date:** " +:+ dateDisplay +:+ "
• **Time:** " +:+ timeDisplay +:+ "

Is this information correct? (Yes/No)".

(** [generateConfirmationMessage]; [None] when [formatTimeForDisplay] throws. *)
Definition generateConfirmationMessage (h : Host) (collected : gmap string string)
    : option string :=
  let dateDisplay :=
    if Js.truthy (collected !! "preferredDate")
    then formatDateForDisplay h <$> collected !! "preferredDate"
    else collected !! "preferredDate" in
  let text :=
    confirmationText (showValue (collected !! "petOwnerName"))
      (showValue (collected !! "petName")) (showValue (collected !! "phoneNumber"))
      (showValue dateDisplay) in
  match collected !! "preferredTime" with
  | Some (String c s) => text <$> formatTimeForDisplay (String c s)
  | timeDisplay => Some (text (showValue timeDisplay))
  end.

Definition acknowledgments : list (string * string) :=
  [ ("petOwnerName", "Got it, thanks!");
    ("petName", "Great name!");
    ("phoneNumber", "Perfect, I have your number.");
    ("preferredDate", "That date works!");
    ("preferredTime", "Good time choice!") ].

Fixpoint lookupText (k : string) (l : list (string * string)) : option string :=
  match l with
  | [] => None
  | (k', v) :: l' => if String.eqb k k' then Some v else lookupText k l'
  end.

Definition getAcknowledgment (fieldNames : list string) : string :=
  match fieldNames with
  | [] => EmptyString
  | [field] => default "Got it!" (lookupText field acknowledgments)
  | _ => "Thanks for that information!"
  end.

(** *** The turn *)

Inductive Action :=
| Collecting
| Confirming
| Confirmed
| Cancelled
| Restarted
| EditRequested.

Record Result := {
  state : BookingState;
  response : option string;
  action : Action;
}.

(** The variables of the loop over the required fields. *)
Record Collected := {
  updatedFields : gmap string string;
  hasNewData : bool;
  invalidField : option string;
  validationError : option string;
}.

Definition collectField (h : Host) (extracted : gmap string string)
    (acc : Collected) (field : string) : Collected :=
  if Js.truthy (extracted !! field) then
    match validateField h field (extracted !! field) with
    | Valid =>
        {| updatedFields := <[field := default EmptyString (extracted !! field)]> (updatedFields acc);
           hasNewData := true;
           invalidField := invalidField acc;
           validationError := validationError acc |}
    | Invalid error =>
        {| updatedFields := updatedFields acc;
           hasNewData := hasNewData acc;
           invalidField := Some field;
           validationError := Some error |}
    end
  else acc.

Definition collectAll (h : Host) (extracted collected : gmap string string)
    : Collected :=
  foldl (collectField h extracted)
    {| updatedFields := collected; hasNewData := false;
       invalidField := None; validationError := None |}
    REQUIRED_FIELDS.

(** The required fields with a value in the extraction.  The source lists
    them in the order of the properties of the object; only their number
    and, when there is just one, its name are used. *)
Definition acknowledgedFields (extracted : gmap string string) : list string :=
  List.filter (fun k => Js.truthy (extracted !! k)) REQUIRED_FIELDS.

Definition cancelText : string :=
  "No problem! I've cancelled the appointment booking. Is there anything else I can help you with?".

Definition restartText : string :=
  "Let's start fresh! I'll help you book a new appointment. What's your name?".

Definition editText : string :=
  "Which detail would you like to change? (name, pet name, phone, date, or time)".

Definition withActive (b : bool) (s : BookingState) : BookingState :=
  {| isActive := b; collectedFields := collectedFields s;
     currentField := currentField s; isComplete_ := isComplete_ s;
     isConfirming := isConfirming s; errorField := errorField s;
     lastError := lastError s; attempts := attempts s |}.

Definition withComplete (b : bool) (s : BookingState) : BookingState :=
  {| isActive := isActive s; collectedFields := collectedFields s;
     currentField := currentField s; isComplete_ := b;
     isConfirming := isConfirming s; errorField := errorField s;
     lastError := lastError s; attempts := attempts s |}.

Definition withConfirming (b : bool) (s : BookingState) : BookingState :=
  {| isActive := isActive s; collectedFields := collectedFields s;
     currentField := currentField s; isComplete_ := isComplete_ s;
     isConfirming := b; errorField := errorField s;
     lastError := lastError s; attempts := attempts s |}.

Definition withFields (f : gmap string string) (s : BookingState) : BookingState :=
  {| isActive := isActive s; collectedFields := f;
     currentField := currentField s; isComplete_ := isComplete_ s;
     isConfirming := isConfirming s; errorField := errorField s;
     lastError := lastError s; attempts := attempts s |}.

Definition withError (field error : option string) (s : BookingState)
    : BookingState :=
  {| isActive := isActive s; collectedFields := collectedFields s;
     currentField := currentField s; isComplete_ := isComplete_ s;
     isConfirming := isConfirming s; errorField := field;
     lastError := error; attempts := attempts s |}.

Definition withCurrent (field : option string) (s : BookingState) : BookingState :=
  {| isActive := isActive s; collectedFields := collectedFields s;
     currentField := field; isComplete_ := isComplete_ s;
     isConfirming := isConfirming s; errorField := errorField s;
     lastError := lastError s; attempts := attempts s |}.

(** [processMessage]: one turn of the dialogue.  [None] when the source
    throws (while rendering a stored time that has no colon). *)
Definition processMessage (h : Host) (ai : option Extracted) (message : string)
    (bookingState : BookingState) : option Result :=
  let extracted := analyzeMessage h ai message in
  if wantsToCancel extracted then
    Some {| state := withActive false bookingState;
            response := Some cancelText;
            action := Cancelled |}
  else if wantsToRestart extracted then
    Some {| state := createBookingState ∅;
            response := Some restartText;
            action := Restarted |}
  else if isConfirming bookingState && Js.truthy (confirmation extracted) then
    if bool_decide (confirmation extracted = Some "yes") then
      Some {| state := withComplete true bookingState;
              response := None;
              action := Confirmed |}
    else
      Some {| state := withConfirming false bookingState;
              response := Some editText;
              action := EditRequested |}
  else
    let c := collectAll h (fields extracted) (collectedFields bookingState) in
    let newState := withFields (updatedFields c) bookingState in
    if isComplete (updatedFields c) then
      match generateConfirmationMessage h (updatedFields c) with
      | Some text =>
          Some {| state := withConfirming true newState;
                  response := Some text;
                  action := Confirming |}
      | None => None
      end
    else
      match invalidField c with
      | Some field =>
          Some {| state := withError (Some field) (validationError c) newState;
                  response := Some (generatePrompt field true);
                  action := Collecting |}
      | None =>
          match getNextField (updatedFields c) with
          | Some (nextField, nextPrompt) =>
              Some {| state := withCurrent (Some nextField) newState;
                      response :=
                        Some (if hasNewData c
                              then getAcknowledgment
                                     (acknowledgedFields (fields extracted))
                                   +:+ nl +:+ nl +:+ nextPrompt
                              else nextPrompt);
                      action := Collecting |}
          | None =>
              Some {| state := newState; response := None; action := Collecting |}
          end
      end.

End Flow.

(** ** The chat controller: how a booking starts and how turns follow *)

Module Controller.

Import Flow.

Definition APPOINTMENT_KEYWORDS : list string :=
  [ "appointment"; "book"; "schedule"; "visit"; "see the vet";
    "checkup"; "check-up"; "check up"; "consultation";
    "bring my pet"; "bring my dog"; "bring my cat";
    "available times"; "available slots"; "when can i";
    "need to see"; "want to see"; "make an appointment";
    "book a visit"; "schedule a visit"; "veterinary visit" ].

Definition detectAppointmentIntent (message : string) : bool :=
  existsb (fun keyword => Js.includes keyword (Js.toLowerCase message))
    APPOINTMENT_KEYWORDS.

(** The conversation record, as far as the booking reads it. *)
Record Conversation := {
  userName : option string;
  petName : option string;
}.

Definition setIfTruthy (key : string) (v : option string)
    (data : gmap string string) : gmap string string :=
  match v with
  | Some s => if Js.truthy v then <[key := s]> data else data
  | None => data
  end.

Definition keepTruthy (v : string) : option string :=
  if Js.truthy (Some v) then Some v else None.

(** The first turn of a booking in [sendMessage]: the data known from the
    conversation and everything extracted from the message are handed to
    [createBookingState].  [None] when no booking intent is detected. *)
Definition startBooking (h : Host) (ai : option Extracted)
    (aiIntentDetected : bool) (conversation : Conversation) (message : string)
    : option BookingState :=
  if detectAppointmentIntent message || aiIntentDetected then
    let extracted := analyzeMessage h ai message in
    let initialData := setIfTruthy "petOwnerName" (userName conversation) ∅ in
    let initialData := setIfTruthy "petName" (petName conversation) initialData in
    let initialData := omap keepTruthy (fields extracted) ∪ initialData in
    let bookingState := createBookingState initialData in
    Some (if isComplete initialData then withConfirming true bookingState
          else bookingState)
  else None.

(** A later turn: its clock and date parsing, the model's answer, the
    utterance. *)
Record Turn := {
  host : Host;
  aiAnswer : option Extracted;
  utterance : string;
}.

(** The state stored after each of a sequence of turns; [None] when a turn
    throws. *)
Fixpoint runTurns (turns : list Turn) (s : BookingState) : option BookingState :=
  match turns with
  | [] => Some s
  | t :: turns' =>
      match processMessage (host t) (aiAnswer t) (utterance t) s with
      | Some r => runTurns turns' (state r)
      | None => None
      end
  end.

End Controller.

(** ** Notions used to state the properties *)

Module Props.

Import Js Re Flow.

(** A value passed the validator of its field (at some time: the date
    validator depends on the clock). *)
Definition passedValidator (field value : string) : Prop :=
  exists h, validateField h field (Some value) = Valid.

(** Every value stored under a required field passed its validator. *)
Definition storedValuesValid (collected : gmap string string) : Prop :=
  forall field value,
    In field REQUIRED_FIELDS -> collected !! field = Some value ->
    passedValidator field value.

Definition cancelKeywords : list string :=
  ["cancel"; "stop"; "nevermind"; "never mind"; "forget it"; "don't want"].

Fixpoint lastChar (prev : option ascii) (s : string) : option ascii :=
  match s with
  | EmptyString => prev
  | String c s' => lastChar (Some c) s'
  end.

Definition firstChar (s : string) : option ascii :=
  match s with
  | EmptyString => None
  | String c _ => Some c
  end.

(** [kw] occurs in [s] as a whole word or phrase: no word character stands
    just before or just after the occurrence. *)
Definition occursAsWord (kw s : string) : Prop :=
  exists pre post,
    s = pre +:+ kw +:+ post
    /\ Re.isWordAt (lastChar None pre) = false
    /\ Re.isWordAt (firstChar post) = false.

Fixpoint allChars (p : ascii -> bool) (s : string) : bool :=
  match s with
  | EmptyString => true
  | String c s' => p c && allChars p s'
  end.

(** The characters the owner-name validator admits: letters, white space,
    the hyphen and the apostrophe. *)
Definition nameChar (c : ascii) : bool :=
  Js.isLetter c || Js.isSpace c || Ascii.eqb c "-" || Ascii.eqb c "'".

(** The owner-name rule as the specification words it. *)
Definition specNameChar (c : ascii) : bool :=
  Js.isLetter c || Ascii.eqb c " " || Ascii.eqb c "-" || Ascii.eqb c "'".

Definition specOwnerNameOk (v : string) : Prop :=
  (2 <= String.length (Js.trim v) <= 100)%nat /\ allChars specNameChar v = true.

(** The notes rule as the specification words it. *)
Definition specNotesOk (v : option string) : Prop :=
  match v with
  | None => True
  | Some s => (String.length s <= 500)%nat
  end.

(** A date in the long form "Month D, YYYY". *)
Definition longForm (date : Z) : string :=
  monthLong (JsDate.getMonth date) +:+ " "
  +:+ Js.numToString (JsDate.getDate date) +:+ ", "
  +:+ Js.numToString (JsDate.getFullYear date).

Definition isFeb29 (date : Z) : Prop :=
  JsDate.getMonth date = 1%Z /\ JsDate.getDate date = 29%Z.

Fixpoint repeatChar (n : nat) (c : ascii) : string :=
  match n with
  | O => EmptyString
  | S n' => String c (repeatChar n' c)
  end.

(** A continuation that accepts exactly at the end of the text. *)
Definition atEnd (k : Cont) : Prop :=
  forall y, is_Some (k y) <-> rest y = EmptyString.

(** [y] is at or after [x] in the same text. *)
Definition ahead (x y : MState) : Prop :=
  exists pre, rest x = pre +:+ rest y.

(** Whatever a matcher returns comes from its continuation, called at or
    after the position where the matcher started. *)
Definition forward (m : MState -> Cont -> option MState) : Prop :=
  forall x k z, m x k = Some z -> exists y, ahead x y /\ k y = Some z.

(** The end of the text, counted from its start: a match moves the position
    and shortens the rest by the same amount. *)
Definition span (x : MState) : nat := pos x + String.length (rest x).

(** Two continuations agree on the states at or after [x] in the same text. *)
Definition agreeAhead (x : MState) (k k' : Cont) : Prop :=
  forall y, ahead x y -> span y = span x -> k y = k' y.

(** A matcher only consults its continuation at or after its start. *)
Definition localMatcher (m : MState -> Cont -> option MState) : Prop :=
  forall x k k', agreeAhead x k k' -> m x k = m x k'.

(** The shapes of the result of a turn. *)
Inductive TurnShape (h : Host) (ai : option Extracted) (message : string)
    (s : BookingState) (r : Result) : Prop :=
| shape_cancelled :
    wantsToCancel (analyzeMessage h ai message) = true ->
    r = {| state := withActive false s; response := Some cancelText;
           action := Cancelled |} ->
    TurnShape h ai message s r
| shape_restarted :
    wantsToCancel (analyzeMessage h ai message) = false ->
    wantsToRestart (analyzeMessage h ai message) = true ->
    r = {| state := createBookingState ∅; response := Some restartText;
           action := Restarted |} ->
    TurnShape h ai message s r
| shape_confirmed :
    isConfirming s = true ->
    r = {| state := withComplete true s; response := None; action := Confirmed |} ->
    TurnShape h ai message s r
| shape_edit :
    isConfirming s = true ->
    r = {| state := withConfirming false s; response := Some editText;
           action := EditRequested |} ->
    TurnShape h ai message s r
| shape_confirming text :
    let c := collectAll h (fields (analyzeMessage h ai message))
               (collectedFields s) in
    isComplete (updatedFields c) = true ->
    r = {| state := withConfirming true (withFields (updatedFields c) s);
           response := Some text; action := Confirming |} ->
    TurnShape h ai message s r
| shape_collecting st text :
    let c := collectAll h (fields (analyzeMessage h ai message))
               (collectedFields s) in
    isComplete (updatedFields c) = false ->
    collectedFields st = updatedFields c ->
    isActive st = isActive s ->
    r = {| state := st; response := Some text; action := Collecting |} ->
    TurnShape h ai message s r.

(** The last steps of [parseNaturalDate], reached when no keyword, weekday
    or month name decides: the host's reading of the text, then the ISO and
    the slash forms. *)
Definition genericDate (h : Host) (text : string) : option string :=
  match dateParse h text with
  | Some parsedDate => Some (formatDate parsedDate)
  | None =>
      match exec isoRe text with
      | Some isoMatch => Some (whole isoMatch)
      | None =>
          match exec slashRe text with
          | Some slashMatch =>
              match Js.parseInt (group slashMatch 3),
                    Js.parseInt (group slashMatch 1),
                    Js.parseInt (group slashMatch 2) with
              | Some year, Some first, Some second =>
                  Some (formatDate (JsDate.newDate year (first - 1) second))
              | _, _, _ => None
              end
          | None => None
          end
      end
  end.

(** The text is none of the fixed phrases of [parseNaturalDate]. *)
Definition noDatePhrase (lowerText : string) : Prop :=
  String.eqb lowerText "today" = false
  /\ String.eqb lowerText "tomorrow" = false
  /\ Js.includes "day after tomorrow" lowerText = false
  /\ String.eqb lowerText "next week" = false.

Inductive Weekday :=
| Sunday | Monday | Tuesday | Wednesday | Thursday | Friday | Saturday.

Definition weekdayName (w : Weekday) : string :=
  match w with
  | Sunday => "sunday"
  | Monday => "monday"
  | Tuesday => "tuesday"
  | Wednesday => "wednesday"
  | Thursday => "thursday"
  | Friday => "friday"
  | Saturday => "saturday"
  end.

(** The number of the weekday, as [getDay] gives it. *)
Definition weekdayIndex (w : Weekday) : Z :=
  match w with
  | Sunday => 0
  | Monday => 1
  | Tuesday => 2
  | Wednesday => 3
  | Thursday => 4
  | Friday => 5
  | Saturday => 6
  end%Z.

(** The characters that follow the month name in the long form of a date:
    digits, the comma and the space. *)
Definition plainChar (c : ascii) : bool :=
  Js.isDigit c || Ascii.eqb c "," || Ascii.eqb c " ".

(** The prompts of the five required fields. *)
Definition prompts : list string :=
  [ "What's your name?"; "What's your pet's name?";
    "What's the best phone number to reach you?";
    "What date works best for you? (e.g., January 20, tomorrow, next Monday)";
    "What time would you prefer? (e.g., 10:00 AM, afternoon, 2pm)" ].

End Props.

(** ** Sample hosts and inputs *)

Module Samples.

Import Flow.

(** The date-only ISO form, read in a zone without offset from UTC. *)
Definition isoDateOnlyRe : Re.Pattern :=
  {| Re.icase := false;
     Re.body := Re.seq [Re.RBol; Re.RGroup 1 (Re.times 4 Re.digit); Re.RChar "-";
                        Re.RGroup 2 (Re.times 2 Re.digit); Re.RChar "-";
                        Re.RGroup 3 (Re.times 2 Re.digit); Re.REol] |}.

Definition isoDateParse (s : string) : option Z :=
  match Re.exec isoDateOnlyRe s with
  | Some m =>
      match Js.parseInt (Re.group m 1), Js.parseInt (Re.group m 2),
            Js.parseInt (Re.group m 3) with
      | Some y, Some mo, Some d =>
          if (1 <=? mo)%Z && (mo <=? 12)%Z && (1 <=? d)%Z && (d <=? 31)%Z
          then Some (JsDate.MakeDate (JsDate.MakeDay y (mo - 1) d) 0)
          else None
      | _, _, _ => None
      end
  | None => None
  end.

(** Monday 2 November 2026, 13:00. *)
Definition sampleNow : Z := (JsDate.newDate 2026 10 2 + 13 * 3600000)%Z.

(** A host that reads the ISO date form and rejects every other text. *)
Definition strictHost : Host := {| now := sampleNow; dateParse := isoDateParse |}.

(** A host that also reads a run of three or four digits as the first of
    January of that year, as the legacy parser of V8 does. *)
Definition lenientHost : Host :=
  {| now := sampleNow;
     dateParse := fun s =>
       if allDigits s
          && ((String.length s =? 3)%nat || (String.length s =? 4)%nat)
       then Some (JsDate.MakeDate (JsDate.MakeDay (Js.parseDigits 0 s) 0 1) 0)
       else isoDateParse s |}.

Definition emptyState : BookingState := createBookingState ∅.

(** A state with the owner and the pet known, waiting for the phone number. *)
Definition awaitingPhone : BookingState :=
  createBookingState {[ "petOwnerName" := "John Smith"; "petName" := "Buddy" ]}.

(** A state with every required field collected, waiting for the yes or no. *)
Definition confirmingState : BookingState :=
  withConfirming true
    (createBookingState
       {[ "petOwnerName" := "John Smith"; "petName" := "Buddy";
          "phoneNumber" := "555-123-4567"; "preferredDate" := "2026-11-03";
          "preferredTime" := "10:00" ]}).

Definition noConversation : Controller.Conversation :=
  {| Controller.userName := None; Controller.petName := None |}.

(** The utterance of the first turn of the scenario of the specification. *)
Definition johnAndBuddy : string := "I'm John and my dog is Buddy".

(** A first message with a booking intent. *)
Definition fiveMinutes : string := "I need an appointment, I'm 5 minutes away".

(** A turn on the strict host, without the generative model. *)
Definition turn (message : string) : Controller.Turn :=
  {| Controller.host := strictHost; Controller.aiAnswer := None;
     Controller.utterance := message |}.

End Samples.

(** ** The texts a pattern matches *)

Module Lang.

Import Js Re.

Fixpoint concatAll (l : list string) : string :=
  match l with
  | [] => EmptyString
  | s :: l' => s +:+ concatAll l'
  end.

(** The least number of iterations a quantifier [{min,max}] makes. *)
Definition leastCount (min : nat) (max : option nat) : nat :=
  match max with
  | Some m => Nat.min min m
  | None => min
  end.

Definition withinMax (max : option nat) (n : nat) : Prop :=
  match max with
  | Some m => (n <= m)%nat
  | None => True
  end.

(** The texts a pattern can consume, whatever stands around them: the
    assertions [^], [$] and [\b] consume nothing. *)
Fixpoint matches (ic : bool) (r : Regex) (s : string) : Prop :=
  match r with
  | REmpty | RBol | REol | RWordBoundary => s = EmptyString
  | RChar a => exists c, s = String c EmptyString /\ charMatches ic a c = true
  | RClass negated items =>
      exists c, s = String c EmptyString /\ classMatches ic negated items c = true
  | RSeq r1 r2 =>
      exists s1 s2, s = s1 +:+ s2 /\ matches ic r1 s1 /\ matches ic r2 s2
  | RAlt r1 r2 => matches ic r1 s \/ matches ic r2 s
  | RRepeat min max r' =>
      exists l, s = concatAll l /\ Forall (matches ic r') l
                /\ (leastCount min max <= List.length l)%nat
                /\ withinMax max (List.length l)
  | RGroup _ r' => matches ic r' s
  end.

(** A matcher that succeeds has consumed a text of [L] before calling its
    continuation. *)
Definition sound (m : MState -> Cont -> option MState) (L : string -> Prop)
    : Prop :=
  forall x k z,
    m x k = Some z ->
    exists s y,
      rest x = s +:+ rest y /\ pos y = (pos x + String.length s)%nat
      /\ L s /\ k y = Some z.

Definition digitCount (s : string) : nat := String.length (Flow.digitsOf s).

(** A class item that only digits satisfy, and one that no digit satisfies. *)
Definition itemDigit (it : ClassItem) : bool :=
  match it with
  | CDigit => true
  | CRange lo hi => isDigit lo && isDigit hi
  | CChar a => isDigit a
  | _ => false
  end.

Definition itemOther (it : ClassItem) : bool :=
  match it with
  | CChar a => negb (isDigit a)
  | CSpace => true
  | _ => false
  end.

(** Bounds on the number of digits of a text that a case-sensitive pattern
    matches: the least number and, when there is one, the greatest. *)
Fixpoint minDigits (r : Regex) : nat :=
  match r with
  | RChar a => if isDigit a then 1 else 0
  | RClass negated items =>
      if negb negated && forallb itemDigit items then 1 else 0
  | RSeq r1 r2 => minDigits r1 + minDigits r2
  | RAlt r1 r2 => Nat.min (minDigits r1) (minDigits r2)
  | RRepeat min max r' => leastCount min max * minDigits r'
  | RGroup _ r' => minDigits r'
  | _ => 0
  end.

Fixpoint maxDigits (r : Regex) : option nat :=
  match r with
  | RChar a => Some (if isDigit a then 1 else 0)
  | RClass negated items =>
      Some (if negb negated && forallb itemOther items then 0 else 1)
  | RSeq r1 r2 =>
      match maxDigits r1, maxDigits r2 with
      | Some a, Some b => Some (a + b)
      | _, _ => None
      end
  | RAlt r1 r2 =>
      match maxDigits r1, maxDigits r2 with
      | Some a, Some b => Some (Nat.max a b)
      | _, _ => None
      end
  | RRepeat min max r' =>
      match max, maxDigits r' with
      | Some m, Some d => Some (m * d)
      | None, Some O => Some 0
      | _, _ => None
      end
  | RGroup _ r' => maxDigits r'
  | _ => Some 0
  end.

End Lang.
(** ** Words and phrases of an utterance *)

Module Phrases.

Import Js Flow.

Definition restartKeywords : list string :=
  ["restart"; "start over"; "begin again"; "reset"].

Definition yesWords : list string :=
  ["yes"; "yeah"; "yep"; "correct"; "right"; "confirm"; "that's right";
   "looks good"; "perfect"].

Definition noWords : list string :=
  ["no"; "nope"; "wrong"; "incorrect"; "change"; "fix"; "not right"].

(** The text begins with [w]. *)
Definition beginsWith (w s : string) : Prop := exists post, s = w +:+ post.

(** [w] occurs somewhere in the text. *)
Definition occursIn (w s : string) : Prop :=
  exists pre post, s = pre +:+ w +:+ post.

(** The generative model gives no yes or no (or it is not available). *)
Definition noModelConfirmation (ai : option Extracted) : Prop :=
  match ai with
  | Some a => truthy (confirmation a) = false
  | None => True
  end.

Definition notNewline (c : ascii) : bool :=
  negb (Ascii.eqb c (ascii_of_nat 10)).

(** A value that is absent, empty or white space only. *)
Definition blank (v : string) : bool :=
  negb (truthy (Some v)) || String.eqb (trim v) EmptyString.

(** The host makes no date of a text that is empty or white space only. *)
Definition rejectsBlank (h : Host) : Prop :=
  forall v, trim v = EmptyString -> dateParse h v = None.

Definition isValid (v : Validation) : bool :=
  match v with
  | Valid => true
  | Invalid _ => false
  end.

(** The extraction has a value for the field and the validator of the
    field accepts it, or refuses it. *)
Definition accepted (h : Host) (extracted : gmap string string) (f : string)
    : bool :=
  truthy (extracted !! f) && isValid (validateField h f (extracted !! f)).

Definition rejected (h : Host) (extracted : gmap string string) (f : string)
    : bool :=
  truthy (extracted !! f) && negb (isValid (validateField h f (extracted !! f))).

End Phrases.

(** ** The chat controller: the booking states of the sessions *)

Module Sessions.

Import Flow Controller.

(** [getBookingState], on [bookingStates], the map from session identifiers
    to booking states. *)
Definition getBookingState (bookingStates : gmap string BookingState)
    (sessionId : string) : option BookingState :=
  bookingStates !! sessionId.

(** [setBookingState]: a state that is [null] or not active removes the
    entry of the session. *)
Definition setBookingState (bookingStates : gmap string BookingState)
    (sessionId : string) (state : option BookingState)
    : gmap string BookingState :=
  match state with
  | Some s =>
      if isActive s then <[sessionId := s]> bookingStates
      else delete sessionId bookingStates
  | None => delete sessionId bookingStates
  end.

Definition creationFailedText : string :=
  "I'm sorry, there was an issue creating your appointment. Please try again or contact our clinic directly.".

Definition flowErrorText : string :=
  "I encountered an issue with the booking process. Would you like to start over? Just say 'restart' or 'cancel'.".

(** The reply of [sendMessage]: [aiReply] ([None] is [undefined] or
    [null]), or the answer of the regular chat, which is outside this
    development. *)
Inductive Reply :=
| Said (aiReply : option string)
| RegularChat.

(** The branch of [sendMessage] for a session in booking mode.  [create]
    stands for the creation of the appointment from the collected fields
    followed by the rendering of the success message: the text of that
    message, or [None] when one of the two throws. *)
Definition bookingTurn (h : Host) (ai : option Extracted)
    (create : gmap string string -> option string) (message : string)
    (sessionId : string) (bookingState : BookingState)
    (bookingStates : gmap string BookingState)
    : gmap string BookingState * Reply :=
  match processMessage h ai message bookingState with
  | Some result =>
      let bookingStates :=
        setBookingState bookingStates sessionId (Some (state result)) in
      match action result with
      | Confirmed =>
          match create (collectedFields (state result)) with
          | Some text =>
              (setBookingState bookingStates sessionId None, Said (Some text))
          | None =>
              (setBookingState bookingStates sessionId
                 (Some (withConfirming false (state result))),
               Said (Some creationFailedText))
          end
      | Cancelled =>
          (setBookingState bookingStates sessionId None, Said (response result))
      | _ => (bookingStates, Said (response result))
      end
  | None => (bookingStates, Said (Some flowErrorText))
  end.

(** The data a booking starts with: the names known from the conversation,
    then every truthy property extracted from the message. *)
Definition initialDataOf (h : Host) (ai : option Extracted)
    (conversation : Conversation) (message : string) : gmap string string :=
  let extracted := analyzeMessage h ai message in
  let initialData := setIfTruthy "petOwnerName" (userName conversation) ∅ in
  let initialData := setIfTruthy "petName" (petName conversation) initialData in
  omap keepTruthy (fields extracted) ∪ initialData.

Definition greetingWithData : string :=
  "I'd be happy to help you book an appointment! I already have some of your information. ".

Definition greetingWithoutData : string :=
  "I'd be happy to help you book an appointment! 🐾" +:+ nl +:+ nl
  +:+ "I'll need a few details from you. ".

(** The branch of [sendMessage] for a session that is not in booking mode;
    the outer [None] is an exception thrown while rendering the
    confirmation. *)
Definition firstTurn (h : Host) (ai : option Extracted) (aiIntentDetected : bool)
    (conversation : Conversation) (message : string) (sessionId : string)
    (bookingStates : gmap string BookingState)
    : option (gmap string BookingState * Reply) :=
  if detectAppointmentIntent message || aiIntentDetected then
    let initialData := initialDataOf h ai conversation message in
    let bookingState := createBookingState initialData in
    if isComplete initialData then
      match generateConfirmationMessage h initialData with
      | Some text =>
          Some (setBookingState bookingStates sessionId
                  (Some (withConfirming true bookingState)),
                Said (Some text))
      | None => None
      end
    else
      let aiReply :=
        match getNextField initialData with
        | Some (_, nextPrompt) =>
            Some (if bool_decide (initialData = ∅)
                  then greetingWithoutData +:+ nextPrompt
                  else greetingWithData +:+ nextPrompt)
        | None => None
        end in
      Some (setBookingState bookingStates sessionId (Some bookingState),
            Said aiReply)
  else Some (bookingStates, RegularChat).

(** [sendMessage], as far as the booking states and the reply go. *)
Definition sendMessage (h : Host) (ai : option Extracted) (aiIntentDetected : bool)
    (create : gmap string string -> option string)
    (conversation : Conversation) (message : string) (sessionId : string)
    (bookingStates : gmap string BookingState)
    : option (gmap string BookingState * Reply) :=
  match getBookingState bookingStates sessionId with
  | Some bookingState =>
      if isActive bookingState
      then Some (bookingTurn h ai create message sessionId bookingState
                   bookingStates)
      else firstTurn h ai aiIntentDetected conversation message sessionId
             bookingStates
  | None =>
      firstTurn h ai aiIntentDetected conversation message sessionId bookingStates
  end.



(** A stored state in good order: it is active, and when it awaits the
    confirmation no required field is missing. *)
Definition wellFormed (s : BookingState) : Prop :=
  isActive s = true
  /\ (isConfirming s = true -> isComplete (collectedFields s) = true).

(** Every stored state is active. *)
Definition allActive (bookingStates : gmap string BookingState) : Prop :=
  forall sessionId s, bookingStates !! sessionId = Some s -> isActive s = true.


End Sessions.

(** ** More sample inputs *)

Module Scenes.

Import Flow.

(** A state with every field but the time. *)
Definition awaitingTime : BookingState :=
  createBookingState
    {[ "petOwnerName" := "John Smith"; "petName" := "Buddy";
       "phoneNumber" := "555-123-4567"; "preferredDate" := "2026-11-03" ]}.

(** A creation of the appointment that succeeds, and one that fails. *)
Definition creationSucceeds : gmap string string -> option string :=
  fun _ => Some "Booked".

Definition creationFails : gmap string string -> option string :=
  fun _ => None.

(** A creation that fails on complete maps and succeeds on the others. *)
Definition creationPicky : gmap string string -> option string :=
  fun m => if isComplete m then None else Some "Booked".

End Scenes.

(** ** Checks that run over every time of the day *)

Module Checks.

Import Js Flow.

(** The 12-hour form of a time of the 24-hour clock. *)
Definition twelveHour (hh mm : Z) : string :=
  numToString (if (hh mod 12 =? 0)%Z then 12%Z else (hh mod 12)%Z)
  +:+ ":" +:+ pad2 mm +:+ " " +:+ (if (hh <? 12)%Z then "AM" else "PM").

Definition sameText (a : option string) (b : string) : bool :=
  match a with
  | Some s => String.eqb s b
  | None => false
  end.

(** The time [hh:mm] passes the validator with and without the leading
    zero of the hour, is displayed in the 12-hour form, and that form is
    parsed back to it. *)
Definition timeRoundTrips (hh mm : Z) : bool :=
  let t := pad2 hh +:+ ":" +:+ pad2 mm in
  Re.test timeFormatRe t
  && Re.test timeFormatRe (numToString hh +:+ ":" +:+ pad2 mm)
  && sameText (formatTimeForDisplay t) (twelveHour hh mm)
  && sameText (parseNaturalTime (twelveHour hh mm)) t.

(** What the parser makes of the bare number [n]. *)
Definition bareHour (n : Z) : option string :=
  if (8 <=? n)%Z && (n <=? 18)%Z then Some (pad2 n +:+ ":00") else None.

Definition bareHourParsed (n : Z) : bool :=
  match parseNaturalTime (numToString n), bareHour n with
  | Some a, Some b => String.eqb a b
  | None, None => true
  | _, _ => false
  end.

Definition upTo (n : nat) : list Z := List.map Z.of_nat (List.seq 0 n).

End Checks.

(** * Properties *)

Import Js Re Flow Props Samples.

(** ** The matcher *)

Lemma repeatMatcher_unbounded body gs fuel min x k :
  repeatMatcher body gs (S fuel) min None x k =
  let d : Cont := fun y =>
    if Nat.eqb min 0 && Nat.eqb (pos y) (pos x) then None
    else repeatMatcher body gs fuel (Nat.pred min) None y k in
  if Nat.eqb min 0
  then match body (clearCaptures gs x) d with
       | Some z => Some z
       | None => k x
       end
  else body (clearCaptures gs x) d.
Proof. reflexivity. Qed.

Lemma matcher_class ic neg items x k :
  matcher ic (RClass neg items) x k =
  match rest x with
  | String c s => if classMatches ic neg items c then k (step x c s) else None
  | EmptyString => None
  end.
Proof. reflexivity. Qed.

Lemma eol_atEnd : atEnd (fun y => matcher false (RSeq REol REmpty) y Some).
Proof.
  intros [p b [|c s] caps]; simpl; split; intros H; done.
Qed.

(** A greedy run of one class that must reach the end of the text succeeds
    exactly when every remaining character is in the class. *)
Lemma repeat_class_to_end ic neg items k :
  atEnd k ->
  forall s x fuel min,
    rest x = s ->
    (min + String.length s < fuel)%nat ->
    is_Some (repeatMatcher (matcher ic (RClass neg items)) [] fuel min None x k)
    <-> (min <= String.length s)%nat
        /\ allChars (classMatches ic neg items) s = true.
Proof.
  intros Hk s. unfold atEnd in Hk.
  induction s as [|c s IH]; intros x fuel min Hx Hfuel;
    (destruct fuel as [|fuel]; [simpl in Hfuel; lia|]);
    rewrite repeatMatcher_unbounded; cbv zeta; rewrite matcher_class;
    cbn [clearCaptures rest]; rewrite Hx; cbn [allChars String.length].
  - destruct min as [|min]; cbn [Nat.eqb].
    + rewrite Hk, Hx. split; [intros _; split; [lia|done] | done].
    + split; [intros [? ?]; done | intros [? _]; lia].
  - cbn [String.length] in Hfuel.
    destruct (classMatches ic neg items c) eqn:Hc; cbn [andb].
    + change (pos (step (clearCaptures [] x) c s)) with (S (pos x)).
      replace (Nat.eqb (S (pos x)) (pos x)) with false
        by (symmetry; apply Nat.eqb_neq; lia).
      rewrite andb_false_r.
      destruct min as [|min]; cbn [Nat.eqb Nat.pred].
      * match goal with |- context [repeatMatcher ?bd ?gs fuel 0%nat None ?y k] =>
          pose proof (IH y fuel 0%nat eq_refl) as IH';
          destruct (repeatMatcher bd gs fuel 0%nat None y k) eqn:E end.
        -- split; [intros _|by eauto].
           assert (is_Some (Some m)) as Hs by eauto.
           apply IH' in Hs; [|lia]. split; [lia|tauto].
        -- rewrite Hk, Hx. split; [done|]. intros [_ Ha].
           assert (is_Some (@None MState)) as [? ?]; [|done].
           apply IH'; [lia|]. split; [lia|done].
      * rewrite IH by (done || lia). split; intros [? ?]; split; (lia || done).
    + destruct min as [|min]; cbn [Nat.eqb].
      * rewrite Hk, Hx. split; [done | intros [_ ?]; done].
      * split; [intros [? ?]; done | intros [_ ?]; done].
Qed.

(** A pattern that starts with [^] only matches at the start. *)
Lemma search_bol_later ic r : forall s c idx,
  search ic (RSeq RBol r) (Some c) s idx = None.
Proof.
  induction s as [|a s IH]; intros c idx; simpl; [done|]. apply IH.
Qed.

Lemma search_anchored ic r s :
  is_Some (search ic (RSeq RBol r) None s 0)
  <-> is_Some (matcher ic r
                 {| pos := 0; before := None; rest := s; captures := [] |} Some).
Proof.
  destruct s as [|c s]; cbn [search];
    change (matcher ic (RSeq RBol r) ?x Some) with (matcher ic r x Some);
    destruct (matcher ic r _ Some) eqn:E;
    rewrite ?search_bol_later; split; intros H; (done || eauto).
Qed.

(** ** The owner-name validator *)

Lemma nameClass_char c :
  classMatches false false
    [CRange "a" "z"; CRange "A" "Z"; CSpace; CChar "-"; CChar "'"] c = nameChar c.
Proof.
  destruct c as [[] [] [] [] [] [] [] []]; reflexivity.
Qed.

Lemma test_nameChars v :
  test nameCharsRe v = true
  <-> (1 <= String.length v)%nat /\ allChars nameChar v = true.
Proof.
  unfold test. rewrite bool_decide_eq_true.
  unfold exec, nameCharsRe. cbn [icase body seq].
  rewrite search_anchored.
  assert (allChars nameChar v = allChars (classMatches false false
     [CRange "a" "z"; CRange "A" "Z"; CSpace; CChar "-"; CChar "'"]) v) as ->.
  { induction v as [|c v IH]; cbn [allChars]; [done|].
    by rewrite IH, nameClass_char. }
  rewrite <- (repeat_class_to_end false false _ _ eol_atEnd v
                {| pos := 0; before := None; rest := v; captures := [] |}
                (S (1 + String.length v)) 1) by (done || lia).
  reflexivity.
Qed.

Lemma trim_length_le s : (String.length (trim s) <= String.length s)%nat.
Proof.
  unfold trim.
  assert (forall t, (String.length (trimEnd t) <= String.length t)%nat) as He.
  { induction t as [|c t IH]; simpl; [lia|].
    destruct (trimEnd t); [destruct (isSpace c)|]; simpl in *; lia. }
  assert (forall t, (String.length (trimStart t) <= String.length t)%nat) as Hs.
  { induction t as [|c t IH]; simpl; [lia|]. destruct (isSpace c); simpl; lia. }
  specialize (He (trimStart s)). specialize (Hs s). lia.
Qed.

(** C5 (amended). The owner-name validator accepts a value exactly when its
    trimmed length is at least 2, its full length is at most 50, and it
    consists of letters, white space, hyphens and apostrophes; a missing
    value is refused; every refusal carries a non-empty reason, and the
    validator is a total function. *)
Theorem ownerName_validator_accepts (h : Host) :
  (forall v : string,
     validateField h "petOwnerName" (Some v) = Valid
     <-> (2 <= String.length (trim v))%nat
         /\ (String.length v <= 50)%nat
         /\ allChars nameChar v = true)
  /\ (forall o : option string,
        validateField h "petOwnerName" o = Valid
        \/ exists reason, validateField h "petOwnerName" o = Invalid reason
                          /\ reason <> EmptyString)
  /\ validateField h "petOwnerName" None
     = Invalid "Name must be at least 2 characters".
Proof.
  change (validateField h "petOwnerName") with (validateOwnerName h).
  split; [|split]; [| |reflexivity].
  - intros v. unfold validateOwnerName.
    pose proof (trim_length_le v) as Hle.
    pose proof (test_nameChars v) as Ht.
    destruct v as [|c v]; [simpl; split; [done|intros [? _]; simpl in *; lia]|].
    cbn [truthy negb orb].
    destruct (Nat.ltb_spec (String.length (trim (String c v))) 2);
      [split; [done|lia]|].
    destruct (Nat.ltb_spec 50 (String.length (String c v)));
      [split; [done|lia]|].
    destruct (test nameCharsRe (String c v)); cbn [negb].
    + split; [intros _|done]. split; [lia|split; [lia|]]. by apply Ht.
    + split; [done|]. intros (_ & _ & Ha).
      assert (false = true) as Hf by (apply Ht; split; [simpl; lia|done]).
      done.
  - intros [v|]; unfold validateOwnerName;
      [|right; eexists; split; [reflexivity|done]].
    repeat match goal with
           | |- context [if ?b then _ else _] => destruct b
           end; (by left) || (right; eexists; split; [reflexivity|done]).
Qed.

(** C5 (counterexample). A name of 51 letters meets the rule of the
    specification (trimmed length between 2 and 100, letters only), and the
    validator refuses it. *)
Lemma ownerName_51_letters_refused :
  ~ (validateField Samples.strictHost "petOwnerName" (Some (repeatChar 51 "a"))
     = Valid
     <-> specOwnerNameOk (repeatChar 51 "a")).
Proof.
  intros [_ H].
  assert (specOwnerNameOk (repeatChar 51 "a")) as Hs.
  { split; [vm_compute; lia | reflexivity]. }
  apply H in Hs. vm_compute in Hs. discriminate.
Qed.

(** ** The notes field *)

Lemma configOf_other name :
  ~ In name REQUIRED_FIELDS -> configOf name = None.
Proof.
  intros Hn. unfold configOf, FIELD_CONFIG. cbn [lookupConfig].
  repeat match goal with
         | |- context [String.eqb name ?k] =>
             destruct (String.eqb_spec name k) as [->|_];
             [exfalso; apply Hn; simpl; auto 10|]
         end.
  reflexivity.
Qed.

(** C9 (amended). The field configuration has no entry for [notes], so
    [validateField] accepts every notes value, absent or present, whatever
    its length, and never gives a reason; the same holds of every field
    that is not one of the five required ones. *)
Theorem notes_validator_accepts_all (h : Host) (v : option string) :
  configOf "notes" = None
  /\ validateField h "notes" v = Valid
  /\ (forall name, ~ In name REQUIRED_FIELDS -> validateField h name v = Valid).
Proof.
  split; [reflexivity|]. split; [reflexivity|].
  intros name Hn. unfold validateField. by rewrite configOf_other.
Qed.

(** C9 (counterexample). Notes of 501 characters break the rule of the
    specification and are accepted. *)
Lemma notes_501_accepted :
  ~ (validateField Samples.strictHost "notes" (Some (repeatChar 501 "x")) = Valid
     <-> specNotesOk (Some (repeatChar 501 "x"))).
Proof.
  intros [H _]. specialize (H eq_refl). vm_compute in H. lia.
Qed.

(** ** Matches only move forward *)

Lemma ahead_refl x : ahead x x.
Proof. by exists EmptyString. Qed.

Lemma append_cons c (a b : string) : String c a +:+ b = String c (a +:+ b).
Proof. reflexivity. Qed.

Lemma append_nil (b : string) : EmptyString +:+ b = b.
Proof. reflexivity. Qed.

Lemma append_assoc_s (a b c : string) : (a +:+ b) +:+ c = a +:+ (b +:+ c).
Proof.
  induction a as [|x a IH]; [done|]. by rewrite !append_cons, IH.
Qed.

Lemma ahead_trans x y z : ahead x y -> ahead y z -> ahead x z.
Proof.
  intros [p Hp] [q Hq]. exists (p +:+ q).
  by rewrite Hp, Hq, append_assoc_s.
Qed.

Lemma repeatMatcher_forward body gs :
  forward body ->
  forall fuel min max, forward (fun x k => repeatMatcher body gs fuel min max x k).
Proof.
  intros Hb fuel. induction fuel as [|fuel IH]; intros min max x k z; [done|].
  cbn [repeatMatcher].
  assert (forall d : Cont,
            (forall y, d y = Some z -> exists y', ahead y y' /\ k y' = Some z) ->
            forall r, body (clearCaptures gs x) d = Some r -> r = z -> 
            exists y, ahead x y /\ k y = Some z) as Hstep.
  { intros d Hd r Hr ->. apply Hb in Hr as (y & Hxy & Hy).
    apply Hd in Hy as (y' & Hyy' & Hy'). exists y'. split; [|done].
    eapply ahead_trans; [|exact Hyy']. exact Hxy. }
  set (d := fun y : MState =>
              if Nat.eqb min 0 && Nat.eqb (pos y) (pos x) then None
              else repeatMatcher body gs fuel (Nat.pred min) (predMax max) y k).
  assert (forall y, d y = Some z -> exists y', ahead y y' /\ k y' = Some z) as Hd.
  { intros y. unfold d. destruct (_ && _); [done|]. apply IH. }
  assert (k x = Some z -> exists y, ahead x y /\ k y = Some z) as Hk.
  { intros ?. exists x. split; [apply ahead_refl|done]. }
  destruct max as [[|n]|]; [exact Hk| |];
    (destruct (Nat.eqb min 0);
     [destruct (body (clearCaptures gs x) d) eqn:E;
      [intros [= ->]; eapply Hstep; eauto | exact Hk]
     |intros E; eapply Hstep; eauto]).
Qed.

Lemma matcher_forward ic r : forward (matcher ic r).
Proof.
  induction r as [|a|neg items|r1 IH1 r2 IH2|r1 IH1 r2 IH2|min max r IH|n r IH| | |];
    intros x k z; cbn [matcher].
  - intros ?. exists x. split; [apply ahead_refl|done].
  - destruct (rest x) as [|c s] eqn:E; [done|].
    destruct (charMatches ic a c); [|done]. intros ?.
    exists (step x c s). split; [|done]. exists (String c EmptyString). by rewrite E.
  - destruct (rest x) as [|c s] eqn:E; [done|].
    destruct (classMatches ic neg items c); [|done]. intros ?.
    exists (step x c s). split; [|done]. exists (String c EmptyString). by rewrite E.
  - intros H. apply IH1 in H as (y & Hxy & H). apply IH2 in H as (y' & Hyy' & H).
    exists y'. split; [|done]. by eapply ahead_trans.
  - destruct (matcher ic r1 x k) eqn:E; [intros [= ->]; by apply IH1|apply IH2].
  - apply (repeatMatcher_forward _ _ IH).
  - intros H. apply IH in H as (y & Hxy & H).
    exists (setCapture n x y). split; [|done]. exact Hxy.
  - destruct (before x); [done|]. intros ?. exists x. split; [apply ahead_refl|done].
  - destruct (rest x); [|done]. intros ?. exists x. split; [apply ahead_refl|done].
  - destruct (xorb _ _); [|done]. intros ?. exists x. split; [apply ahead_refl|done].
Qed.

(** ** The time validator and the display of a time *)

Lemma splitColon_nonempty s : splitColon s <> [].
Proof.
  destruct s as [|c s]; simpl; [done|].
  destruct (splitColon s); [done|]. by destruct (Ascii.eqb c ":").
Qed.

Lemma splitColon_colon pre post :
  (2 <= List.length (splitColon (pre +:+ String ":" post)))%nat.
Proof.
  induction pre as [|c pre IH];
    rewrite ?append_nil, ?append_cons; cbn [splitColon].
  - pose proof (splitColon_nonempty post). destruct (splitColon post); [done|].
    simpl. lia.
  - destruct (splitColon (pre +:+ String ":" post)) as [|p ps] eqn:E;
      [simpl in IH; lia|].
    destruct (Ascii.eqb c ":"); simpl in *; lia.
Qed.

Lemma formatTime_colon pre post :
  is_Some (formatTimeForDisplay (pre +:+ String ":" post)).
Proof.
  unfold formatTimeForDisplay.
  pose proof (splitColon_colon pre post) as H.
  destruct (splitColon (pre +:+ String ":" post)) as [|a [|b l]];
    simpl in H; try lia.
  simpl. eauto.
Qed.

(** A time the validator accepts has a colon, so it can be displayed. *)
Lemma valid_time_displays h v :
  validateField h "preferredTime" (Some v) = Valid ->
  is_Some (formatTimeForDisplay v).
Proof.
  change (validateField h "preferredTime") with (validateTime h).
  unfold validateTime. destruct (negb (truthy (Some v))); [done|].
  destruct (test timeFormatRe v) eqn:Ht; [intros _|done].
  unfold test in Ht. apply bool_decide_eq_true in Ht.
  unfold exec, timeFormatRe in Ht. cbn [icase body seq] in Ht.
  apply search_anchored in Ht as [z Hz].
  change (matcher false (RSeq ?g (RSeq (RChar ":") ?r)) ?x Some)
    with (matcher false g x (fun y => matcher false (RSeq (RChar ":") r) y Some))
    in Hz.
  apply matcher_forward in Hz as (y & [pre Hpre] & Hy).
  cbn [matcher] in Hy. cbn [rest] in Hpre.
  destruct (rest y) as [|c s] eqn:E; [done|].
  unfold charMatches in Hy. destruct (Ascii.eqb_spec ":" c) as [<-|]; [|done].
  rewrite Hpre. apply formatTime_colon.
Qed.

(** ** The fuel of the repeat matcher is enough *)

Lemma ahead_length x y :
  ahead x y -> (String.length (rest y) <= String.length (rest x))%nat.
Proof.
  intros [pre ->]. induction pre as [|c pre IH]; [by rewrite append_nil|].
  rewrite append_cons. simpl. lia.
Qed.

Lemma agreeAhead_later x y k k' :
  ahead x y -> span y = span x -> agreeAhead x k k' -> agreeAhead y k k'.
Proof.
  intros Hxy Hs Hk z Hyz Hz. apply Hk; [by eapply ahead_trans|congruence].
Qed.

Lemma repeatMatcher_local body gs :
  localMatcher body ->
  forall fuel min max,
    localMatcher (fun x k => repeatMatcher body gs fuel min max x k).
Proof.
  intros Hb fuel. induction fuel as [|fuel IH]; intros min max x k k' Hk; [done|].
  cbn [repeatMatcher].
  assert (k x = k' x) as Hx by (apply Hk; [apply ahead_refl|done]).
  destruct max as [[|n]|]; [done| |];
    (match goal with
     | |- (if _ then match body ?xr ?d with _ => _ end else _) = 
          (if _ then match body _ ?d' with _ => _ end else _) =>
         assert (body xr d = body xr d') as ->;
           [|by rewrite Hx]
     end;
     apply Hb; intros y Hy Hs; destruct (_ && _); [done|];
     apply IH; eapply agreeAhead_later; [exact Hy|exact Hs|exact Hk]).
Qed.

Lemma matcher_local ic r : localMatcher (matcher ic r).
Proof.
  induction r as [|a|neg items|r1 IH1 r2 IH2|r1 IH1 r2 IH2|min max r IH|n r IH| | |];
    intros x k k' Hk; cbn [matcher];
    assert (k x = k' x) as Hx by (apply Hk; [apply ahead_refl|done]).
  - done.
  - destruct (rest x) as [|c s] eqn:E; [done|].
    destruct (charMatches ic a c); [|done].
    apply Hk; [exists (String c EmptyString); by rewrite E|].
    unfold span, step. cbn [pos rest]. rewrite E. simpl. lia.
  - destruct (rest x) as [|c s] eqn:E; [done|].
    destruct (classMatches ic neg items c); [|done].
    apply Hk; [exists (String c EmptyString); by rewrite E|].
    unfold span, step. cbn [pos rest]. rewrite E. simpl. lia.
  - apply IH1. intros y Hy Hs. apply IH2. by eapply agreeAhead_later.
  - by rewrite (IH1 x k k' Hk), (IH2 x k k' Hk).
  - by apply (repeatMatcher_local _ _ IH).
  - apply IH. intros y Hy Hs. apply Hk; [exact Hy|exact Hs].
  - by rewrite Hx.
  - by rewrite Hx.
  - by rewrite Hx.
Qed.

(** With more fuel than the minimum plus the length of the rest, the repeat
    matcher gives the same result whatever the fuel: the bound never cuts a
    match short. *)
Lemma repeatMatcher_fuel body gs :
  localMatcher body ->
  forall fuel1 fuel2 min max x k,
    (min + String.length (rest x) < fuel1)%nat ->
    (min + String.length (rest x) < fuel2)%nat ->
    repeatMatcher body gs fuel1 min max x k
    = repeatMatcher body gs fuel2 min max x k.
Proof.
  intros Hb fuel1. induction fuel1 as [|fuel1 IH];
    intros fuel2 min max x k H1 H2; [lia|].
  destruct fuel2 as [|fuel2]; [lia|]. cbn [repeatMatcher].
  destruct max as [[|n]|]; [done| |];
    (match goal with
     | |- (if _ then match body ?xr ?d with _ => _ end else _) = 
          (if _ then match body _ ?d' with _ => _ end else _) =>
         assert (body xr d = body xr d') as ->; [|done]
     end;
     apply Hb; intros y Hy Hs;
     destruct (Nat.eqb_spec min 0) as [Hm|Hm];
     [destruct (Nat.eqb_spec (pos y) (pos x)) as [Hp|Hp]; [done|]|];
     cbn [andb];
     (apply IH;
      pose proof (ahead_length _ _ Hy) as Hl;
      unfold span in Hs; cbn [clearCaptures pos rest] in Hs, Hl; lia)).
Qed.

Lemma matcher_repeat_fuel ic r min max x k fuel :
  (min + String.length (rest x) < fuel)%nat ->
  repeatMatcher (matcher ic r) (groupsOf r) fuel min max x k
  = matcher ic (RRepeat min max r) x k.
Proof.
  intros H. cbn [matcher].
  apply repeatMatcher_fuel; [apply matcher_local|done|lia].
Qed.

(** ** One turn *)

Lemma required_has_config f : In f REQUIRED_FIELDS -> is_Some (configOf f).
Proof.
  intros H. simpl in H.
  repeat (destruct H as [<-|H]; [eexists; reflexivity|]). done.
Qed.

Lemma getMissingFields_required c f :
  In f (getMissingFields c) -> In f REQUIRED_FIELDS.
Proof. unfold getMissingFields. rewrite filter_In. tauto. Qed.

(** While a field is missing there is a next field to ask for. *)
Lemma getNextField_incomplete c :
  isComplete c = false -> is_Some (getNextField c).
Proof.
  unfold isComplete, getNextField. intros H.
  destruct (getMissingFields c) as [|f l] eqn:E; [done|].
  destruct (required_has_config f) as [cfg ->]; [|eauto].
  apply (getMissingFields_required c). rewrite E. by left.
Qed.

(** The loop over the required fields keeps every key of the map. *)
Lemma collect_fold_keys h ex l : forall acc key,
  is_Some (updatedFields acc !! key) ->
  is_Some (updatedFields (foldl (collectField h ex) acc l) !! key).
Proof.
  induction l as [|f l IH]; intros acc key Hk; [done|].
  cbn [foldl]. apply IH. unfold collectField.
  destruct (truthy (ex !! f)); [|done].
  destruct (validateField h f (ex !! f)); [|done].
  cbn [updatedFields]. destruct (decide (f = key)) as [->|Hne].
  - rewrite lookup_insert_eq. eauto.
  - by rewrite lookup_insert_ne.
Qed.

(** A value in the map after the loop was there before, or it is an
    extracted value of a required field that its validator accepted. *)
Lemma collect_fold_origin h ex l : forall acc key v,
  updatedFields (foldl (collectField h ex) acc l) !! key = Some v ->
  updatedFields acc !! key = Some v
  \/ (In key l /\ ex !! key = Some v /\ validateField h key (Some v) = Valid).
Proof.
  induction l as [|f l IH]; intros acc key v Hk; [by left|].
  cbn [foldl] in Hk. apply IH in Hk as [Hk|(Hin & Hex & Hv)];
    [|right; split; [by right|done]].
  unfold collectField in Hk.
  destruct (truthy (ex !! f)) eqn:Ht; [|by left].
  destruct (validateField h f (ex !! f)) eqn:Hv; [|by left].
  cbn [updatedFields] in Hk. destruct (decide (f = key)) as [->|Hne].
  - rewrite lookup_insert_eq in Hk. injection Hk as <-.
    destruct (ex !! key) as [w|] eqn:Hex; [|done].
    right. split; [by left|done].
  - rewrite lookup_insert_ne in Hk by done. by left.
Qed.

Lemma processMessage_shape h ai message s r :
  processMessage h ai message s = Some r -> TurnShape h ai message s r.
Proof.
  unfold processMessage.
  destruct (wantsToCancel _) eqn:Hc;
    [intros [= <-]; by apply shape_cancelled|].
  destruct (wantsToRestart _) eqn:Hr;
    [intros [= <-]; by apply shape_restarted|].
  destruct (isConfirming s && _) eqn:Hcf.
  { apply andb_true_iff in Hcf as [Hcf _].
    destruct (bool_decide _); intros [= <-];
      [by apply shape_confirmed | by apply shape_edit]. }
  cbv zeta. destruct (isComplete _) eqn:Hcomp.
  { destruct (generateConfirmationMessage _ _) as [text|]; [|done].
    intros [= <-]. by eapply shape_confirming. }
  destruct (invalidField _) as [field|].
  { intros [= <-].
    eapply shape_collecting; cycle 3; [reflexivity|exact Hcomp|done|done]. }
  destruct (getNextField_incomplete _ Hcomp) as [[nf np] ->].
  intros [= <-].
  eapply shape_collecting; cycle 3; [reflexivity|exact Hcomp|done|done].
Qed.

(** A turn returns unless a stored time cannot be displayed. *)
Lemma processMessage_returns h ai message s :
  (forall t, collectedFields s !! "preferredTime" = Some t ->
             is_Some (formatTimeForDisplay t)) ->
  is_Some (processMessage h ai message s).
Proof.
  intros Ht. unfold processMessage.
  repeat match goal with
         | |- is_Some (if ?b then _ else _) => destruct b eqn:?
         | |- is_Some (Some _) => eauto
         end.
  - cbv zeta.
    set (c := collectAll h (fields (analyzeMessage h ai message)) (collectedFields s)).
    unfold generateConfirmationMessage.
    destruct (updatedFields c !! "preferredTime") as [[|a t]|] eqn:E; [eauto| |eauto].
    assert (is_Some (formatTimeForDisplay (String a t))) as [d ->]; [|simpl; eauto].
    apply collect_fold_origin in E as [E|(_ & _ & E)];
      [by apply Ht | by eapply valid_time_displays].
  - cbv zeta. destruct (invalidField _); [eauto|].
    match goal with H : isComplete _ = false |- _ =>
      destruct (getNextField_incomplete _ H) as [[nf np] ->] end. eauto.
Qed.

(** C10. When a turn returns an action other than [restarted], every key of
    the collected fields before the turn is still a key after it; a restart
    leaves the empty map. *)
Theorem collected_keys_persist (h : Host) (ai : option Extracted)
    (message : string) (s : BookingState) (r : Result) :
  processMessage h ai message s = Some r ->
  (action r <> Restarted ->
   forall key, is_Some (collectedFields s !! key) ->
               is_Some (collectedFields (state r) !! key))
  /\ (action r = Restarted -> collectedFields (state r) = ∅).
Proof.
  intros H. apply processMessage_shape in H.
  destruct H as [? ->|? ? ->|? ->|? ->|text c ? ->|st text c ? Hst ? ->];
    cbn [action state]; (split; [intros Hne key Hk|intros Heq]);
    try done; cbn [withConfirming withFields collectedFields];
    rewrite ?Hst; by apply collect_fold_keys.
Qed.

(** C4. The response of a turn is null exactly when the action is
    [confirmed]; and the turn does return whenever the stored time, if any,
    can be displayed. *)
Theorem response_null_iff_confirmed (h : Host) (ai : option Extracted)
    (message : string) (s : BookingState) :
  ((forall t, collectedFields s !! "preferredTime" = Some t ->
              is_Some (formatTimeForDisplay t)) ->
   exists r, processMessage h ai message s = Some r)
  /\ (forall r, processMessage h ai message s = Some r ->
                (response r = None <-> action r = Confirmed)).
Proof.
  split; [apply processMessage_returns|].
  intros r H. apply processMessage_shape in H.
  destruct H as [? ->|? ? ->|? ->|? ->|text c ? ->|st text c ? Hst ? ->];
    cbn [action response]; split; done.
Qed.

(** A witness of C10: the phone number given while the owner and the pet
    are known. *)
Lemma collected_keys_persist_witness :
  exists r,
    processMessage Samples.strictHost None "555-123-4567" Samples.awaitingPhone
    = Some r
    /\ (action r <> Restarted ->
        forall key, is_Some (collectedFields Samples.awaitingPhone !! key) ->
                    is_Some (collectedFields (state r) !! key))
    /\ (action r = Restarted -> collectedFields (state r) = ∅).
Proof.
  destruct (processMessage Samples.strictHost None "555-123-4567"
              Samples.awaitingPhone) as [r|] eqn:E.
  - exists r. split; [reflexivity|].
    exact (collected_keys_persist Samples.strictHost None "555-123-4567"
             Samples.awaitingPhone r E).
  - vm_compute in E. discriminate.
Defined.

(** A witness of C4: the yes that confirms a complete booking. *)
Lemma response_null_iff_confirmed_witness :
  exists r,
    processMessage Samples.strictHost None "yes" Samples.confirmingState = Some r
    /\ (response r = None <-> action r = Confirmed).
Proof.
  destruct (response_null_iff_confirmed Samples.strictHost None "yes"
              Samples.confirmingState) as [Hret Hiff].
  destruct Hret as [r Hr].
  - intros t Ht. vm_compute in Ht. injection Ht as <-. vm_compute. eauto.
  - exists r. split; [exact Hr|]. by apply Hiff.
Defined.

(** ** Literal patterns and the search *)

Lemma charMatches_refl ic c : charMatches ic c c = true.
Proof. unfold charMatches. destruct ic; apply Ascii.eqb_refl. Qed.

(** A literal matches the text it spells. *)
Lemma matcher_lit ic w post k : forall p b caps,
  matcher ic (lit w)
    {| pos := p; before := b; rest := w +:+ post; captures := caps |} k
  = k {| pos := p + String.length w; before := lastChar b w; rest := post;
         captures := caps |}.
Proof.
  induction w as [|c w IH]; intros p b caps.
  - cbn [lit matcher String.length lastChar]. by rewrite Nat.add_0_r, append_nil.
  - rewrite append_cons. cbn [lit matcher rest]. rewrite charMatches_refl.
    unfold step. cbn [pos captures]. rewrite IH.
    cbn [String.length lastChar]. by rewrite Nat.add_succ_r.
Qed.

Lemma matcher_alt_l ic r1 r2 x k :
  is_Some (matcher ic r1 x k) -> is_Some (matcher ic (RAlt r1 r2) x k).
Proof. intros [z Hz]. cbn [matcher]. rewrite Hz. eauto. Qed.

Lemma matcher_alt_r ic r1 r2 x k :
  is_Some (matcher ic r2 x k) -> is_Some (matcher ic (RAlt r1 r2) x k).
Proof. intros H. cbn [matcher]. destruct (matcher ic r1 x k); eauto. Qed.

(** The search finds a match when the pattern matches at some position. *)
Lemma search_found ic r post : forall pre prev idx,
  is_Some (matcher ic r
             {| pos := idx + String.length pre; before := lastChar prev pre;
                rest := post; captures := [] |} Some) ->
  is_Some (search ic r prev (pre +:+ post) idx).
Proof.
  induction pre as [|c pre IH]; intros prev idx H.
  - rewrite append_nil. cbn [String.length lastChar] in H.
    rewrite Nat.add_0_r in H. destruct H as [z Hz].
    destruct post; cbn [search]; rewrite Hz; eauto.
  - rewrite append_cons. cbn [search].
    match goal with
    | |- is_Some (match ?m with Some _ => _ | None => _ end) => destruct m
    end; [eauto|].
    apply IH. cbn [String.length lastChar] in H.
    by rewrite Nat.add_succ_r in H.
Qed.

(** ** Cancelling *)

Lemma matcher_seq ic r1 r2 x k :
  matcher ic (RSeq r1 r2) x k = matcher ic r1 x (fun y => matcher ic r2 y k).
Proof. reflexivity. Qed.

Lemma matcher_group ic n r x k :
  matcher ic (RGroup n r) x k = matcher ic r x (fun y => k (setCapture n x y)).
Proof. reflexivity. Qed.

Lemma matcher_boundary ic x k :
  matcher ic RWordBoundary x k =
  if xorb (isWordAt (before x)) (isWordAt (nextChar x)) then k x else None.
Proof. reflexivity. Qed.

(** A keyword between two word boundaries, as the only thing left to match:
    it is found where it stands between characters that are not word
    characters. *)
Lemma bounded_keyword_matches (alts : Regex) (kw post : string)
    (p : nat) (b : option ascii) (c : ascii) :
  isWordAt b = false ->
  firstChar kw = Some c -> isWordChar c = true ->
  isWordAt (lastChar b kw) = true ->
  isWordAt (firstChar post) = false ->
  (forall x k, rest x = kw +:+ post ->
     is_Some (matcher true (lit kw) x k) -> is_Some (matcher true alts x k)) ->
  is_Some (matcher true (seq [RWordBoundary; RGroup 1 alts; RWordBoundary])
             {| pos := p; before := b; rest := kw +:+ post; captures := [] |}
             Some).
Proof.
  intros Hb Hc Hw Hl Hpost Halt. cbn [seq].
  rewrite matcher_seq, matcher_boundary. cbn [before]. unfold nextChar at 1.
  cbn [rest]. destruct kw as [|c' kw]; [done|]. injection Hc as ->.
  rewrite append_cons. rewrite Hb. cbn [isWordAt]. rewrite Hw. cbn [xorb].
  rewrite <- append_cons.
  rewrite matcher_seq, matcher_group. apply Halt; [done|].
  rewrite matcher_lit. rewrite matcher_seq, matcher_boundary.
  unfold setCapture, nextChar. cbn [before rest]. rewrite Hl.
  replace (isWordAt match post with
                    | EmptyString => None
                    | String c0 _ => Some c0
                    end) with (isWordAt (firstChar post)) by by destruct post.
  rewrite Hpost. cbn [xorb matcher]. eauto.
Qed.

Lemma cancel_keyword_found kw s :
  In kw cancelKeywords -> occursAsWord kw s -> test cancelRe s = true.
Proof.
  intros Hkw (pre & post & -> & Hpre & Hpost).
  unfold test. apply bool_decide_eq_true. unfold exec.
  apply search_found. unfold cancelRe. cbn [icase body].
  simpl in Hkw.
  destruct Hkw as [<-|[<-|[<-|[<-|[<-|[<-|[]]]]]]];
    (eapply bounded_keyword_matches; [exact Hpre|reflexivity|reflexivity| |exact Hpost|];
     [by destruct (lastChar None pre)|]; intros x k _ H; cbn [alt]).
  - by apply matcher_alt_l.
  - by apply matcher_alt_r, matcher_alt_l.
  - by do 2 apply matcher_alt_r; apply matcher_alt_l.
  - by do 3 apply matcher_alt_r; apply matcher_alt_l.
  - by do 4 apply matcher_alt_r; apply matcher_alt_l.
  - by do 5 apply matcher_alt_r.
Qed.

(** C3. An utterance in which a cancel keyword occurs as a whole word or
    phrase (whatever the case of its letters) is answered with the action
    [cancelled] and an inactive state, whatever the state, the answer of the
    model, and the other signals of the utterance; the collected fields are
    left as they were. *)
Theorem cancel_keyword_cancels (h : Host) (ai : option Extracted)
    (message : string) (s : BookingState) (kw : string) :
  In kw cancelKeywords ->
  occursAsWord kw (toLowerCase message) ->
  exists r,
    processMessage h ai message s = Some r
    /\ action r = Cancelled
    /\ isActive (state r) = false
    /\ collectedFields (state r) = collectedFields s
    /\ response r = Some cancelText.
Proof.
  intros Hkw Hocc.
  assert (wantsToCancel (analyzeMessage h ai message) = true) as Hc.
  { pose proof (cancel_keyword_found kw _ Hkw Hocc) as Ht.
    unfold analyzeMessage, keywordCancel. destruct ai as [a|]; cbn [wantsToCancel].
    - rewrite Ht. apply orb_true_r.
    - exact Ht. }
  unfold processMessage. rewrite Hc. eexists. repeat split.
Qed.

(** A witness of C3: a cancel keyword next to a restart keyword and a yes,
    in a state that awaits the confirmation. *)
Lemma cancel_keyword_cancels_witness :
  exists r,
    processMessage Samples.strictHost None "Yes, CANCEL it and restart"
      Samples.confirmingState = Some r
    /\ action r = Cancelled
    /\ isActive (state r) = false
    /\ collectedFields (state r) = collectedFields Samples.confirmingState
    /\ response r = Some cancelText.
Proof.
  apply (cancel_keyword_cancels Samples.strictHost None
           "Yes, CANCEL it and restart" Samples.confirmingState "cancel").
  - simpl. auto.
  - exists "yes, ", " it and restart". repeat split.
Defined.

(** ** The stages of the date parser *)

Lemma parseNaturalDate_next h text m :
  text <> EmptyString ->
  noDatePhrase (trim (toLowerCase text)) ->
  exec nextDayRe (trim (toLowerCase text)) = Some m ->
  parseNaturalDate h text
  = Some (formatDate
            (JsDate.setDate (todayOf h)
               (JsDate.getDate (todayOf h)
                + (daysUntilWeekday (todayOf h) (group m 1) + 7))%Z)).
Proof.
  intros Hne (H1 & H2 & H3 & H4) Hm. unfold parseNaturalDate.
  destruct text; [done|]. cbn [truthy negb]. cbv zeta.
  by rewrite H1, H2, H3, H4, Hm.
Qed.

Lemma parseNaturalDate_this h text m :
  text <> EmptyString ->
  noDatePhrase (trim (toLowerCase text)) ->
  exec nextDayRe (trim (toLowerCase text)) = None ->
  exec thisDayRe (trim (toLowerCase text)) = Some m ->
  parseNaturalDate h text
  = Some (formatDate
            (JsDate.setDate (todayOf h)
               (JsDate.getDate (todayOf h)
                + daysUntilWeekday (todayOf h) (group m 1))%Z)).
Proof.
  intros Hne (H1 & H2 & H3 & H4) Hn Hm. unfold parseNaturalDate.
  destruct text; [done|]. cbn [truthy negb]. cbv zeta.
  by rewrite H1, H2, H3, H4, Hn, Hm.
Qed.

Lemma parseNaturalDate_month h text m month day :
  text <> EmptyString ->
  noDatePhrase (trim (toLowerCase text)) ->
  exec nextDayRe (trim (toLowerCase text)) = None ->
  exec thisDayRe (trim (toLowerCase text)) = None ->
  exec monthDayRe (trim (toLowerCase text)) = Some m ->
  lookupZ (toLowerCase (default EmptyString (group m 2))) monthNames = Some month ->
  parseInt (orElse (group m 1) (group m 3)) = Some day ->
  parseNaturalDate h text
  = Some (formatDate
            (let date := JsDate.newDate (JsDate.getFullYear (todayOf h)) month day in
             if (date <? todayOf h)%Z
             then JsDate.setFullYear date (JsDate.getFullYear (todayOf h) + 1)
             else date)).
Proof.
  intros Hne (H1 & H2 & H3 & H4) Hn Ht Hm Hmonth Hday. unfold parseNaturalDate.
  destruct text; [done|]. cbn [truthy negb]. cbv zeta.
  by rewrite H1, H2, H3, H4, Hn, Ht, Hm, Hmonth, Hday.
Qed.

Lemma parseNaturalDate_generic h text :
  text <> EmptyString ->
  noDatePhrase (trim (toLowerCase text)) ->
  exec nextDayRe (trim (toLowerCase text)) = None ->
  exec thisDayRe (trim (toLowerCase text)) = None ->
  exec monthDayRe (trim (toLowerCase text)) = None ->
  parseNaturalDate h text = genericDate h text.
Proof.
  intros Hne (H1 & H2 & H3 & H4) Hn Ht Hm. unfold parseNaturalDate.
  destruct text; [done|]. cbn [truthy negb]. cbv zeta.
  by rewrite H1, H2, H3, H4, Hn, Ht, Hm.
Qed.

Lemma formatDate_truthy d : truthy (Some (formatDate d)) = true.
Proof.
  unfold formatDate. cbv zeta.
  destruct (numToString (JsDate.getFullYear d)); reflexivity.
Qed.

(** ** The scenario "I'm John and my dog is Buddy" *)

Lemma john_patterns :
  foldl (extractField johnAndBuddy) ∅ FIELD_CONFIG
  = {[ "petOwnerName" := "John and" ]}.
Proof. vm_compute. reflexivity. Qed.

Lemma john_date h :
  parseNaturalDate h johnAndBuddy
  = match dateParse h johnAndBuddy with
    | Some d => Some (formatDate d)
    | None => None
    end.
Proof.
  rewrite parseNaturalDate_generic;
    [|done|repeat split; vm_compute; reflexivity|vm_compute; reflexivity..].
  unfold genericDate. destruct (dateParse h johnAndBuddy); [done|].
  vm_compute. reflexivity.
Qed.

(** Whatever the host, the patterns give the owner name "John and" and no
    pet name. *)
Lemma john_extraction h :
  extractWithPatterns h johnAndBuddy !! "petOwnerName" = Some "John and"
  /\ extractWithPatterns h johnAndBuddy !! "petName" = None.
Proof.
  unfold extractWithPatterns. rewrite john_patterns, john_date.
  replace (parseNaturalTime johnAndBuddy) with (@None string)
    by (vm_compute; reflexivity).
  destruct (dateParse h johnAndBuddy) as [d|]; [rewrite formatDate_truthy|];
    split; by simplify_map_eq.
Qed.

(** C2 (amended). Against an empty state, and on a host whose date parsing
    makes nothing of the utterance, the patterns extract exactly the owner
    name "John and" (the name pattern takes up to two words) and no pet
    name (no pet pattern covers "my dog is"); the turn stores that name,
    acknowledges it, and asks for the pet's name, the first missing field. *)
Theorem john_and_buddy_turn (h : Host) :
  dateParse h johnAndBuddy = None ->
  extractWithPatterns h johnAndBuddy = {[ "petOwnerName" := "John and" ]}
  /\ exists r,
       processMessage h None johnAndBuddy (createBookingState ∅) = Some r
       /\ response r
          = Some ("Got it, thanks!" +:+ nl +:+ nl +:+ "What's your pet's name?")
       /\ action r = Collecting
       /\ collectedFields (state r) = {[ "petOwnerName" := "John and" ]}
       /\ currentField (state r) = Some "petName".
Proof.
  intros Hd.
  assert (extractWithPatterns h johnAndBuddy = {[ "petOwnerName" := "John and" ]})
    as Hex.
  { unfold extractWithPatterns. rewrite john_patterns, john_date, Hd.
    vm_compute. reflexivity. }
  split; [exact Hex|].
  unfold processMessage, analyzeMessage. rewrite Hex.
  eexists. split; [vm_compute; reflexivity|]. repeat split.
Qed.

Lemma john_and_buddy_turn_witness :
  extractWithPatterns Samples.strictHost johnAndBuddy
  = {[ "petOwnerName" := "John and" ]}
  /\ exists r,
       processMessage Samples.strictHost None johnAndBuddy (createBookingState ∅)
       = Some r
       /\ response r
          = Some ("Got it, thanks!" +:+ nl +:+ nl +:+ "What's your pet's name?")
       /\ action r = Collecting
       /\ collectedFields (state r) = {[ "petOwnerName" := "John and" ]}
       /\ currentField (state r) = Some "petName".
Proof.
  apply (john_and_buddy_turn Samples.strictHost). vm_compute. reflexivity.
Defined.

(** C2 (counterexample). The extraction is not the pair John and Buddy, and
    the response does not ask for the phone number. *)
Lemma john_and_buddy_not_as_claimed :
  ~ (extractWithPatterns Samples.strictHost johnAndBuddy
     = {[ "petOwnerName" := "John"; "petName" := "Buddy" ]}
     /\ exists r,
          processMessage Samples.strictHost None johnAndBuddy
            (createBookingState ∅) = Some r
          /\ exists ack, response r = Some (ack +:+ generatePrompt "phoneNumber" false)).
Proof.
  intros [H _].
  assert (extractWithPatterns Samples.strictHost johnAndBuddy !! "petName"
          = Some "Buddy") as Hp by (rewrite H; vm_compute; reflexivity).
  destruct (john_extraction Samples.strictHost) as [_ Hn]. congruence.
Qed.

(** ** Stored values and their validators *)

(** A turn only adds values that their validator accepted. *)
Lemma processMessage_keeps_valid h ai message s r :
  storedValuesValid (collectedFields s) ->
  processMessage h ai message s = Some r ->
  storedValuesValid (collectedFields (state r)).
Proof.
  intros Hs H. apply processMessage_shape in H.
  assert (storedValuesValid
            (updatedFields (collectAll h (fields (analyzeMessage h ai message))
                              (collectedFields s)))) as Hc.
  { intros f v Hf Hv. apply collect_fold_origin in Hv as [Hv|(_ & _ & Hv)].
    - by apply Hs.
    - by exists h. }
  destruct H as [? ->|? ? ->|? ->|? ->|text c ? ->|st text c ? Hst ? ->];
    cbn [state withActive withComplete withConfirming withFields collectedFields
           createBookingState]; try done.
  by rewrite Hst.
Qed.

(** From a state whose stored values are valid, every sequence of turns
    leads to such a state. *)
Lemma runTurns_keeps_valid turns : forall s s',
  storedValuesValid (collectedFields s) ->
  Controller.runTurns turns s = Some s' ->
  storedValuesValid (collectedFields s').
Proof.
  induction turns as [|t turns IH]; intros s s' Hs H; simpl in H.
  - by injection H as <-.
  - destruct (processMessage _ _ _ s) as [r|] eqn:E; [|done].
    eapply IH; [|exact H]. by eapply processMessage_keeps_valid.
Qed.

Lemma fiveMinutes_patterns :
  foldl (extractField fiveMinutes) ∅ FIELD_CONFIG
  = {[ "petOwnerName" := "5 minutes" ]}.
Proof. vm_compute. reflexivity. Qed.

Lemma fiveMinutes_extraction h :
  extractWithPatterns h fiveMinutes !! "petOwnerName" = Some "5 minutes".
Proof.
  unfold extractWithPatterns. rewrite fiveMinutes_patterns.
  replace (parseNaturalTime fiveMinutes) with (@None string)
    by (vm_compute; reflexivity).
  destruct (parseNaturalDate h fiveMinutes) as [d|];
    [destruct (truthy (Some d))|]; by simplify_map_eq.
Qed.

Lemma fiveMinutes_not_a_name : ~ passedValidator "petOwnerName" "5 minutes".
Proof. intros [h H]. vm_compute in H. discriminate. Qed.

(** C1 (the code at the failing input). The first turn of a booking, for the
    message "I need an appointment, I'm 5 minutes away", stores the owner
    name "5 minutes" in [collectedFields] although the owner-name validator
    refuses it: the state [createBookingState] returns holds a value that
    did not pass its validator.  Later turns ([processMessage]) validate
    before they store, see [processMessage_keeps_valid]. *)
Theorem first_turn_stores_unvalidated (h : Host) :
  exists s,
    Controller.startBooking h None false Samples.noConversation fiveMinutes
    = Some s
    /\ collectedFields s !! "petOwnerName" = Some "5 minutes"
    /\ validateField h "petOwnerName" (Some "5 minutes")
       = Invalid "Name should only contain letters"
    /\ ~ storedValuesValid (collectedFields s).
Proof.
  unfold Controller.startBooking.
  replace (Controller.detectAppointmentIntent fiveMinutes) with true
    by (vm_compute; reflexivity).
  cbn [orb]. eexists. split; [reflexivity|].
  assert (forall st : BookingState,
            collectedFields (if isComplete (collectedFields st)
                             then withConfirming true st else st)
            = collectedFields st) as Hif by (intros st; by destruct (isComplete _)).
  match goal with
  | |- collectedFields (if isComplete ?m then withConfirming true ?st else ?st) !! _ = _ /\ _ =>
      change (collectedFields (if isComplete m then withConfirming true st else st))
        with (collectedFields (if isComplete (collectedFields st)
                               then withConfirming true st else st));
      rewrite (Hif st)
  end.
  cbn [createBookingState collectedFields analyzeMessage fields].
  assert ((omap Controller.keepTruthy (extractWithPatterns h fiveMinutes)
           ∪ Controller.setIfTruthy "petName" None
               (Controller.setIfTruthy "petOwnerName" None ∅))
          !! "petOwnerName" = Some "5 minutes") as Hl.
  { apply lookup_union_Some_l. rewrite lookup_omap, fiveMinutes_extraction.
    reflexivity. }
  split; [exact Hl|]. split; [vm_compute; reflexivity|].
  intros Hv. apply fiveMinutes_not_a_name.
  apply (Hv "petOwnerName" "5 minutes"); [simpl; auto|exact Hl].
Qed.

(** ** The utterance "123" *)

Lemma bare123_date h :
  parseNaturalDate h "123"
  = match dateParse h "123" with
    | Some d => Some (formatDate d)
    | None => None
    end.
Proof.
  rewrite parseNaturalDate_generic;
    [|done|repeat split; vm_compute; reflexivity|vm_compute; reflexivity..].
  unfold genericDate. destruct (dateParse h "123"); [done|].
  vm_compute. reflexivity.
Qed.

(** No phone pattern matches fewer than ten digits: the only thing "123" can
    yield is a date, when the host reads it as one. *)
Lemma bare123_extraction h :
  extractWithPatterns h "123"
  = match dateParse h "123" with
    | Some d => {[ "preferredDate" := formatDate d ]}
    | None => ∅
    end.
Proof.
  unfold extractWithPatterns. rewrite bare123_date.
  replace (foldl (extractField "123") ∅ FIELD_CONFIG)
    with (∅ : gmap string string) by (vm_compute; reflexivity).
  replace (parseNaturalTime "123") with (@None string) by (vm_compute; reflexivity).
  destruct (dateParse h "123") as [d|]; [|done].
  by rewrite formatDate_truthy.
Qed.

Lemma bare123_analysis h :
  analyzeMessage h None "123"
  = {| fields := extractWithPatterns h "123"; wantsToCancel := false;
       wantsToRestart := false; confirmation := None |}.
Proof.
  unfold analyzeMessage. f_equal; vm_compute; reflexivity.
Qed.

Lemma isComplete_without_phone (m : gmap string string) :
  m !! "phoneNumber" = None -> isComplete m = false.
Proof.
  intros H. unfold isComplete.
  assert (In "phoneNumber" (getMissingFields m)) as Hin.
  { unfold getMissingFields. apply filter_In. split; [simpl; auto|].
    unfold isMissing. by rewrite H. }
  by destruct (getMissingFields m).
Qed.

Lemma getNextField_prompt m nf np :
  getNextField m = Some (nf, np) -> In np prompts.
Proof.
  unfold getNextField. destruct (getMissingFields m) as [|f l] eqn:E; [done|].
  assert (In f REQUIRED_FIELDS) as Hf
    by (apply (getMissingFields_required m); rewrite E; by left).
  simpl in Hf.
  repeat (destruct Hf as [<-|Hf]; [intros [= <- <-]; simpl; auto 10|]). done.
Qed.

Lemma collectAll_nothing h (m : gmap string string) :
  collectAll h ∅ m
  = {| updatedFields := m; hasNewData := false; invalidField := None;
       validationError := None |}.
Proof. reflexivity. Qed.

Lemma collectAll_date_only h (m : gmap string string) (d : string) :
  truthy (Some d) = true ->
  collectAll h {[ "preferredDate" := d ]} m
  = match validateField h "preferredDate" (Some d) with
    | Valid =>
        {| updatedFields := <["preferredDate" := d]> m; hasNewData := true;
           invalidField := None; validationError := None |}
    | Invalid error =>
        {| updatedFields := m; hasNewData := false;
           invalidField := Some "preferredDate"; validationError := Some error |}
    end.
Proof.
  intros Ht. unfold collectAll, REQUIRED_FIELDS. cbn [foldl].
  unfold collectField at 5. rewrite lookup_singleton_ne by done. cbn [truthy].
  unfold collectField at 4. rewrite lookup_singleton_ne by done. cbn [truthy].
  unfold collectField at 3. rewrite lookup_singleton_ne by done. cbn [truthy].
  unfold collectField at 2. rewrite lookup_singleton_eq, Ht.
  unfold collectField. rewrite lookup_singleton_ne by done. cbn [truthy].
  destruct (validateField h "preferredDate" (Some d)); reflexivity.
Qed.

Lemma acknowledged_date_only (d : string) :
  truthy (Some d) = true ->
  acknowledgedFields {[ "preferredDate" := d ]} = ["preferredDate"].
Proof.
  intros Ht. unfold acknowledgedFields, REQUIRED_FIELDS. cbn [List.filter].
  rewrite lookup_singleton_eq, Ht.
  rewrite !lookup_singleton_ne by done. reflexivity.
Qed.

(** C6 (amended). When "123" is processed, without the generative model,
    in a state where the phone number is absent, no phone number is
    extracted from it (every phone pattern needs at least ten digits), so
    the phone validator is not consulted: the turn returns the action
    [collecting], the phone number stays absent, and the response is not
    the retry prompt of the phone number; on a host whose date parsing
    makes nothing of "123" the collected fields are unchanged and the
    response is the plain prompt of the first missing field. *)
Theorem bare_123_is_not_a_phone (h : Host) (s : BookingState) :
  collectedFields s !! "phoneNumber" = None ->
  extractWithPatterns h "123" !! "phoneNumber" = None
  /\ exists r,
       processMessage h None "123" s = Some r
       /\ action r = Collecting
       /\ collectedFields (state r) !! "phoneNumber" = None
       /\ response r <> Some (generatePrompt "phoneNumber" true)
       /\ (dateParse h "123" = None ->
           collectedFields (state r) = collectedFields s
           /\ response r = snd <$> getNextField (collectedFields s)).
Proof.
  intros Hp. split.
  { rewrite bare123_extraction. destruct (dateParse h "123"); by simplify_map_eq. }
  unfold processMessage. rewrite bare123_analysis.
  cbn [wantsToCancel wantsToRestart confirmation fields truthy].
  rewrite andb_false_r. cbv zeta. rewrite bare123_extraction.
  destruct (dateParse h "123") as [d|] eqn:Hd.
  - rewrite collectAll_date_only by apply formatDate_truthy.
    rewrite acknowledged_date_only by apply formatDate_truthy.
    destruct (validateField h "preferredDate" (Some (formatDate d)));
      cbn [updatedFields invalidField hasNewData validationError].
    + rewrite isComplete_without_phone by by simplify_map_eq.
      destruct (getNextField_incomplete (<["preferredDate" := formatDate d]>
                                           (collectedFields s)))
        as [[nf np] Hn]; [apply isComplete_without_phone; by simplify_map_eq|].
      rewrite Hn. eexists. split; [reflexivity|]. cbn [action state response].
      split_and!; [done|by simplify_map_eq| |done].
      replace (getAcknowledgment ["preferredDate"]) with "That date works!"
        by reflexivity.
      rewrite !append_cons. intros [= ?].
    + rewrite isComplete_without_phone by done.
      eexists. split; [reflexivity|]. cbn [action state response].
      split_and!; [done|exact Hp| |done].
      vm_compute. intros [= ?].
  - rewrite collectAll_nothing.
    cbn [updatedFields invalidField hasNewData validationError].
    rewrite isComplete_without_phone by done.
    destruct (getNextField_incomplete (collectedFields s)) as [[nf np] Hn];
      [by apply isComplete_without_phone|].
    rewrite Hn. eexists. split; [reflexivity|]. cbn [action state response].
    split_and!; [done|exact Hp| |intros _; split; reflexivity].
    apply getNextField_prompt in Hn. simpl in Hn.
    repeat (destruct Hn as [<-|Hn]; [vm_compute; intros [= ?]|]). done.
Qed.

(** A witness of C6: the owner and the pet are known, the phone number is
    asked for, and the host reads "123" as a year. *)
Lemma bare_123_is_not_a_phone_witness :
  extractWithPatterns Samples.lenientHost "123" !! "phoneNumber" = None
  /\ exists r,
       processMessage Samples.lenientHost None "123" Samples.awaitingPhone = Some r
       /\ action r = Collecting
       /\ collectedFields (state r) !! "phoneNumber" = None
       /\ response r <> Some (generatePrompt "phoneNumber" true)
       /\ (dateParse Samples.lenientHost "123" = None ->
           collectedFields (state r) = collectedFields Samples.awaitingPhone
           /\ response r
              = snd <$> getNextField (collectedFields Samples.awaitingPhone)).
Proof.
  apply (bare_123_is_not_a_phone Samples.lenientHost Samples.awaitingPhone).
  vm_compute. reflexivity.
Defined.

(** C6 (counterexample). With the owner and the pet known and the phone
    number awaited, "123" is answered with the retry prompt of the date on a
    host that reads it as a year, and with the plain phone prompt on a host
    that does not; in neither case with the retry prompt of the phone. *)
Lemma bare_123_no_phone_retry :
  (exists r,
     processMessage Samples.lenientHost None "123" Samples.awaitingPhone = Some r
     /\ response r = Some (generatePrompt "preferredDate" true)
     /\ response r <> Some (generatePrompt "phoneNumber" true))
  /\ (exists r,
        processMessage Samples.strictHost None "123" Samples.awaitingPhone = Some r
        /\ response r = Some (generatePrompt "phoneNumber" false)
        /\ response r <> Some (generatePrompt "phoneNumber" true)).
Proof.
  split; eexists; (split; [vm_compute; reflexivity|]);
    (split; [reflexivity|]); vm_compute; intros [= ?].
Qed.

(** ** The calendar *)

Section Calendar.

Import JsDate.
Local Open Scope Z_scope.

Lemma DayFromYear_step y : DayFromYear (y + 1) = DayFromYear y + DaysInYear y.
Proof.
  unfold DayFromYear, DaysInYear, isLeap.
  destruct (y mod 4 =? 0) eqn:E4; destruct (y mod 100 =? 0) eqn:E100;
    destruct (y mod 400 =? 0) eqn:E400; simpl;
    rewrite ?Z.eqb_eq, ?Z.eqb_neq in *; Z.div_mod_to_equations; lia.
Qed.

Lemma DaysInYear_cases y : DaysInYear y = 365 \/ DaysInYear y = 366.
Proof. unfold DaysInYear. destruct (isLeap y); auto. Qed.

Lemma DayFromYear_lt y1 y2 : y1 < y2 -> DayFromYear y1 < DayFromYear y2.
Proof. unfold DayFromYear. intros H. Z.div_mod_to_equations. lia. Qed.

(** [YearFromDay d] is the year that contains day [d]. *)
Lemma YearFromDay_spec d :
  DayFromYear (YearFromDay d) <= d < DayFromYear (YearFromDay d + 1).
Proof.
  unfold YearFromDay. set (y := 1970 + 400 * d / 146097).
  assert (DayFromYear (y - 1) <= d) as H1
    by (unfold DayFromYear, y; Z.div_mod_to_equations; lia).
  assert (d < DayFromYear (y + 2)) as H2
    by (unfold DayFromYear, y; Z.div_mod_to_equations; lia).
  destruct (d <? DayFromYear y) eqn:E1.
  - apply Z.ltb_lt in E1. replace (y - 1 + 1) with y by lia. lia.
  - apply Z.ltb_ge in E1. destruct (DayFromYear (y + 1) <=? d) eqn:E2.
    + apply Z.leb_le in E2. replace (y + 1 + 1) with (y + 2) by lia. lia.
    + apply Z.leb_gt in E2. lia.
Qed.

(** It is the largest year that starts on or before [d]. *)
Lemma YearFromDay_unique d y :
  DayFromYear y <= d < DayFromYear (y + 1) -> YearFromDay d = y.
Proof.
  intros H. pose proof (YearFromDay_spec d) as Hs.
  destruct (Z.lt_trichotomy (YearFromDay d) y) as [Hlt|[Heq|Hgt]]; [|done|].
  - assert (DayFromYear (YearFromDay d + 1) <= DayFromYear y); [|lia].
    destruct (Z.eq_dec (YearFromDay d + 1) y) as [->|]; [lia|].
    apply Z.lt_le_incl, DayFromYear_lt. lia.
  - assert (DayFromYear (y + 1) <= DayFromYear (YearFromDay d)); [|lia].
    destruct (Z.eq_dec (y + 1) (YearFromDay d)) as [->|]; [lia|].
    apply Z.lt_le_incl, DayFromYear_lt. lia.
Qed.

Lemma YearFromDay_mono d1 d2 : d1 <= d2 -> YearFromDay d1 <= YearFromDay d2.
Proof.
  intros H. pose proof (YearFromDay_spec d1). pose proof (YearFromDay_spec d2).
  destruct (Z.le_gt_cases (YearFromDay d1) (YearFromDay d2)) as [|Hgt]; [done|].
  assert (DayFromYear (YearFromDay d2 + 1) <= DayFromYear (YearFromDay d1)); [|lia].
  destruct (Z.eq_dec (YearFromDay d2 + 1) (YearFromDay d1)) as [->|]; [lia|].
  apply Z.lt_le_incl, DayFromYear_lt. lia.
Qed.

Lemma YearFromDay_epoch d : 0 <= d -> 1970 <= YearFromDay d.
Proof.
  intros H. change 1970 with (YearFromDay 0). by apply YearFromDay_mono.
Qed.

Lemma Day_MakeDate d : Day (MakeDate d 0) = d.
Proof. unfold Day, MakeDate, msPerDay. rewrite Z.add_0_r. by apply Z.div_mul. Qed.

Lemma TimeWithinDay_MakeDate d : TimeWithinDay (MakeDate d 0) = 0.
Proof.
  unfold TimeWithinDay, MakeDate, msPerDay. rewrite Z.add_0_r. by apply Z.mod_mul.
Qed.

Lemma monthOfDay_range dwy leap : 0 <= monthOfDay dwy leap <= 11.
Proof.
  unfold monthOfDay.
  repeat match goal with |- context [if ?b then _ else _] => destruct b end; lia.
Qed.

Lemma DayWithinYear_range t :
  0 <= DayWithinYear t < DaysInYear (YearFromTime t).
Proof.
  unfold DayWithinYear, YearFromTime.
  pose proof (YearFromDay_spec (Day t)) as H.
  rewrite DayFromYear_step in H. lia.
Qed.

(** Setting the day of the month to the current one plus [n] moves the date
    by [n] days. *)
Lemma MakeDay_civil t n :
  MakeDay (YearFromTime t) (MonthFromTime t) (DateFromTime t + n) = Day t + n.
Proof.
  unfold MakeDay, DateFromTime.
  pose proof (monthOfDay_range (DayWithinYear t) (InLeapYear t)) as Hm.
  fold (MonthFromTime t) in Hm.
  rewrite (Z.div_small (MonthFromTime t) 12) by lia.
  rewrite (Z.mod_small (MonthFromTime t) 12) by lia.
  rewrite Z.add_0_r. fold (InLeapYear t). unfold DayWithinYear. lia.
Qed.

Lemma setDate_add t n :
  setDate (startOfDay t) (getDate (startOfDay t) + n) = addDays t n.
Proof.
  unfold setDate, getDate, addDays. rewrite MakeDay_civil.
  unfold startOfDay at 1 2. rewrite Day_MakeDate, TimeWithinDay_MakeDate.
  unfold MakeDate, startOfDay, MakeDate. lia.
Qed.

Lemma Day_addDays t n : Day (addDays t n) = Day t + n.
Proof.
  unfold addDays, startOfDay.
  replace (MakeDate (Day t) 0 + n * msPerDay) with (MakeDate (Day t + n) 0)
    by (unfold MakeDate; lia).
  apply Day_MakeDate.
Qed.

Lemma WeekDay_addDays t n : WeekDay (addDays t n) = (WeekDay t + n) mod 7.
Proof.
  unfold WeekDay. rewrite Day_addDays.
  rewrite Zplus_mod_idemp_l. f_equal. lia.
Qed.

Lemma WeekDay_startOfDay t : WeekDay (startOfDay t) = WeekDay t.
Proof. unfold WeekDay, startOfDay. by rewrite Day_MakeDate. Qed.

(** The day of the month lies within its month. *)
Lemma civil_valid t :
  let leap := InLeapYear t in
  let m := MonthFromTime t in
  let dd := DateFromTime t in
  0 <= m <= 11 /\ 1 <= dd
  /\ monthStart m leap + dd
     <= (if m =? 11 then 365 + leap else monthStart (m + 1) leap).
Proof.
  cbv zeta. unfold DateFromTime, MonthFromTime.
  pose proof (DayWithinYear_range t) as Hr.
  assert (DaysInYear (YearFromTime t) = 365 + InLeapYear t) as Hl
    by (unfold DaysInYear, InLeapYear; by destruct (isLeap _)).
  assert (InLeapYear t = 0 \/ InLeapYear t = 1) as Hc
    by (unfold InLeapYear; destruct (isLeap _); auto).
  rewrite Hl in Hr. revert Hr Hc.
  generalize (DayWithinYear t) (InLeapYear t). intros dwy leap Hr Hc.
  unfold monthOfDay.
  repeat match goal with
         | |- context [if ?a <? ?b then _ else _] => destruct (Z.ltb_spec a b)
         end; unfold monthStart; simpl; lia.
Qed.

(** The year, month and day of the date made from a valid year, month and
    day are that year, month and day. *)
Lemma civil_of_MakeDay y m dd :
  0 <= m <= 11 -> 1 <= dd ->
  monthStart m (if isLeap y then 1 else 0) + dd
    <= (if m =? 11 then DaysInYear y
        else monthStart (m + 1) (if isLeap y then 1 else 0)) ->
  let t := MakeDate (MakeDay y m dd) 0 in
  YearFromTime t = y /\ MonthFromTime t = m /\ DateFromTime t = dd.
Proof.
  intros Hm Hd Hv t.
  assert (Day t = DayFromYear y + monthStart m (if isLeap y then 1 else 0) + dd - 1)
    as HD.
  { unfold t. rewrite Day_MakeDate. unfold MakeDay.
    rewrite (Z.div_small m 12), (Z.mod_small m 12) by lia. by rewrite Z.add_0_r. }
  assert (monthStart m (if isLeap y then 1 else 0) + dd <= DaysInYear y) as Hle.
  { destruct (Z.eqb_spec m 11); [done|].
    etrans; [exact Hv|]. unfold DaysInYear, monthStart.
    destruct (isLeap y);
      repeat match goal with
             | |- context [if ?a =? ?b then _ else _] => destruct (Z.eqb_spec a b)
             end; lia. }
  assert (0 <= monthStart m (if isLeap y then 1 else 0)) as Hms.
  { unfold monthStart. destruct (isLeap y);
      repeat match goal with
             | |- context [if ?a =? ?b then _ else _] => destruct (Z.eqb_spec a b)
             end; lia. }
  assert (YearFromTime t = y) as HY.
  { unfold YearFromTime. apply YearFromDay_unique.
    rewrite DayFromYear_step, HD. lia. }
  assert (DayWithinYear t = monthStart m (if isLeap y then 1 else 0) + dd - 1)
    as HW by (unfold DayWithinYear; rewrite HY, HD; lia).
  assert (InLeapYear t = if isLeap y then 1 else 0) as HL
    by (unfold InLeapYear; by rewrite HY).
  assert (MonthFromTime t = m) as HM.
  { unfold MonthFromTime. rewrite HW, HL. clear HD HY HW HL t.
    unfold DaysInYear in *.
    assert (m = 0 \/ m = 1 \/ m = 2 \/ m = 3 \/ m = 4 \/ m = 5 \/ m = 6
            \/ m = 7 \/ m = 8 \/ m = 9 \/ m = 10 \/ m = 11) as Hcases by lia.
    destruct (isLeap y);
      repeat (destruct Hcases as [->|Hcases]); subst;
      unfold monthStart in Hv, Hle; simpl in Hv, Hle;
      unfold monthOfDay, monthStart; simpl;
      repeat match goal with
             | |- context [if ?a <? ?b then _ else _] =>
                 destruct (Z.ltb_spec a b); try lia
             end. }
  split; [done|]. split; [done|].
  unfold DateFromTime. rewrite HM, HW, HL. lia.
Qed.

End Calendar.

(** ** Weekdays *)

Lemma daysUntilWeekday_spec today name idx :
  indexOf (toLowerCase name) dayNames 0 = idx ->
  (0 <= idx <= 6)%Z ->
  let n := daysUntilWeekday today (Some name) in
  (1 <= n <= 7)%Z
  /\ ((JsDate.WeekDay today + n) mod 7 = idx)%Z
  /\ (JsDate.WeekDay today = idx -> n = 7%Z).
Proof.
  intros Hi Hr. unfold daysUntilWeekday.
  change (default EmptyString (Some name)) with name. rewrite Hi.
  unfold JsDate.getDay.
  assert (0 <= JsDate.WeekDay today < 7)%Z as Hw
    by (unfold JsDate.WeekDay; by apply Z.mod_pos_bound).
  cbv zeta. destruct (Z.leb_spec (idx - JsDate.WeekDay today) 0).
  - split_and!; try lia.
    replace (JsDate.WeekDay today + (idx - JsDate.WeekDay today + 7))%Z
      with (idx + 1 * 7)%Z by lia.
    rewrite Z_mod_plus_full. apply Z.mod_small. lia.
  - split_and!; try lia.
    replace (JsDate.WeekDay today + (idx - JsDate.WeekDay today))%Z
      with idx by lia.
    apply Z.mod_small. lia.
Qed.

(** C8. For every weekday name, "this" names the next day with that weekday
    strictly after today, 1 to 7 days ahead (7 when today is that weekday),
    and "next" names the day 7 days after that one (14 days ahead when today
    is that weekday). *)
Theorem next_weekday_week_after_this (h : Host) (w : Weekday) :
  exists n : Z,
    (1 <= n <= 7)%Z
    /\ JsDate.WeekDay (JsDate.addDays (now h) n) = weekdayIndex w
    /\ parseNaturalDate h ("this " +:+ weekdayName w)
       = Some (formatDate (JsDate.addDays (now h) n))
    /\ parseNaturalDate h ("next " +:+ weekdayName w)
       = Some (formatDate (JsDate.addDays (now h) (n + 7)))
    /\ (JsDate.WeekDay (now h) = weekdayIndex w -> n = 7%Z).
Proof.
  exists (daysUntilWeekday (todayOf h) (Some (weekdayName w))).
  destruct (daysUntilWeekday_spec (todayOf h) (weekdayName w) (weekdayIndex w))
    as (Hr & Hm & H7); [by destruct w|destruct w; simpl; lia|].
  unfold todayOf in Hm, H7. rewrite WeekDay_startOfDay in Hm, H7.
  split_and!; [lia|lia|by rewrite WeekDay_addDays| | |exact H7].
  - clear. destruct w;
      (erewrite parseNaturalDate_this;
       [|done
        |repeat split; vm_compute; reflexivity
        |vm_compute; reflexivity
        |vm_compute; reflexivity]);
      unfold todayOf; by rewrite setDate_add.
  - clear. destruct w;
      (erewrite parseNaturalDate_next;
       [|done
        |repeat split; vm_compute; reflexivity
        |vm_compute; reflexivity]);
      unfold todayOf; by rewrite setDate_add.
Qed.

(** ** Texts that end in digits *)

Lemma toLowerCase_app a b : toLowerCase (a +:+ b) = toLowerCase a +:+ toLowerCase b.
Proof.
  induction a as [|c a IH]; [done|].
  rewrite append_cons. cbn [toLowerCase]. by rewrite IH, append_cons.
Qed.

Lemma allChars_app p a b :
  allChars p (a +:+ b) = allChars p a && allChars p b.
Proof.
  induction a as [|c a IH]; [done|].
  rewrite append_cons. cbn [allChars]. by rewrite IH, andb_assoc.
Qed.

Lemma allChars_impl (p q : ascii -> bool) s :
  (forall c, p c = true -> q c = true) ->
  allChars p s = true -> allChars q s = true.
Proof.
  intros Hpq. induction s as [|c s IH]; [done|]. cbn [allChars].
  rewrite !andb_true_iff. intros [? ?]. auto.
Qed.

Lemma allDigits_allChars s : allDigits s = allChars isDigit s.
Proof. induction s as [|c s IH]; [done|]. cbn [allDigits allChars]. by rewrite IH. Qed.

Lemma toLowerCase_plain s : allChars plainChar s = true -> toLowerCase s = s.
Proof.
  induction s as [|c s IH]; [done|]. cbn [allChars toLowerCase].
  rewrite andb_true_iff. intros [Hc Hs]. rewrite IH by done. f_equal.
  revert Hc. destruct c as [[] [] [] [] [] [] [] []]; vm_compute; congruence.
Qed.

Lemma trimEnd_digits s :
  allChars isDigit s = true -> s <> EmptyString -> trimEnd s = s.
Proof.
  induction s as [|c s IH]; [done|]. cbn [allChars trimEnd].
  rewrite andb_true_iff. intros [Hc Hs] _.
  destruct s as [|c' s].
  - cbn [trimEnd]. replace (isSpace c) with false; [done|].
    revert Hc. destruct c as [[] [] [] [] [] [] [] []]; vm_compute; congruence.
  - rewrite IH by done. reflexivity.
Qed.

Lemma trimEnd_app_digits a s :
  allChars isDigit s = true -> s <> EmptyString -> trimEnd (a +:+ s) = a +:+ s.
Proof.
  intros Hs Hne. induction a as [|c a IH].
  - rewrite append_nil. by apply trimEnd_digits.
  - rewrite append_cons. cbn [trimEnd]. rewrite IH.
    destruct (a +:+ s) eqn:E; [|done].
    destruct a; [rewrite append_nil in E; done|rewrite append_cons in E; done].
Qed.

Lemma string_of_uint_digits u :
  allChars isDigit (NilEmpty.string_of_uint u) = true.
Proof. induction u; cbn [NilEmpty.string_of_uint allChars]; try done. Qed.

Lemma numToString_digits z :
  (0 <= z)%Z ->
  allChars isDigit (numToString z) = true /\ numToString z <> EmptyString.
Proof.
  intros Hz. unfold numToString. destruct z as [|p|p]; [done| |lia].
  cbn [Z.to_int NilZero.string_of_int]. unfold NilZero.string_of_uint.
  pose proof (string_of_uint_digits (Pos.to_uint p)) as Hd.
  pose proof (DecimalPos.Unsigned.to_uint_nonnil p) as Hn.
  destruct (Pos.to_uint p); done.
Qed.

(** ** Searches that cannot start in a tail of digits, commas and spaces *)

Lemma includes_no_first a w s :
  allChars (fun c => negb (Ascii.eqb a c)) s = true ->
  includes (String a w) s = false.
Proof.
  induction s as [|c s IH]; [done|]. cbn [allChars includes startsWith].
  rewrite andb_true_iff. intros [Hc Hs]. rewrite IH by done.
  apply negb_true_iff in Hc. by rewrite Hc.
Qed.

Lemma search_no_first ic a r1 r2 : forall s prev idx,
  allChars (fun c => negb (charMatches ic a c)) s = true ->
  search ic (RSeq (RSeq (RChar a) r1) r2) prev s idx = None.
Proof.
  induction s as [|c s IH]; intros prev idx; [done|]. cbn [allChars].
  rewrite andb_true_iff. intros [Hc Hs]. apply negb_true_iff in Hc.
  cbn [search matcher rest]. rewrite Hc. by apply IH.
Qed.

Lemma plain_not_letter (a : ascii) s :
  isLetter a = true ->
  allChars plainChar s = true ->
  allChars (fun c => negb (charMatches true a c)) s = true
  /\ allChars (fun c => negb (Ascii.eqb a c)) s = true.
Proof.
  intros Ha Hs.
  assert (forall c, plainChar c = true -> Ascii.eqb a c = false) as H1.
  { intros c Hc. apply Ascii.eqb_neq. intros <-.
    revert Ha Hc. destruct a as [[] [] [] [] [] [] [] []]; vm_compute; congruence. }
  assert (forall c, plainChar c = true -> charMatches true a c = false) as H2.
  { intros c Hc. unfold charMatches. apply Ascii.eqb_neq. intros Heq.
    assert (canonicalize c = c) as Hcc.
    { revert Hc. destruct c as [[] [] [] [] [] [] [] []]; vm_compute; congruence. }
    rewrite Hcc in Heq. subst c.
    revert Ha Hc. destruct a as [[] [] [] [] [] [] [] []]; vm_compute; congruence. }
  split; eapply allChars_impl; try exact Hs; intros c Hc; apply negb_true_iff; auto.
Qed.

(** ** The long form of a date *)

Ltac month_cases m H :=
  assert (m = 0 \/ m = 1 \/ m = 2 \/ m = 3 \/ m = 4 \/ m = 5 \/ m = 6 \/ m = 7
          \/ m = 8 \/ m = 9 \/ m = 10 \/ m = 11)%Z as H by lia;
  repeat (destruct H as [->|H]); [..|subst m].

Lemma month_phrases (m : Z) (P : string) :
  (0 <= m <= 11)%Z ->
  allChars plainChar P = true ->
  let l := toLowerCase (monthLong m) +:+ " " +:+ P in
  noDatePhrase l /\ exec nextDayRe l = None /\ exec thisDayRe l = None.
Proof.
  intros Hm HP.
  destruct (plain_not_letter "d" P eq_refl HP) as [_ Hd].
  destruct (plain_not_letter "n" P eq_refl HP) as [Hn _].
  destruct (plain_not_letter "t" P eq_refl HP) as [Ht _].
  month_cases m Hc; cbv zeta;
    match goal with
    | |- context [toLowerCase (monthLong ?k)] =>
        let v := eval vm_compute in (toLowerCase (monthLong k)) in
        change (toLowerCase (monthLong k)) with v
    end;
    (split; [repeat split; try (vm_compute; reflexivity)|split]);
    unfold exec, nextDayRe, thisDayRe; rewrite !append_cons, append_nil.
  all: cbn.
  all: first [ by apply includes_no_first
             | by apply search_no_first ].
Qed.

Ltac day_cases d H :=
  assert (d = 1 \/ d = 2 \/ d = 3 \/ d = 4 \/ d = 5 \/ d = 6 \/ d = 7 \/ d = 8
          \/ d = 9 \/ d = 10 \/ d = 11 \/ d = 12 \/ d = 13 \/ d = 14 \/ d = 15
          \/ d = 16 \/ d = 17 \/ d = 18 \/ d = 19 \/ d = 20 \/ d = 21 \/ d = 22
          \/ d = 23 \/ d = 24 \/ d = 25 \/ d = 26 \/ d = 27 \/ d = 28 \/ d = 29
          \/ d = 30 \/ d = 31)%Z as H by lia;
  repeat (destruct H as [->|H]); [..|subst d].

(** The month pattern finds the month and the day of a text in the long
    form, whatever follows the comma. *)
Lemma month_day_match (m dd : Z) (Y : string) :
  (0 <= m <= 11)%Z -> (1 <= dd <= 31)%Z ->
  exists mm,
    exec monthDayRe
      (toLowerCase (monthLong m) +:+ " " +:+ numToString dd +:+ ", " +:+ Y)
    = Some mm
    /\ lookupZ (toLowerCase (default EmptyString (group mm 2))) monthNames = Some m
    /\ parseInt (orElse (group mm 1) (group mm 3)) = Some dd.
Proof.
  intros Hm Hd. month_cases m Hc; day_cases dd Hc';
    (eexists; split; [vm_compute; reflexivity|split; vm_compute; reflexivity]).
Qed.

Lemma trimStart_first c s : isSpace c = false -> trimStart (String c s) = String c s.
Proof. intros H. cbn [trimStart]. by rewrite H. Qed.

Lemma digits_plain s : allChars isDigit s = true -> allChars plainChar s = true.
Proof.
  apply allChars_impl. intros c Hc. unfold plainChar. by rewrite Hc.
Qed.

Lemma long_form_tail_plain (dd : Z) (Y : string) :
  (0 <= dd)%Z -> allChars isDigit Y = true ->
  allChars plainChar (numToString dd +:+ ", " +:+ Y) = true.
Proof.
  intros Hd HY. rewrite !allChars_app.
  destruct (numToString_digits dd Hd) as [Hdd _].
  by rewrite (digits_plain _ Hdd), (digits_plain _ HY).
Qed.

Lemma long_form_lower (m dd : Z) (Y : string) :
  (0 <= m <= 11)%Z -> (0 <= dd)%Z ->
  allChars isDigit Y = true -> Y <> EmptyString ->
  trim (toLowerCase (monthLong m +:+ " " +:+ numToString dd +:+ ", " +:+ Y))
  = toLowerCase (monthLong m) +:+ " " +:+ numToString dd +:+ ", " +:+ Y.
Proof.
  intros Hm Hd HY Hne. rewrite toLowerCase_app.
  rewrite (toLowerCase_plain (" " +:+ numToString dd +:+ ", " +:+ Y)).
  2:{ rewrite allChars_app. by rewrite (long_form_tail_plain dd Y Hd HY). }
  unfold trim.
  assert (trimStart (toLowerCase (monthLong m) +:+ " " +:+ numToString dd +:+ ", " +:+ Y)
          = toLowerCase (monthLong m) +:+ " " +:+ numToString dd +:+ ", " +:+ Y) as ->.
  { month_cases m Hc;
      match goal with
      | |- context [toLowerCase (monthLong ?k)] =>
          let v := eval vm_compute in (toLowerCase (monthLong k)) in
          change (toLowerCase (monthLong k)) with v
      end; rewrite append_cons; by apply trimStart_first. }
  rewrite <- !append_assoc_s. by apply trimEnd_app_digits.
Qed.

Lemma monthLong_nonempty m s : (0 <= m <= 11)%Z -> monthLong m +:+ s <> EmptyString.
Proof. intros Hm. month_cases m Hc; done. Qed.

(** The date parser on a text in the long form: the month and the day of
    the text in the current year, or in the next one when that day is
    past; the year of the text is not read. *)
Lemma long_form_parse (h : Host) (m dd : Z) (Y : string) :
  (0 <= m <= 11)%Z -> (1 <= dd <= 31)%Z ->
  allChars isDigit Y = true -> Y <> EmptyString ->
  parseNaturalDate h (monthLong m +:+ " " +:+ numToString dd +:+ ", " +:+ Y)
  = Some (formatDate
            (let date := JsDate.newDate (JsDate.getFullYear (todayOf h)) m dd in
             if (date <? todayOf h)%Z
             then JsDate.setFullYear date (JsDate.getFullYear (todayOf h) + 1)
             else date)).
Proof.
  intros Hm Hd HY Hne.
  destruct (month_day_match m dd Y Hm Hd) as (mm & Hmm & Hmo & Hda).
  destruct (month_phrases m (numToString dd +:+ ", " +:+ Y) Hm) as (Hp & Hn & Ht);
    [apply long_form_tail_plain; [lia|done]|].
  eapply parseNaturalDate_month; rewrite ?long_form_lower by (done || lia);
    [by apply monthLong_nonempty|exact Hp|exact Hn|exact Ht|exact Hmm
    |exact Hmo|exact Hda].
Qed.

(** ** The round trip through the long form *)

Section RoundTrip.

Import JsDate.
Local Open Scope Z_scope.

Lemma addDays_midnight t n : addDays t n = MakeDate (Day t + n) 0.
Proof. unfold addDays, startOfDay, MakeDate. lia. Qed.

Lemma midnight_civil t :
  MakeDate (MakeDay (YearFromTime t) (MonthFromTime t) (DateFromTime t)) 0
  = MakeDate (Day t) 0.
Proof.
  pose proof (MakeDay_civil t 0) as H. rewrite !Z.add_0_r in H. by rewrite H.
Qed.

Lemma newDate_modern y m dd : 1970 <= y -> newDate y m dd = MakeDate (MakeDay y m dd) 0.
Proof.
  intros Hy. unfold newDate.
  destruct (Z.leb_spec 0 y); destruct (Z.leb_spec y 99); simpl; (done || lia).
Qed.

Lemma MakeDate_lt a b : a < b -> MakeDate a 0 < MakeDate b 0.
Proof. unfold MakeDate, msPerDay. lia. Qed.

Lemma monthStart_leap_step m leap :
  0 <= m <= 11 -> (leap = 0 \/ leap = 1) ->
  0 <= monthStart m leap
  /\ monthStart m 0 <= monthStart m leap <= monthStart m 0 + 1
  /\ (m <= 1 -> monthStart m leap = monthStart m 0)
  /\ (2 <= m -> monthStart m leap = monthStart m 0 + leap).
Proof.
  intros Hm Hl. month_cases m Hc; unfold monthStart; simpl; lia.
Qed.

Lemma month_length_le_31 m leap dd :
  0 <= m <= 11 -> (leap = 0 \/ leap = 1) ->
  monthStart m leap + dd
    <= (if m =? 11 then 365 + leap else monthStart (m + 1) leap) ->
  dd <= 31.
Proof.
  intros Hm Hl. month_cases m Hc; unfold monthStart; simpl; lia.
Qed.

(** A day of a month other than the 29th of February exists in every year. *)
Lemma valid_in_any_year m dd leap leap' :
  0 <= m <= 11 -> (leap = 0 \/ leap = 1) -> (leap' = 0 \/ leap' = 1) ->
  monthStart m leap + dd
    <= (if m =? 11 then 365 + leap else monthStart (m + 1) leap) ->
  ~ (m = 1 /\ dd = 29) ->
  monthStart m leap' + dd
    <= (if m =? 11 then 365 + leap' else monthStart (m + 1) leap').
Proof.
  intros Hm Hl Hl'. month_cases m Hc; unfold monthStart; simpl; lia.
Qed.

(** A date rendered in the long form is parsed back to itself when it lies
    from today to 364 days ahead, unless it is a 29 February of next year. *)
Lemma long_form_round_trip (h : Host) (n : Z) :
  0 <= now h -> 0 <= n <= 364 ->
  (isFeb29 (addDays (now h) n) ->
   getFullYear (addDays (now h) n) = getFullYear (todayOf h)) ->
  parseNaturalDate h (longForm (addDays (now h) n))
  = Some (formatDate (addDays (now h) n)).
Proof.
  intros Hnow Hn Hfeb. set (d := addDays (now h) n) in *.
  set (today := todayOf h).
  pose proof (civil_valid d) as (Hm & Hd1 & Hd2). cbv zeta in Hm, Hd1, Hd2.
  assert (InLeapYear d = 0 \/ InLeapYear d = 1) as HL
    by (unfold InLeapYear; destruct (isLeap _); auto).
  assert (0 <= Day (now h)) as Hday by (apply Z.div_pos; unfold msPerDay; lia).
  assert (Day d = Day (now h) + n) as HDd by apply Day_addDays.
  assert (Day today = Day (now h)) as HDt
    by (unfold today, todayOf, startOfDay; apply Day_MakeDate).
  assert (today = MakeDate (Day (now h)) 0) as Htoday by reflexivity.
  assert (d = MakeDate (Day d) 0) as Hdmid
    by (rewrite HDd; apply addDays_midnight).
  assert (1970 <= getFullYear today) as Hy0
    by (unfold getFullYear, YearFromTime; apply YearFromDay_epoch; lia).
  assert (getFullYear today <= getFullYear d) as Hyle
    by (unfold getFullYear, YearFromTime; apply YearFromDay_mono; lia).
  assert (DateFromTime d <= 31) as Hd31
    by (eapply month_length_le_31; [exact Hm|exact HL|exact Hd2]).
  destruct (numToString_digits (getFullYear d)) as (HYd & HYn); [lia|].
  unfold longForm. fold (MonthFromTime d) (DateFromTime d).
  rewrite long_form_parse by (done || (unfold getMonth, getDate; lia)).
  f_equal. f_equal. cbv zeta. fold today.
  rewrite newDate_modern by done.
  assert (getFullYear d <= getFullYear today + 1) as Hyle1.
  { unfold getFullYear, YearFromTime in *.
    destruct (Z.le_gt_cases (YearFromDay (Day d)) (YearFromDay (Day today) + 1))
      as [|Hgt]; [done|].
    pose proof (YearFromDay_spec (Day today)) as Hs.
    pose proof (YearFromDay_spec (Day d)) as Hsd.
    pose proof (DayFromYear_step (YearFromDay (Day today) + 1)) as Hst.
    pose proof (DaysInYear_cases (YearFromDay (Day today) + 1)).
    assert (DayFromYear (YearFromDay (Day today) + 1 + 1)
            <= DayFromYear (YearFromDay (Day d))); [|lia].
    destruct (Z.eq_dec (YearFromDay (Day today) + 1 + 1) (YearFromDay (Day d)))
      as [->|]; [lia|].
    apply Z.lt_le_incl, DayFromYear_lt. lia. }
  destruct (Z.eq_dec (getFullYear d) (getFullYear today)) as [Heq|Hne].
  - (* the same year *)
    rewrite <- Heq. unfold getFullYear, getMonth, getDate.
    rewrite midnight_civil, <- Hdmid.
    destruct (Z.ltb_spec d today) as [Hlt|]; [|done].
    rewrite Hdmid, Htoday in Hlt. unfold MakeDate, msPerDay in Hlt. lia.
  - (* the next year *)
    assert (getFullYear today = getFullYear d - 1) as Hprev by lia.
    assert (~ isFeb29 d) as Hnf by (intros Hf; apply Hne; by apply Hfeb).
    unfold isFeb29, getMonth, getDate in Hnf.
    rewrite Hprev. set (y := getFullYear d) in *.
    set (m := MonthFromTime d) in *. set (dd := DateFromTime d) in *.
    set (leap' := if isLeap (y - 1) then 1 else 0).
    assert (leap' = 0 \/ leap' = 1) as HL' by (unfold leap'; destruct (isLeap _); auto).
    destruct (monthStart_leap_step m (InLeapYear d) Hm HL) as (Hs0 & Hs1 & Hs2 & Hs3).
    destruct (monthStart_leap_step m leap' Hm HL') as (Hs0' & Hs1' & Hs2' & Hs3').
    assert (monthStart m leap' + dd
            <= (if m =? 11 then DaysInYear (y - 1) else monthStart (m + 1) leap'))
      as Hvalid.
    { unfold DaysInYear. fold leap'.
      replace (if isLeap (y - 1) then 366 else 365) with (365 + leap')
        by (unfold leap'; by destruct (isLeap _)).
      by eapply valid_in_any_year; [exact Hm|exact HL|exact HL'|exact Hd2|]. }
    destruct (civil_of_MakeDay (y - 1) m dd Hm Hd1 Hvalid) as (HY0 & HM0 & HD0).
    set (date0 := MakeDate (MakeDay (y - 1) m dd) 0) in *.
    assert (Day date0 = DayFromYear (y - 1) + monthStart m leap' + dd - 1) as HDay0.
    { unfold date0. rewrite Day_MakeDate. unfold MakeDay.
      rewrite (Z.div_small m 12), (Z.mod_small m 12) by lia.
      rewrite Z.add_0_r. fold leap'. lia. }
    assert (Day d = DayFromYear y + monthStart m (InLeapYear d) + dd - 1) as HDayd.
    { unfold dd, DateFromTime, DayWithinYear. fold (MonthFromTime d). fold m.
      fold (getFullYear d). fold y. lia. }
    assert (Day date0 + 365 <= Day d) as Hgap.
    { pose proof (DayFromYear_step (y - 1)) as Hst.
      replace (y - 1 + 1) with y in Hst by lia.
      unfold DaysInYear in Hst. fold leap' in Hst.
      replace (if isLeap (y - 1) then 366 else 365) with (365 + leap') in Hst
        by (unfold leap'; by destruct (isLeap _)).
      destruct (Z.le_gt_cases m 1); [rewrite Hs2, Hs2' in * by done|
                                     rewrite Hs3, Hs3' in * by lia]; lia. }
    assert (date0 < today) as Hlt.
    { unfold date0 at 1. rewrite Htoday. apply MakeDate_lt.
      unfold date0 in HDay0. rewrite Day_MakeDate in HDay0.
      unfold date0 in Hgap. rewrite Day_MakeDate in Hgap. lia. }
    change (MakeDate (MakeDay (y - 1) (getMonth d) (getDate d)) 0) with date0.
    destruct (Z.ltb_spec date0 today) as [_|]; [|lia].
    unfold setFullYear. rewrite HM0, HD0.
    replace (TimeWithinDay date0) with 0
      by (symmetry; apply TimeWithinDay_MakeDate).
    replace (y - 1 + 1) with y by lia.
    unfold y, m, dd, getFullYear. by rewrite midnight_civil, <- Hdmid.
Qed.

End RoundTrip.

(** C7 (amended). "tomorrow" is parsed to the day after today, in the form
    YYYY-MM-DD; and a date from today to 364 days ahead, other than a 29
    February of next year, rendered in the long form "Month D, YYYY", is
    parsed back to the same YYYY-MM-DD date.  (The month-name step reads
    the month and the day only and supplies the current year, or the next
    one when that day is past.) *)
Theorem date_round_trip (h : Host) (n : Z) :
  (0 <= now h)%Z -> (0 <= n <= 364)%Z ->
  (isFeb29 (JsDate.addDays (now h) n) ->
   JsDate.getFullYear (JsDate.addDays (now h) n) = JsDate.getFullYear (todayOf h)) ->
  parseNaturalDate h "tomorrow" = Some (formatDate (JsDate.addDays (now h) 1))
  /\ parseNaturalDate h (longForm (JsDate.addDays (now h) n))
     = Some (formatDate (JsDate.addDays (now h) n)).
Proof.
  intros Hnow Hn Hfeb. split; [|by apply long_form_round_trip].
  change (parseNaturalDate h "tomorrow")
    with (Some (formatDate (JsDate.setDate (todayOf h)
                              (JsDate.getDate (todayOf h) + 1)%Z))).
  unfold todayOf. by rewrite setDate_add.
Qed.

(** A witness of C7: on Monday 2 November 2026, the date 30 days ahead. *)
Lemma date_round_trip_witness :
  parseNaturalDate Samples.strictHost "tomorrow"
  = Some (formatDate (JsDate.addDays (now Samples.strictHost) 1))
  /\ parseNaturalDate Samples.strictHost
       (longForm (JsDate.addDays (now Samples.strictHost) 30))
     = Some (formatDate (JsDate.addDays (now Samples.strictHost) 30)).
Proof.
  apply (date_round_trip Samples.strictHost 30).
  - vm_compute. discriminate.
  - lia.
  - intros [Hm _]. vm_compute in Hm. discriminate.
Defined.

(** C7 (counterexample). On 2 November 2026 the parser outputs 2020-01-01
    for the text "2020-01-01"; that date in the long form is "January 1,
    2020", which is parsed to 2027-01-01. *)
Lemma long_form_of_2020_not_round_trip :
  parseNaturalDate Samples.strictHost "2020-01-01"
  = Some (formatDate (JsDate.newDate 2020 0 1))
  /\ longForm (JsDate.newDate 2020 0 1) = "January 1, 2020"
  /\ parseNaturalDate Samples.strictHost (longForm (JsDate.newDate 2020 0 1))
     = Some "2027-01-01"
  /\ parseNaturalDate Samples.strictHost (longForm (JsDate.newDate 2020 0 1))
     <> Some (formatDate (JsDate.newDate 2020 0 1)).
Proof.
  split_and!; try (vm_compute; reflexivity). vm_compute. discriminate.
Qed.

(** ** A booking from the first field to the confirmation *)

Example booking_scenario :
  exists s,
    Controller.runTurns
      [turn "My name is John"; turn "My dog is named Buddy"; turn "555-123-4567";
       turn "tomorrow"; turn "10am"] emptyState = Some s
    /\ isConfirming s = true
    /\ collectedFields s
       = {[ "petOwnerName" := "John"; "petName" := "Buddy";
            "phoneNumber" := "555-123-4567"; "preferredDate" := "2026-11-03";
            "preferredTime" := "10:00" ]}
    /\ (action <$> processMessage strictHost None "yes" s) = Some Confirmed
    /\ (response <$> processMessage strictHost None "yes" s) = Some None.
Proof.
  eexists. split; [vm_compute; reflexivity|]. split_and!; vm_compute; reflexivity.
Qed.

(** * Further properties *)

Import Lang Phrases Sessions Scenes Checks.

(** ** What a successful match has consumed *)

Lemma length_append (a b : string) :
  String.length (a +:+ b) = (String.length a + String.length b)%nat.
Proof.
  induction a as [|c a IH]; [done|]. rewrite append_cons. simpl. by rewrite IH.
Qed.

Lemma append_empty_r (a : string) : a +:+ EmptyString = a.
Proof. induction a as [|c a IH]; [done|]. by rewrite append_cons, IH. Qed.

Lemma take_append (a b : string) : take (String.length a) (a +:+ b) = a.
Proof.
  induction a as [|c a IH]; [by destruct b|].
  rewrite append_cons. simpl. by rewrite IH.
Qed.

Lemma repeatMatcher_sound body gs (L : string -> Prop) :
  sound body L ->
  forall fuel min max,
    sound (fun x k => repeatMatcher body gs fuel min max x k)
      (fun s => exists l, s = concatAll l /\ Forall L l
                          /\ (leastCount min max <= List.length l)%nat
                          /\ withinMax max (List.length l)).
Proof.
  intros Hb fuel. induction fuel as [|fuel IH]; intros min max x k z; [done|].
  cbn [repeatMatcher].
  set (d := fun y : MState =>
              if Nat.eqb min 0 && Nat.eqb (pos y) (pos x) then None
              else repeatMatcher body gs fuel (Nat.pred min) (predMax max) y k).
  assert (k x = Some z -> leastCount min max = 0%nat ->
          exists s y,
            rest x = s +:+ rest y /\ pos y = (pos x + String.length s)%nat
            /\ (exists l, s = concatAll l /\ Forall L l
                          /\ (leastCount min max <= List.length l)%nat
                          /\ withinMax max (List.length l))
            /\ k y = Some z) as Hk.
  { intros Hkx H0. exists EmptyString, x. split_and!; [done|simpl; lia| |done].
    exists []. split_and!; [done|constructor|simpl; lia|].
    destruct max; simpl; [lia|done]. }
  assert (max <> Some 0%nat ->
          forall r, body (clearCaptures gs x) d = Some r -> r = z ->
          exists s y,
            rest x = s +:+ rest y /\ pos y = (pos x + String.length s)%nat
            /\ (exists l, s = concatAll l /\ Forall L l
                          /\ (leastCount min max <= List.length l)%nat
                          /\ withinMax max (List.length l))
            /\ k y = Some z) as Hstep.
  { intros Hmax r Hr ->.
    apply Hb in Hr as (s1 & y1 & Hrest & Hpos & HL & Hd).
    unfold d in Hd. destruct (_ && _); [done|].
    apply IH in Hd
      as (s2 & y2 & Hrest2 & Hpos2 & (l & -> & Hl & Hlo & Hhi) & Hk2).
    cbn [clearCaptures rest pos] in Hrest, Hpos.
    exists (s1 +:+ concatAll l), y2. split_and!; [| | |done].
    - by rewrite Hrest, Hrest2, append_assoc_s.
    - rewrite length_append. lia.
    - exists (s1 :: l). split_and!; [done|by constructor| |];
        destruct max as [[|m]|]; simpl in *; try done; lia. }
  destruct max as [[|n]|].
  - intros H. apply Hk; [done|simpl; lia].
  - destruct (Nat.eqb_spec min 0) as [->|Hmin].
    + destruct (body (clearCaptures gs x) d) eqn:E;
        [intros [= ->]; eapply Hstep; eauto|intros H; by apply Hk].
    + intros E. eapply Hstep; eauto.
  - destruct (Nat.eqb_spec min 0) as [->|Hmin].
    + destruct (body (clearCaptures gs x) d) eqn:E;
        [intros [= ->]; eapply Hstep; eauto|intros H; by apply Hk].
    + intros E. eapply Hstep; eauto.
Qed.

Lemma matcher_sound ic r : sound (matcher ic r) (matches ic r).
Proof.
  induction r as [|a|neg items|r1 IH1 r2 IH2|r1 IH1 r2 IH2|min max r IH|n r IH| | |];
    intros x k z; cbn [matcher matches].
  - intros ?. exists EmptyString, x. split_and!; try done; simpl; lia.
  - destruct (rest x) as [|c s] eqn:E; [done|].
    destruct (charMatches ic a c) eqn:Hc; [|done]. intros ?.
    exists (String c EmptyString), (step x c s).
    split_and!; try done; [simpl; lia|by exists c].
  - destruct (rest x) as [|c s] eqn:E; [done|].
    destruct (classMatches ic neg items c) eqn:Hc; [|done]. intros ?.
    exists (String c EmptyString), (step x c s).
    split_and!; try done; [simpl; lia|by exists c].
  - intros H. apply IH1 in H as (s1 & y1 & Hr1 & Hp1 & HL1 & H).
    apply IH2 in H as (s2 & y2 & Hr2 & Hp2 & HL2 & H).
    exists (s1 +:+ s2), y2. split_and!; [| | |done].
    + by rewrite Hr1, Hr2, append_assoc_s.
    + rewrite length_append. lia.
    + by exists s1, s2.
  - destruct (matcher ic r1 x k) eqn:E.
    + intros [= ->]. apply IH1 in E as (s & y & ? & ? & ? & ?).
      exists s, y. split_and!; try done. by left.
    + intros H. apply IH2 in H as (s & y & ? & ? & ? & ?).
      exists s, y. split_and!; try done. by right.
  - apply (repeatMatcher_sound _ _ _ IH).
  - intros H. apply IH in H as (s & y & ? & ? & ? & ?).
    exists s, (setCapture n x y). by split_and!.
  - destruct (before x); [done|]. intros ?.
    exists EmptyString, x. split_and!; try done; simpl; lia.
  - destruct (rest x) eqn:E; [|done]. intros ?.
    exists EmptyString, x. split_and!; try done; simpl; lia.
  - destruct (xorb _ _); [|done]. intros ?.
    exists EmptyString, x. split_and!; try done; simpl; lia.
Qed.

(** A match found by [search] is a success of the matcher at some position
    of the text. *)
Lemma search_inv ic r : forall s prev idx m,
  search ic r prev s idx = Some m ->
  exists pre x z,
    s = pre +:+ rest x /\ captures x = []
    /\ matcher ic r x Some = Some z /\ groups m = captures z
    /\ whole m = take (pos z - pos x) (rest x).
Proof.
  induction s as [|c s IH]; intros prev idx m; cbn [search];
    (destruct (matcher ic r _ Some) as [z|] eqn:E;
     [intros [= <-]; exists EmptyString; eexists _, z;
      split_and!; [|  |exact E| |]; done|]).
  - done.
  - intros H. apply IH in H as (pre & x & z & -> & ? & ? & ? & ?).
    exists (String c pre), x, z. by split_and!.
Qed.

(** The first group of a pattern that is one group holds the text the
    pattern matched. *)
Lemma group1_matches ic r message m :
  exec {| icase := ic; body := RGroup 1 r |} message = Some m ->
  exists s, group m 1 = Some s /\ matches ic r s.
Proof.
  unfold exec. cbn [icase body]. intros H.
  apply search_inv in H as (pre & x & z & _ & Hcap & Hz & Hg & _).
  rewrite matcher_group in Hz.
  apply matcher_sound in Hz as (s & y & Hrest & Hpos & HL & [= <-]).
  exists s. split; [|done].
  unfold group. rewrite Hg. cbn [setCapture captures assoc Nat.eqb].
  f_equal. rewrite Hrest, Hpos.
  replace (pos x + String.length s - pos x)%nat with (String.length s) by lia.
  apply take_append.
Qed.

(** ** Digits in a matched text *)

Lemma digitCount_append a b :
  digitCount (a +:+ b) = (digitCount a + digitCount b)%nat.
Proof.
  unfold digitCount. induction a as [|c a IH]; [done|].
  rewrite append_cons. cbn [digitsOf]. destruct (isDigit c); simpl; lia.
Qed.

Lemma itemDigit_sound it c :
  itemDigit it = true -> itemMatches it c = true -> isDigit c = true.
Proof.
  destruct it as [a|lo hi| | |]; simpl; try done.
  - intros Ha Hc. apply Ascii.eqb_eq in Hc. by subst.
  - unfold isDigit, inRange. intros H1 H2.
    repeat match goal with
           | H : _ && _ = true |- _ => apply andb_prop in H as [? ?]
           end.
    apply andb_true_intro.
    rewrite !N.leb_le in *. lia.
Qed.

Lemma itemOther_sound it c :
  itemOther it = true -> itemMatches it c = true -> isDigit c = false.
Proof.
  destruct it as [a|lo hi| | |]; simpl; try done.
  - intros Ha Hc. apply Ascii.eqb_eq in Hc. subst. by destruct (isDigit c).
  - intros _. unfold isSpace, isDigit, inRange. intros H.
    apply andb_false_iff. rewrite !N.leb_gt.
    repeat match goal with
           | H : _ || _ = true |- _ => apply orb_prop in H as [H|H]
           | H : _ && _ = true |- _ => apply andb_prop in H as [? ?]
           end;
      rewrite ?N.leb_le, ?N.eqb_eq in *; lia.
Qed.

Lemma inClass_item items c :
  inClass items c = true -> exists it, In it items /\ itemMatches it c = true.
Proof. unfold inClass. intros H. by apply existsb_exists in H. Qed.

Lemma digitCount_char c :
  digitCount (String c EmptyString) = if isDigit c then 1%nat else 0%nat.
Proof. unfold digitCount. simpl. by destruct (isDigit c). Qed.

Lemma digitCount_concat (L : string -> Prop) lo (hi : option nat) l :
  Forall (fun s => L s -> (lo <= digitCount s)%nat
                          /\ forall m, hi = Some m -> (digitCount s <= m)%nat) l ->
  Forall L l ->
  (List.length l * lo <= digitCount (concatAll l))%nat
  /\ forall m, hi = Some m -> (digitCount (concatAll l) <= List.length l * m)%nat.
Proof.
  induction l as [|s l IH]; intros Hb HL.
  - split; [simpl; lia|]. intros m _. simpl. unfold digitCount. simpl. lia.
  - inversion Hb as [|? ? Hs Hb']; subst. inversion HL as [|? ? HLs HL']; subst.
    destruct (IH Hb' HL') as [IHlo IHhi]. destruct (Hs HLs) as [Hlo Hhi].
    cbn [concatAll]. rewrite digitCount_append. split.
    + simpl. lia.
    + intros m Hm. specialize (IHhi m Hm). specialize (Hhi m Hm). simpl. lia.
Qed.

Lemma matches_digits r : forall s,
  matches false r s ->
  (minDigits r <= digitCount s)%nat
  /\ forall m, maxDigits r = Some m -> (digitCount s <= m)%nat.
Proof.
  assert (digitCount EmptyString = 0%nat) as H0 by done.
  induction r as [|a|neg items|r1 IH1 r2 IH2|r1 IH1 r2 IH2|min max r IH|n r IH| | |];
    intros s; cbn [matches minDigits maxDigits];
    try (intros ->; rewrite H0; split; [lia|intros m [= <-]; lia]).
  - intros (c & -> & Hc). unfold charMatches in Hc. apply Ascii.eqb_eq in Hc.
    subst c. rewrite digitCount_char.
    split; [|intros m [= <-]]; destruct (isDigit a); lia.
  - intros (c & -> & Hc). rewrite digitCount_char.
    unfold classMatches in Hc. split.
    + destruct neg; [simpl; lia|]. cbn [negb andb xorb] in *.
      destruct (forallb itemDigit items) eqn:Hall; [|lia].
      apply inClass_item in Hc as (it & Hin & Hit).
      rewrite forallb_forall in Hall.
      by rewrite (itemDigit_sound it c (Hall it Hin) Hit).
    + intros m [= <-].
      destruct neg; [simpl; destruct (isDigit c); lia|]. cbn [negb andb xorb] in *.
      destruct (forallb itemOther items) eqn:Hall; [|destruct (isDigit c); lia].
      apply inClass_item in Hc as (it & Hin & Hit).
      rewrite forallb_forall in Hall.
      by rewrite (itemOther_sound it c (Hall it Hin) Hit).
  - intros (s1 & s2 & -> & H1 & H2).
    destruct (IH1 _ H1) as [L1 U1]. destruct (IH2 _ H2) as [L2 U2].
    rewrite digitCount_append. split; [lia|].
    intros m. destruct (maxDigits r1) as [a|]; [|done].
    destruct (maxDigits r2) as [b|]; [|done]. intros [= <-].
    specialize (U1 a eq_refl). specialize (U2 b eq_refl). lia.
  - intros [H|H]; [destruct (IH1 _ H) as [L U]|destruct (IH2 _ H) as [L U]];
      (split; [lia|]); intros m;
      destruct (maxDigits r1) as [a|]; try done;
      destruct (maxDigits r2) as [b|]; try done; intros [= <-];
      [specialize (U a eq_refl)|specialize (U b eq_refl)]; lia.
  - intros (l & -> & Hl & Hlo & Hhi).
    destruct (digitCount_concat (matches false r) (minDigits r) (maxDigits r) l)
      as [L U]; [|done|].
    { apply Forall_forall. intros s _ Hs. by apply IH. }
    split; [nia|]. intros m.
    destruct max as [mx|]; destruct (maxDigits r) as [d|]; try done.
    + intros [= <-]. specialize (U d eq_refl). simpl in Hhi. nia.
    + destruct d; [|done]. intros [= <-]. specialize (U 0%nat eq_refl). lia.
  - apply IH.
Qed.

Lemma digitsOf_trimStart s : digitsOf (trimStart s) = digitsOf s.
Proof.
  induction s as [|c s IH]; [done|]. cbn [trimStart].
  destruct (isSpace c) eqn:Hc; [|done]. rewrite IH. cbn [digitsOf].
  by rewrite (itemOther_sound CSpace c eq_refl Hc).
Qed.

Lemma digitsOf_trimEnd s : digitsOf (trimEnd s) = digitsOf s.
Proof.
  induction s as [|c s IH]; [done|]. cbn [trimEnd digitsOf].
  destruct (trimEnd s) as [|c' t] eqn:E.
  - rewrite <- IH. destruct (isSpace c) eqn:Hc.
    + by rewrite (itemOther_sound CSpace c eq_refl Hc).
    + done.
  - by rewrite <- IH.
Qed.

Lemma digitCount_trim s : digitCount (trim s) = digitCount s.
Proof. unfold digitCount, trim. by rewrite digitsOf_trimEnd, digitsOf_trimStart. Qed.

(** A value with ten to fifteen digits passes the phone validator. *)
Lemma validatePhone_digits h v :
  (10 <= digitCount v <= 15)%nat -> validateField h "phoneNumber" (Some v) = Valid.
Proof.
  intros Hd. change (validateField h "phoneNumber") with (validatePhone h).
  unfold validatePhone. unfold digitCount in Hd.
  destruct v as [|c v]; [simpl in Hd; lia|]. cbn [truthy negb].
  destruct (Nat.ltb_spec (String.length (digitsOf (String c v))) 10); [lia|].
  destruct (Nat.ltb_spec 15 (String.length (digitsOf (String c v)))); [lia|done].
Qed.

Lemma firstCapture_phone message v :
  firstCapture phonePatterns message = Some v -> (10 <= digitCount v <= 15)%nat.
Proof.
  unfold phonePatterns.
  assert (forall r lo hi m,
            exec {| icase := false; body := RGroup 1 r |} message = Some m ->
            minDigits r = lo -> maxDigits r = Some hi ->
            (10 <= lo)%nat -> (hi <= 15)%nat ->
            truthy (group m 1) = true ->
            trim <$> group m 1 = Some v -> (10 <= digitCount v <= 15)%nat) as Hone.
  { intros r lo hi m Hm Hlo Hhi ? ? _ Hv.
    apply group1_matches in Hm as (s & Hs & HL). rewrite Hs in Hv.
    injection Hv as <-. rewrite digitCount_trim.
    destruct (matches_digits r s HL) as [L U]. specialize (U hi Hhi). lia. }
  cbn [firstCapture].
  repeat match goal with
         | |- context [match exec ?p message with _ => _ end] =>
             let m := fresh "m" in
             destruct (exec p message) as [m|] eqn:?;
             [destruct (truthy (group m 1)) eqn:?;
              [intros ?Hv;
               eapply (Hone _ _ _ m);
               [eassumption|reflexivity|vm_compute; reflexivity
               |vm_compute; lia|vm_compute; lia|eassumption|eassumption]|]|]
         end; done.
Qed.

Lemma extracted_phone_origin h message v :
  extractWithPatterns h message !! "phoneNumber" = Some v ->
  firstCapture phonePatterns message = Some v.
Proof.
  unfold extractWithPatterns.
  assert (forall e : gmap string string,
            match parseNaturalTime message with
            | Some timeResult =>
                if truthy (Some timeResult)
                then <["preferredTime" := timeResult]>
                       (match parseNaturalDate h message with
                        | Some dateResult =>
                            if truthy (Some dateResult)
                            then <["preferredDate" := dateResult]> e else e
                        | None => e
                        end)
                else match parseNaturalDate h message with
                     | Some dateResult =>
                         if truthy (Some dateResult)
                         then <["preferredDate" := dateResult]> e else e
                     | None => e
                     end
            | None => match parseNaturalDate h message with
                      | Some dateResult =>
                          if truthy (Some dateResult)
                          then <["preferredDate" := dateResult]> e else e
                      | None => e
                      end
            end !! "phoneNumber" = e !! "phoneNumber") as Hrest.
  { intros e. destruct (parseNaturalTime message) as [t|];
      [destruct (truthy (Some t))|];
      (destruct (parseNaturalDate h message) as [d|];
       [destruct (truthy (Some d))|]);
      by simplify_map_eq. }
  rewrite Hrest. clear Hrest.
  unfold FIELD_CONFIG. cbn [foldl extractField extractPatterns fst snd].
  destruct (firstCapture ownerNamePatterns message);
    destruct (firstCapture petNamePatterns message);
    destruct (firstCapture phonePatterns message);
    by simplify_map_eq.
Qed.

(** ** Restarting, confirming and editing *)

Lemma restart_keyword_found kw s :
  In kw restartKeywords -> occursAsWord kw s -> test restartRe s = true.
Proof.
  intros Hkw (pre & post & -> & Hpre & Hpost).
  unfold test. apply bool_decide_eq_true. unfold exec.
  apply search_found. unfold restartRe. cbn [icase body].
  simpl in Hkw.
  destruct Hkw as [<-|[<-|[<-|[<-|[]]]]];
    (eapply bounded_keyword_matches; [exact Hpre|reflexivity|reflexivity| |exact Hpost|];
     [by destruct (lastChar None pre)|]; intros x k _ H; cbn [alt]).
  - by apply matcher_alt_l.
  - by apply matcher_alt_r, matcher_alt_l.
  - by do 2 apply matcher_alt_r; apply matcher_alt_l.
  - by do 3 apply matcher_alt_r.
Qed.

(** X1. An utterance in which a restart keyword occurs as a whole word or
    phrase, and that carries no cancel signal, is answered with the action
    [restarted], the fixed restart text and a fresh state: active, not
    confirming, with no collected field, whatever the state was. *)
Theorem restart_keyword_restarts (h : Host) (ai : option Extracted)
    (message : string) (s : BookingState) (kw : string) :
  In kw restartKeywords ->
  occursAsWord kw (toLowerCase message) ->
  wantsToCancel (analyzeMessage h ai message) = false ->
  exists r,
    processMessage h ai message s = Some r
    /\ action r = Restarted
    /\ state r = createBookingState ∅
    /\ collectedFields (state r) = ∅
    /\ isActive (state r) = true
    /\ isConfirming (state r) = false
    /\ response r = Some restartText.
Proof.
  intros Hkw Hocc Hc.
  assert (wantsToRestart (analyzeMessage h ai message) = true) as Hr.
  { pose proof (restart_keyword_found kw _ Hkw Hocc) as Ht.
    unfold analyzeMessage, keywordRestart. destruct ai as [a|]; cbn [wantsToRestart].
    - rewrite Ht. apply orb_true_r.
    - exact Ht. }
  unfold processMessage. rewrite Hc, Hr. eexists. by split_and!.
Qed.

(** A witness of X1: a restart phrase in capitals, in a state that awaits
    the confirmation. *)
Lemma restart_keyword_restarts_witness :
  exists r,
    processMessage strictHost None "Yes, let's START OVER" confirmingState = Some r
    /\ action r = Restarted
    /\ state r = createBookingState ∅
    /\ collectedFields (state r) = ∅
    /\ isActive (state r) = true
    /\ isConfirming (state r) = false
    /\ response r = Some restartText.
Proof.
  apply (restart_keyword_restarts strictHost None "Yes, let's START OVER"
           confirmingState "start over").
  - simpl. auto.
  - exists "yes, let's ", EmptyString. repeat split.
  - vm_compute. reflexivity.
Defined.

(** A pattern [^(w1|w2|...)] matches a text that begins with one of the
    words. *)
Lemma anchored_word_matches (alts : Regex) (w post : string) :
  (forall x k, is_Some (matcher true (lit w) x k) -> is_Some (matcher true alts x k)) ->
  test {| icase := true; body := seq [RBol; RGroup 1 alts] |} (w +:+ post) = true.
Proof.
  intros Halt. unfold test. apply bool_decide_eq_true. unfold exec.
  cbn [icase body seq]. apply search_anchored.
  rewrite matcher_seq, matcher_group. apply Halt.
  rewrite matcher_lit. cbn [matcher]. eauto.
Qed.

Lemma yes_word_found w s :
  In w yesWords -> beginsWith w s -> test yesRe s = true.
Proof.
  intros Hw [post ->]. unfold yesRe. apply anchored_word_matches.
  simpl in Hw. intros x k H. cbn [alt].
  destruct Hw as [<-|[<-|[<-|[<-|[<-|[<-|[<-|[<-|[<-|[]]]]]]]]]].
  - by apply matcher_alt_l.
  - by apply matcher_alt_r, matcher_alt_l.
  - by do 2 apply matcher_alt_r; apply matcher_alt_l.
  - by do 3 apply matcher_alt_r; apply matcher_alt_l.
  - by do 4 apply matcher_alt_r; apply matcher_alt_l.
  - by do 5 apply matcher_alt_r; apply matcher_alt_l.
  - by do 6 apply matcher_alt_r; apply matcher_alt_l.
  - by do 7 apply matcher_alt_r; apply matcher_alt_l.
  - by do 8 apply matcher_alt_r.
Qed.

Lemma no_word_found w s :
  In w noWords -> beginsWith w s -> test noRe s = true.
Proof.
  intros Hw [post ->]. unfold noRe. apply anchored_word_matches.
  simpl in Hw. intros x k H. cbn [alt].
  destruct Hw as [<-|[<-|[<-|[<-|[<-|[<-|[<-|[]]]]]]]].
  - by apply matcher_alt_l.
  - by apply matcher_alt_r, matcher_alt_l.
  - by do 2 apply matcher_alt_r; apply matcher_alt_l.
  - by do 3 apply matcher_alt_r; apply matcher_alt_l.
  - by do 4 apply matcher_alt_r; apply matcher_alt_l.
  - by do 5 apply matcher_alt_r; apply matcher_alt_l.
  - by do 6 apply matcher_alt_r.
Qed.

(** A text that begins with a negative word begins with no affirmative
    word. *)
Lemma no_word_not_yes w s :
  In w noWords -> beginsWith w s -> test yesRe s = false.
Proof.
  intros Hw [post ->]. unfold test. apply bool_decide_eq_false.
  unfold exec, yesRe. cbn [icase body seq]. rewrite search_anchored.
  simpl in Hw.
  destruct Hw as [<-|[<-|[<-|[<-|[<-|[<-|[<-|[]]]]]]]];
    rewrite !append_cons, append_nil; vm_compute; by intros [? ?].
Qed.

Lemma confirmation_of_keyword h ai message c :
  noModelConfirmation ai ->
  keywordConfirmation message = Some c -> c <> EmptyString ->
  confirmation (analyzeMessage h ai message) = Some c.
Proof.
  intros Hai Hk Hc. unfold analyzeMessage.
  destruct ai as [a|]; cbn [confirmation]; [|done].
  simpl in Hai. unfold orElse. by rewrite Hai.
Qed.

(** X2. In a state that awaits the confirmation, an utterance that begins
    with an affirmative word (whatever follows it, and whatever the case of
    its letters) and carries no cancel or restart signal is answered with the
    action [confirmed] and a null response; the state is marked complete and
    the collected fields are those of the summary. *)
Theorem affirmative_reply_confirms (h : Host) (ai : option Extracted)
    (message : string) (s : BookingState) (w : string) :
  isConfirming s = true ->
  In w yesWords ->
  beginsWith w (toLowerCase message) ->
  noModelConfirmation ai ->
  wantsToCancel (analyzeMessage h ai message) = false ->
  wantsToRestart (analyzeMessage h ai message) = false ->
  exists r,
    processMessage h ai message s = Some r
    /\ action r = Confirmed
    /\ response r = None
    /\ state r = withComplete true s
    /\ collectedFields (state r) = collectedFields s
    /\ isComplete_ (state r) = true.
Proof.
  intros Hs Hw Hb Hai Hc Hr.
  assert (confirmation (analyzeMessage h ai message) = Some "yes") as Hy.
  { apply confirmation_of_keyword; [done| |done].
    unfold keywordConfirmation. by rewrite (yes_word_found w _ Hw Hb). }
  unfold processMessage. rewrite Hc, Hr, Hs, Hy. cbn [truthy andb].
  rewrite bool_decide_eq_true_2 by done. eexists. by split_and!.
Qed.

(** A witness of X2: "yesterday" begins with "yes". *)
Lemma affirmative_reply_confirms_witness :
  exists r,
    processMessage strictHost None "Yesterday" confirmingState = Some r
    /\ action r = Confirmed
    /\ response r = None
    /\ state r = withComplete true confirmingState
    /\ collectedFields (state r) = collectedFields confirmingState
    /\ isComplete_ (state r) = true.
Proof.
  apply (affirmative_reply_confirms strictHost None "Yesterday" confirmingState "yes").
  - reflexivity.
  - simpl. auto.
  - by exists "terday".
  - exact I.
  - vm_compute. reflexivity.
  - vm_compute. reflexivity.
Defined.

(** X3. In a state that awaits the confirmation, an utterance that begins
    with a negative word and carries no cancel or restart signal is answered
    with the action [edit_requested] and the fixed question; the state leaves
    the confirmation and keeps every collected field. *)
Theorem negative_reply_requests_edit (h : Host) (ai : option Extracted)
    (message : string) (s : BookingState) (w : string) :
  isConfirming s = true ->
  In w noWords ->
  beginsWith w (toLowerCase message) ->
  noModelConfirmation ai ->
  wantsToCancel (analyzeMessage h ai message) = false ->
  wantsToRestart (analyzeMessage h ai message) = false ->
  exists r,
    processMessage h ai message s = Some r
    /\ action r = EditRequested
    /\ response r = Some editText
    /\ state r = withConfirming false s
    /\ collectedFields (state r) = collectedFields s
    /\ isConfirming (state r) = false.
Proof.
  intros Hs Hw Hb Hai Hc Hr.
  assert (confirmation (analyzeMessage h ai message) = Some "no") as Hn.
  { apply confirmation_of_keyword; [done| |done].
    unfold keywordConfirmation.
    by rewrite (no_word_not_yes w _ Hw Hb), (no_word_found w _ Hw Hb). }
  unfold processMessage. rewrite Hc, Hr, Hs, Hn. cbn [truthy andb].
  rewrite bool_decide_eq_false_2 by done. eexists. by split_and!.
Qed.

(** A witness of X3: "Nobody" begins with "no". *)
Lemma negative_reply_requests_edit_witness :
  exists r,
    processMessage strictHost None "Nobody told me" confirmingState = Some r
    /\ action r = EditRequested
    /\ response r = Some editText
    /\ state r = withConfirming false confirmingState
    /\ collectedFields (state r) = collectedFields confirmingState
    /\ isConfirming (state r) = false.
Proof.
  apply (negative_reply_requests_edit strictHost None "Nobody told me"
           confirmingState "no").
  - reflexivity.
  - simpl. auto.
  - by exists "body told me".
  - exact I.
  - vm_compute. reflexivity.
  - vm_compute. reflexivity.
Defined.

(** ** The loop over the required fields *)

Lemma collectField_accepted h ex acc f :
  accepted h ex f = true ->
  updatedFields (collectField h ex acc f)
  = <[f := default EmptyString (ex !! f)]> (updatedFields acc).
Proof.
  unfold accepted, collectField. intros [Ht Hv]%andb_prop. rewrite Ht.
  by destruct (validateField h f (ex !! f)).
Qed.

Lemma collectField_not_accepted h ex acc f :
  accepted h ex f = false ->
  updatedFields (collectField h ex acc f) = updatedFields acc.
Proof.
  unfold accepted, collectField. intros H.
  destruct (truthy (ex !! f)); [|done].
  by destruct (validateField h f (ex !! f)).
Qed.

Lemma truthy_default (o : option string) :
  truthy o = true -> Some (default EmptyString o) = o.
Proof. by destruct o. Qed.

Lemma collect_fold_lookup h ex l : forall acc key,
  updatedFields (foldl (collectField h ex) acc l) !! key
  = if existsb (String.eqb key) l && accepted h ex key
    then ex !! key else updatedFields acc !! key.
Proof.
  induction l as [|f l IH]; intros acc key; [done|].
  cbn [foldl existsb]. rewrite IH.
  destruct (existsb (String.eqb key) l) eqn:El; cbn [andb orb].
  - rewrite orb_true_r. cbn [andb].
    destruct (accepted h ex key) eqn:Ea; [done|].
    destruct (String.eqb_spec key f) as [->|Hne].
    + by rewrite collectField_not_accepted.
    + destruct (accepted h ex f) eqn:Ef.
      * rewrite collectField_accepted by done. by rewrite lookup_insert_ne.
      * by rewrite collectField_not_accepted.
  - rewrite orb_false_r.
    destruct (String.eqb_spec key f) as [->|Hne]; cbn [andb].
    + destruct (accepted h ex f) eqn:Ef.
      * rewrite collectField_accepted by done. rewrite lookup_insert_eq.
        apply truthy_default. unfold accepted in Ef.
        by apply andb_prop in Ef as [? _].
      * by rewrite collectField_not_accepted.
    + destruct (accepted h ex f) eqn:Ef.
      * rewrite collectField_accepted by done. by rewrite lookup_insert_ne.
      * by rewrite collectField_not_accepted.
Qed.

Lemma existsb_eqb_In key l : existsb (String.eqb key) l = true <-> In key l.
Proof.
  rewrite existsb_exists. split.
  - intros (x & Hin & ->%String.eqb_eq). done.
  - intros Hin. exists key. by rewrite String.eqb_refl.
Qed.

(** X4. What the loop over the required fields stores: a required field
    whose extracted value is truthy and passes the validator takes that
    value, replacing a value collected before; every other key keeps what was
    collected, be it a required field with no extracted value or with a
    refused one, or a key that is not a required field (whatever the
    extraction says about it). *)
Theorem collectAll_stores (h : Host) (extracted collected : gmap string string)
    (key : string) :
  updatedFields (collectAll h extracted collected) !! key
  = if bool_decide (In key REQUIRED_FIELDS) && accepted h extracted key
    then extracted !! key else collected !! key.
Proof.
  unfold collectAll. rewrite collect_fold_lookup. cbn [updatedFields].
  destruct (existsb (String.eqb key) REQUIRED_FIELDS) eqn:E.
  - apply existsb_eqb_In in E. by rewrite bool_decide_eq_true_2.
  - rewrite bool_decide_eq_false_2; [done|].
    intros Hin%existsb_eqb_In. congruence.
Qed.

Lemma collectField_rejected h ex acc f :
  rejected h ex f = true ->
  invalidField (collectField h ex acc f) = Some f
  /\ exists e, validateField h f (ex !! f) = Invalid e
               /\ validationError (collectField h ex acc f) = Some e.
Proof.
  unfold rejected, collectField. intros [Ht Hv]%andb_prop. rewrite Ht.
  destruct (validateField h f (ex !! f)) as [|e]; [done|]. eauto.
Qed.

Lemma collectField_not_rejected h ex acc f :
  rejected h ex f = false ->
  invalidField (collectField h ex acc f) = invalidField acc
  /\ validationError (collectField h ex acc f) = validationError acc.
Proof.
  unfold rejected, collectField. intros H.
  destruct (truthy (ex !! f)); [|done].
  by destruct (validateField h f (ex !! f)).
Qed.

Lemma collect_fold_invalid h ex l : forall acc,
  match last (List.filter (rejected h ex) l) with
  | Some f =>
      invalidField (foldl (collectField h ex) acc l) = Some f
      /\ exists e, validateField h f (ex !! f) = Invalid e
                   /\ validationError (foldl (collectField h ex) acc l) = Some e
  | None =>
      invalidField (foldl (collectField h ex) acc l) = invalidField acc
      /\ validationError (foldl (collectField h ex) acc l) = validationError acc
  end.
Proof.
  induction l as [|f l IH]; intros acc; [done|].
  cbn [foldl List.filter]. specialize (IH (collectField h ex acc f)).
  destruct (rejected h ex f) eqn:Ef.
  - destruct (List.filter (rejected h ex) l) as [|g l'] eqn:El.
    + cbn [last] in *. destruct IH as [-> ->].
      by apply collectField_rejected.
    + change (last (f :: g :: l')) with (last (g :: l')).
      assert (is_Some (last (g :: l'))) as [x Hx] by by apply last_is_Some.
      by rewrite Hx in *.
  - destruct (last (List.filter (rejected h ex) l)); [done|].
    destruct IH as [-> ->]. by apply collectField_not_rejected.
Qed.

Lemma processMessage_collecting h ai message s r :
  processMessage h ai message s = Some r ->
  action r = Collecting ->
  let c := collectAll h (fields (analyzeMessage h ai message)) (collectedFields s) in
  collectedFields (state r) = updatedFields c
  /\ isComplete (updatedFields c) = false
  /\ match invalidField c with
     | Some field =>
         response r = Some (generatePrompt field true)
         /\ errorField (state r) = Some field
         /\ lastError (state r) = validationError c
     | None =>
         exists nextField nextPrompt,
           getNextField (updatedFields c) = Some (nextField, nextPrompt)
           /\ currentField (state r) = Some nextField
           /\ errorField (state r) = errorField s
           /\ response r
              = Some (if hasNewData c
                      then getAcknowledgment
                             (acknowledgedFields (fields (analyzeMessage h ai message)))
                           +:+ nl +:+ nl +:+ nextPrompt
                      else nextPrompt)
     end.
Proof.
  unfold processMessage.
  destruct (wantsToCancel _); [by intros [= <-]|].
  destruct (wantsToRestart _); [by intros [= <-]|].
  destruct (isConfirming s && truthy _);
    [destruct (bool_decide _); by intros [= <-]|].
  set (c := collectAll h (fields (analyzeMessage h ai message)) (collectedFields s)).
  destruct (isComplete (updatedFields c)) eqn:Hc.
  - destruct (generateConfirmationMessage h (updatedFields c));
      [by intros [= <-]|done].
  - destruct (invalidField c) as [field|].
    + intros [= <-] _. cbn. by split_and!.
    + pose proof (getNextField_incomplete _ Hc) as [[nf np] Hn]. rewrite Hn.
      intros [= <-] _. cbn. split_and!; [done|done|]. exists nf, np. by split_and!.
Qed.

(** X5. When several extracted values are refused in one turn, the retry
    prompt is that of the last refused field in the fixed order of the
    required fields: the turn answers with the error prompt of that field and
    records it, with the reason its validator gave, as the error of the
    state.  (This holds whenever the turn goes on collecting.) *)
Theorem last_refused_field_prompts (h : Host) (ai : option Extracted)
    (message : string) (s : BookingState) (r : Result) (f : string) :
  processMessage h ai message s = Some r ->
  action r = Collecting ->
  last (List.filter (rejected h (fields (analyzeMessage h ai message)))
          REQUIRED_FIELDS) = Some f ->
  response r = Some (generatePrompt f true)
  /\ errorField (state r) = Some f
  /\ exists reason,
       validateField h f (fields (analyzeMessage h ai message) !! f)
       = Invalid reason
       /\ lastError (state r) = Some reason.
Proof.
  intros Hp Ha Hl.
  destruct (processMessage_collecting _ _ _ _ _ Hp Ha) as (_ & _ & H).
  pose proof (collect_fold_invalid h (fields (analyzeMessage h ai message))
                REQUIRED_FIELDS
                {| updatedFields := collectedFields s; hasNewData := false;
                   invalidField := None; validationError := None |}) as Hi.
  rewrite Hl in Hi. destruct Hi as (Hi & e & He & Hv).
  fold (collectAll h (fields (analyzeMessage h ai message)) (collectedFields s))
    in Hi, Hv.
  rewrite Hi in H. destruct H as (? & ? & Hle). split_and!; [done|done|].
  exists e. split; [done|]. by rewrite Hle.
Qed.

(** A witness of X5: a name with a digit and an hour that does not exist,
    in one utterance; the time comes last in the order of the fields. *)
Lemma last_refused_field_prompts_witness :
  exists r,
    processMessage strictHost None "I'm 5 minutes away, see you at 99pm" emptyState
    = Some r
    /\ response r = Some (generatePrompt "preferredTime" true)
    /\ errorField (state r) = Some "preferredTime"
    /\ exists reason,
         validateField strictHost "preferredTime"
           (fields (analyzeMessage strictHost None
                      "I'm 5 minutes away, see you at 99pm") !! "preferredTime")
         = Invalid reason
         /\ lastError (state r) = Some reason.
Proof.
  eexists. split; [vm_compute; reflexivity|].
  apply (last_refused_field_prompts strictHost None
           "I'm 5 minutes away, see you at 99pm" emptyState).
  - vm_compute. reflexivity.
  - reflexivity.
  - vm_compute. reflexivity.
Defined.

(** ** The next field *)

Lemma filter_head {A} (P : A -> bool) (l : list A) x t :
  List.filter P l = x :: t ->
  P x = true
  /\ exists l1 l2, l = (l1 ++ x :: l2)%list /\ forall g, In g l1 -> P g = false.
Proof.
  induction l as [|a l IH]; [done|]. cbn [List.filter].
  destruct (P a) eqn:Ea.
  - intros [= -> <-]. split; [done|]. exists [], l. split; [done|]. by intros ? [].
  - intros H. destruct (IH H) as (Hx & l1 & l2 & -> & Hl1). split; [done|].
    exists (a :: l1), l2. split; [done|]. intros g [<-|Hg]; [done|by apply Hl1].
Qed.

(** X6. The field asked for next is the first of the required fields, in
    their fixed order, that is still missing, with its first-time prompt;
    there is none exactly when the collected fields are complete. *)
Theorem next_field_is_first_missing (collected : gmap string string) :
  (getNextField collected = None <-> isComplete collected = true)
  /\ forall f p,
       getNextField collected = Some (f, p) ->
       isMissing collected f = true
       /\ p = generatePrompt f false
       /\ exists earlier later,
            REQUIRED_FIELDS = (earlier ++ f :: later)%list
            /\ forall g, In g earlier -> isMissing collected g = false.
Proof.
  unfold getNextField, isComplete.
  destruct (getMissingFields collected) as [|nf l] eqn:E.
  - split; [done|]. by intros f p.
  - assert (In nf REQUIRED_FIELDS) as Hin.
    { apply (getMissingFields_required collected). rewrite E. by left. }
    destruct (required_has_config nf Hin) as [config Hc]. rewrite Hc.
    split; [split; [done|simpl; lia]|].
    intros f p [= <- <-]. unfold getMissingFields in E.
    apply filter_head in E as (Hm & l1 & l2 & Hl & Hl1).
    split_and!; [done| |by exists l1, l2].
    unfold generatePrompt. by rewrite Hc.
Qed.

(** ** What a turn stores *)


(** X7. A turn never stores a value it has not validated: every value
    under a key of the collected fields after a turn was either there before
    the turn, or belongs to a required field, was extracted in this turn and
    passed the validator of its field.  In particular an extraction of the
    model for a key that is not a required field is never stored. *)
Theorem stored_value_origin (h : Host) (ai : option Extracted) (message : string)
    (s : BookingState) (r : Result) (key v : string) :
  processMessage h ai message s = Some r ->
  collectedFields (state r) !! key = Some v ->
  collectedFields s !! key = Some v
  \/ (In key REQUIRED_FIELDS
      /\ fields (analyzeMessage h ai message) !! key = Some v
      /\ validateField h key (Some v) = Valid).
Proof.
  intros Hp Hv.
  destruct (processMessage_shape _ _ _ _ _ Hp)
    as [_ ->| _ _ ->| _ ->| _ ->|text c _ ->|st text c _ Hst _ ->];
    cbn [state collectedFields withActive withComplete withConfirming withFields
         createBookingState] in Hv.
  - by left.
  - by rewrite lookup_empty in Hv.
  - by left.
  - by left.
  - by apply (collect_fold_origin h _ REQUIRED_FIELDS) in Hv.
  - rewrite Hst in Hv. by apply (collect_fold_origin h _ REQUIRED_FIELDS) in Hv.
Qed.

(** A witness of X7: the phone number, given when it is asked for. *)
Lemma stored_value_origin_witness :
  collectedFields awaitingPhone !! "phoneNumber" = Some "555-123-4567"
  \/ (In "phoneNumber" REQUIRED_FIELDS
      /\ fields (analyzeMessage strictHost None "call 555-123-4567")
         !! "phoneNumber" = Some "555-123-4567"
      /\ validateField strictHost "phoneNumber" (Some "555-123-4567") = Valid).
Proof.
  eapply (stored_value_origin strictHost None "call 555-123-4567" awaitingPhone).
  - vm_compute. reflexivity.
  - vm_compute. reflexivity.
Defined.

(** ** Values that pass a validator are not blank *)

(** A case-sensitive pattern only matches in a text with at least as many
    digits as every text it consumes. *)
Lemma exec_digits r s m :
  exec {| icase := false; body := r |} s = Some m ->
  (minDigits r <= digitCount s)%nat.
Proof.
  unfold exec. cbn [icase body]. intros H.
  apply search_inv in H as (pre & x & z & -> & _ & Hz & _ & _).
  apply matcher_sound in Hz as (t & y & -> & _ & Ht & _).
  apply matches_digits in Ht as [Hlo _].
  rewrite !digitCount_append. lia.
Qed.

Lemma blank_no_digit v : trim v = EmptyString -> digitCount v = 0%nat.
Proof. intros H. by rewrite <- digitCount_trim, H. Qed.

Lemma not_blank v :
  truthy (Some v) = true -> trim v <> EmptyString -> blank v = false.
Proof.
  intros Ht Hv. unfold blank. rewrite Ht. cbn [negb orb].
  by apply String.eqb_neq.
Qed.

Lemma valid_not_blank h f v :
  rejectsBlank h -> In f REQUIRED_FIELDS ->
  validateField h f (Some v) = Valid -> blank v = false.
Proof.
  intros Hh Hf. simpl in Hf.
  destruct Hf as [<-|[<-|[<-|[<-|[<-|[]]]]]].
  - change (validateField h "petOwnerName") with (validateOwnerName h).
    unfold validateOwnerName.
    destruct (truthy (Some v)) eqn:Ht; [|done]. cbn [negb orb].
    destruct (Nat.ltb_spec (String.length (trim v)) 2); [done|]. intros _.
    apply not_blank; [done|]. intros E. rewrite E in *. simpl in *. lia.
  - change (validateField h "petName") with (validatePetName h).
    unfold validatePetName.
    destruct (truthy (Some v)) eqn:Ht; [|done]. cbn [negb orb].
    destruct (Nat.ltb_spec (String.length (trim v)) 1); [done|]. intros _.
    apply not_blank; [done|]. intros E. rewrite E in *. simpl in *. lia.
  - change (validateField h "phoneNumber") with (validatePhone h).
    unfold validatePhone.
    destruct (truthy (Some v)) eqn:Ht; [|done]. cbn [negb].
    destruct (Nat.ltb_spec (String.length (digitsOf v)) 10); [done|]. intros _.
    apply not_blank; [done|]. intros E%blank_no_digit.
    unfold digitCount in E. lia.
  - change (validateField h "preferredDate") with (validateDate h).
    unfold validateDate.
    destruct (truthy (Some v)) eqn:Ht; [|done]. cbn [negb].
    destruct (dateParse h v) eqn:Hd; [|done]. intros _.
    apply not_blank; [done|]. intros E. by rewrite (Hh v E) in Hd.
  - change (validateField h "preferredTime") with (validateTime h).
    unfold validateTime.
    destruct (truthy (Some v)) eqn:Ht; [|done]. cbn [negb].
    destruct (test timeFormatRe v) eqn:Hm; [|done]. intros _.
    apply not_blank; [done|]. intros E%blank_no_digit.
    unfold test in Hm. apply bool_decide_eq_true in Hm as [m Hm].
    apply exec_digits in Hm.
    match type of Hm with
    | (?a <= _)%nat => let n := eval vm_compute in a in change a with n in Hm
    end.
    lia.
Qed.

(** The sample host reads no blank text as a date. *)
Lemma strictHost_rejectsBlank : rejectsBlank strictHost.
Proof.
  intros v E%blank_no_digit. cbn [dateParse strictHost]. unfold isoDateParse.
  destruct (exec isoDateOnlyRe v) as [m|] eqn:Hm; [|done].
  apply exec_digits in Hm.
    match type of Hm with
    | (?a <= _)%nat => let n := eval vm_compute in a in change a with n in Hm
    end.
    lia.
Qed.

(** ** Complete maps stay complete *)

Lemma filter_nil {A} (P : A -> bool) (l : list A) :
  List.filter P l = [] <-> forall x, In x l -> P x = false.
Proof.
  induction l as [|a l IH]; cbn [List.filter]; [by split|].
  destruct (P a) eqn:Ea; split.
  - done.
  - intros H. rewrite (H a) in Ea; [done|by left].
  - intros H x [<-|Hx]; [done|by apply IH].
  - intros H. apply IH. intros x Hx. apply H. by right.
Qed.

Lemma isComplete_iff (m : gmap string string) :
  isComplete m = true <-> forall f, In f REQUIRED_FIELDS -> isMissing m f = false.
Proof.
  unfold isComplete, getMissingFields. rewrite <- filter_nil.
  destruct (List.filter (isMissing m) REQUIRED_FIELDS); simpl; split; done.
Qed.

Lemma collectAll_keeps_complete h ex (m : gmap string string) :
  rejectsBlank h ->
  isComplete m = true -> isComplete (updatedFields (collectAll h ex m)) = true.
Proof.
  intros Hh Hm. rewrite isComplete_iff in *. intros f Hf.
  specialize (Hm f Hf). unfold isMissing in *. unfold collectAll.
  rewrite collect_fold_lookup. cbn [updatedFields].
  destruct (existsb (String.eqb f) REQUIRED_FIELDS && accepted h ex f) eqn:E;
    [|done].
  apply andb_prop in E as [_ [Ht Hv]%andb_prop].
  destruct (ex !! f) as [v|] eqn:Ev; [|done].
  apply (valid_not_blank h f v Hh Hf).
  by destruct (validateField h f (Some v)).
Qed.

(** The results of a turn, branch by branch. *)
Lemma processMessage_cases h ai message s r :
  processMessage h ai message s = Some r ->
  let c := collectAll h (fields (analyzeMessage h ai message)) (collectedFields s) in
  (wantsToCancel (analyzeMessage h ai message) = true
   /\ r = {| state := withActive false s; response := Some cancelText;
             action := Cancelled |})
  \/ (wantsToRestart (analyzeMessage h ai message) = true
      /\ r = {| state := createBookingState ∅; response := Some restartText;
                action := Restarted |})
  \/ (isConfirming s = true
      /\ r = {| state := withComplete true s; response := None;
                action := Confirmed |})
  \/ (isConfirming s = true
      /\ r = {| state := withConfirming false s; response := Some editText;
                action := EditRequested |})
  \/ (isComplete (updatedFields c) = true
      /\ exists text,
           generateConfirmationMessage h (updatedFields c) = Some text
           /\ r = {| state := withConfirming true (withFields (updatedFields c) s);
                     response := Some text; action := Confirming |})
  \/ (isComplete (updatedFields c) = false
      /\ action r = Collecting
      /\ collectedFields (state r) = updatedFields c
      /\ isActive (state r) = isActive s
      /\ isConfirming (state r) = isConfirming s).
Proof.
  intros Hp c. revert Hp. unfold processMessage. fold c.
  destruct (wantsToCancel _); [intros [= <-]; by left|].
  destruct (wantsToRestart _); [intros [= <-]; by right; left|].
  destruct (isConfirming s && truthy (confirmation _)) eqn:Hb.
  - apply andb_prop in Hb as [Hs _].
    destruct (bool_decide _); intros [= <-];
      [by right; right; left|by right; right; right; left].
  - destruct (isComplete (updatedFields c)) eqn:Hc.
    + destruct (generateConfirmationMessage h _) as [text|] eqn:Hg; [|done].
      intros [= <-]. do 4 right. left. eauto.
    + intros Hp. do 5 right. revert Hp.
      destruct (invalidField c);
        [|destruct (getNextField _) as [[nf np]|]];
        intros [= <-]; by split_and!.
Qed.

(** X8. Once no required field is missing, no turn makes one missing
    again short of a restart: on a host that reads no blank text as a date,
    a turn from a complete map never answers with the action [collecting],
    and unless it restarts the map of its state is complete again. *)
Theorem complete_stays_complete (h : Host) (ai : option Extracted)
    (message : string) (s : BookingState) (r : Result) :
  rejectsBlank h ->
  isComplete (collectedFields s) = true ->
  processMessage h ai message s = Some r ->
  action r <> Collecting
  /\ (action r <> Restarted -> isComplete (collectedFields (state r)) = true).
Proof.
  intros Hh Hc Hp.
  pose proof (collectAll_keeps_complete h (fields (analyzeMessage h ai message))
                _ Hh Hc) as Hk.
  destruct (processMessage_cases _ _ _ _ _ Hp)
    as [[_ ->]|[[_ ->]|[[_ ->]|[[_ ->]|[(_ & text & _ & ->)|(Hn & _)]]]]];
    try done.
  congruence.
Qed.

(** A witness of X8: a new time given while the confirmation is awaited. *)
Lemma complete_stays_complete_witness :
  exists r,
    processMessage strictHost None "make it 3pm" confirmingState = Some r
    /\ action r <> Collecting
    /\ (action r <> Restarted -> isComplete (collectedFields (state r)) = true).
Proof.
  eexists. split; [vm_compute; reflexivity|].
  apply (complete_stays_complete strictHost None "make it 3pm" confirmingState).
  - exact strictHost_rejectsBlank.
  - vm_compute. reflexivity.
  - vm_compute. reflexivity.
Defined.

Lemma processMessage_confirming_complete h ai message s r :
  rejectsBlank h ->
  (isConfirming s = true -> isComplete (collectedFields s) = true) ->
  processMessage h ai message s = Some r ->
  isConfirming (state r) = true -> isComplete (collectedFields (state r)) = true.
Proof.
  intros Hh Hs Hp.
  destruct (processMessage_cases _ _ _ _ _ Hp)
    as [[_ ->]|[[_ ->]|[[Hc ->]|[[_ ->]|[(Hc & text & _ & ->)|(Hn & _ & Hf & _ & Hi)]]]]];
    cbn; try done; try by auto.
  rewrite Hi, Hf. intros Hc. specialize (Hs Hc).
  by rewrite (collectAll_keeps_complete h _ _ Hh Hs) in Hn.
Qed.

(** ** The booking states of the sessions *)

Lemma setBookingState_other (store : gmap string BookingState) sid sid' st :
  sid' <> sid -> setBookingState store sid st !! sid' = store !! sid'.
Proof.
  intros Hne. assert (sid <> sid') as Hne' by congruence. unfold setBookingState.
  destruct st as [s|]; [destruct (isActive s)|];
    rewrite ?lookup_insert_ne, ?lookup_delete_ne by done; done.
Qed.

Lemma setBookingState_same (store : gmap string BookingState) sid st :
  setBookingState store sid st !! sid
  = match st with
    | Some s => if isActive s then Some s else None
    | None => None
    end.
Proof.
  unfold setBookingState.
  destruct st as [s|]; [destruct (isActive s)|];
    by rewrite ?lookup_insert_eq, ?lookup_delete_eq.
Qed.

Lemma bookingTurn_other h ai create message sid bs (store : gmap string BookingState) sid' :
  sid' <> sid ->
  (bookingTurn h ai create message sid bs store).1 !! sid' = store !! sid'.
Proof.
  intros Hne. unfold bookingTurn.
  destruct (processMessage h ai message bs) as [r|]; [|done].
  destruct (action r); cbn [fst];
    try destruct (create _); cbn [fst];
    by rewrite ?setBookingState_other.
Qed.

Lemma bookingTurn_same h ai create message sid bs (store : gmap string BookingState) :
  (bookingTurn h ai create message sid bs store).1 !! sid
  = match processMessage h ai message bs with
    | None => store !! sid
    | Some r =>
        match action r with
        | Confirmed =>
            match create (collectedFields (state r)) with
            | Some _ => None
            | None =>
                if isActive (state r) then Some (withConfirming false (state r))
                else None
            end
        | Cancelled => None
        | _ => if isActive (state r) then Some (state r) else None
        end
    end.
Proof.
  unfold bookingTurn.
  destruct (processMessage h ai message bs) as [r|]; [|done].
  destruct (action r); cbn [fst];
    try destruct (create _); cbn [fst];
    by rewrite ?setBookingState_same.
Qed.

Lemma firstTurn_other h ai intent conv message sid
    (store store' : gmap string BookingState) reply sid' :
  firstTurn h ai intent conv message sid store = Some (store', reply) ->
  sid' <> sid -> store' !! sid' = store !! sid'.
Proof.
  unfold firstTurn. intros H Hne.
  destruct (_ || _); [|by injection H as <- _].
  destruct (isComplete _).
  - destruct (generateConfirmationMessage _ _); [|done].
    injection H as <- _. cbn. rewrite lookup_insert_ne; congruence.
  - injection H as <- _. cbn. rewrite lookup_insert_ne; congruence.
Qed.

Lemma firstTurn_same h ai intent conv message sid
    (store store' : gmap string BookingState) reply s :
  firstTurn h ai intent conv message sid store = Some (store', reply) ->
  store' !! sid = Some s ->
  store !! sid = Some s
  \/ (isActive s = true
      /\ collectedFields s = initialDataOf h ai conv message
      /\ isConfirming s = isComplete (initialDataOf h ai conv message)
      /\ (isComplete (initialDataOf h ai conv message) = true ->
          is_Some (generateConfirmationMessage h (initialDataOf h ai conv message)))).
Proof.
  unfold firstTurn. intros H.
  destruct (_ || _); [|injection H as <- _; by left].
  destruct (isComplete _) eqn:Hc.
  - destruct (generateConfirmationMessage _ _) eqn:Hg; [|done].
    injection H as <- _. cbn. rewrite lookup_insert_eq.
    intros [= <-]. right. cbn. by split_and!.
  - injection H as <- _. cbn. rewrite lookup_insert_eq.
    intros [= <-]. right. by split_and!.
Qed.

Lemma sendMessage_other h ai intent create conv message sid
    (store store' : gmap string BookingState) reply sid' :
  sendMessage h ai intent create conv message sid store = Some (store', reply) ->
  sid' <> sid -> store' !! sid' = store !! sid'.
Proof.
  unfold sendMessage, getBookingState. intros H Hne.
  destruct (store !! sid) as [bs|] eqn:E; [destruct (isActive bs) eqn:Ea|];
    try by eapply firstTurn_other.
  injection H as H.
  pose proof (bookingTurn_other h ai create message sid bs store sid' Hne) as Ho.
  by rewrite H in Ho.
Qed.

(** A turn never returns an inactive state, except when it cancels. *)
Lemma processMessage_active h ai message s r :
  processMessage h ai message s = Some r ->
  isActive s = true -> action r <> Cancelled -> isActive (state r) = true.
Proof.
  intros Hp Hs.
  destruct (processMessage_cases _ _ _ _ _ Hp)
    as [[_ ->]|[[_ ->]|[[_ ->]|[[_ ->]|[(_ & text & _ & ->)|(_ & _ & _ & Ha & _)]]]]];
    cbn; try done. by rewrite Ha.
Qed.

Lemma processMessage_cancelled_inactive h ai message s r :
  processMessage h ai message s = Some r ->
  action r = Cancelled -> isActive (state r) = false.
Proof.
  intros Hp.
  destruct (processMessage_cases _ _ _ _ _ Hp)
    as [[_ ->]|[[_ ->]|[[_ ->]|[[_ ->]|[(_ & text & _ & ->)|(_ & Ha & _)]]]]];
    cbn; try done. by rewrite Ha.
Qed.

(** X9. A call of [sendMessage] reads and writes the booking state of its
    own session only, and the store never comes to hold an inactive state:
    the states of the other sessions are as before, and if every stored
    state was active then every stored state is active afterwards. *)
Theorem sendMessage_keeps_sessions_apart (h : Host) (ai : option Extracted)
    (aiIntentDetected : bool) (create : gmap string string -> option string)
    (conversation : Controller.Conversation) (message sessionId : string)
    (bookingStates bookingStates' : gmap string BookingState) (reply : Reply) :
  sendMessage h ai aiIntentDetected create conversation message sessionId
    bookingStates = Some (bookingStates', reply) ->
  (forall other, other <> sessionId ->
                 bookingStates' !! other = bookingStates !! other)
  /\ (allActive bookingStates -> allActive bookingStates').
Proof.
  intros H. split; [intros other; by eapply sendMessage_other|].
  intros Hall sid' s Hs.
  destruct (decide (sid' = sessionId)) as [->|Hne];
    [|rewrite (sendMessage_other _ _ _ _ _ _ _ _ _ _ _ H Hne) in Hs;
      by eapply Hall].
  unfold sendMessage, getBookingState in H.
  assert (forall H' : firstTurn h ai aiIntentDetected conversation message
                        sessionId bookingStates = Some (bookingStates', reply),
            isActive s = true) as Hfirst.
  { intros H'. destruct (firstTurn_same _ _ _ _ _ _ _ _ _ _ H' Hs) as [Ho|[? _]];
      [by eapply Hall|done]. }
  destruct (bookingStates !! sessionId) as [bs|] eqn:E;
    [destruct (isActive bs) eqn:Ea|]; try by apply Hfirst.
  injection H as H.
  pose proof (bookingTurn_same h ai create message sessionId bs bookingStates) as Hb.
  rewrite H in Hb. cbn [fst] in Hb. rewrite Hs in Hb.
  destruct (processMessage h ai message bs) as [r|] eqn:Hp;
    [|by eapply Hall].
  destruct (action r); try destruct (create _); try done;
    destruct (isActive (state r)) eqn:Hr; try done; by injection Hb as ->.
Qed.

(** A witness of X9: a first message with a booking intent, in a store that
    holds the state of another session. *)
Lemma sendMessage_keeps_sessions_apart_witness :
  exists store' reply,
    sendMessage strictHost None false creationFails noConversation
      "I need an appointment" "s2" {[ "s1" := awaitingPhone ]}
    = Some (store', reply)
    /\ (forall other, other <> "s2" ->
                      store' !! other
                      = ({[ "s1" := awaitingPhone ]} : gmap string BookingState) !! other)
    /\ (allActive {[ "s1" := awaitingPhone ]} -> allActive store').
Proof.
  eexists _, _. split; [vm_compute; reflexivity|].
  eapply (sendMessage_keeps_sessions_apart strictHost None false creationFails
            noConversation "I need an appointment" "s2").
  vm_compute. reflexivity.
Defined.

(** X10. On a host that reads no blank text as a date, [sendMessage] keeps
    the stored states in good order: if every stored state is active and,
    when it awaits the confirmation, has no required field missing, the same
    holds of every stored state afterwards.  So the summary is only ever
    awaited, and an appointment only ever confirmed, over a complete map. *)
Theorem sendMessage_keeps_well_formed (h : Host) (ai : option Extracted)
    (aiIntentDetected : bool) (create : gmap string string -> option string)
    (conversation : Controller.Conversation) (message sessionId : string)
    (bookingStates bookingStates' : gmap string BookingState) (reply : Reply) :
  rejectsBlank h ->
  (forall sid s, bookingStates !! sid = Some s -> wellFormed s) ->
  sendMessage h ai aiIntentDetected create conversation message sessionId
    bookingStates = Some (bookingStates', reply) ->
  forall sid s, bookingStates' !! sid = Some s -> wellFormed s.
Proof.
  intros Hh Hall H sid s Hs.
  destruct (decide (sid = sessionId)) as [->|Hne];
    [|rewrite (sendMessage_other _ _ _ _ _ _ _ _ _ _ _ H Hne) in Hs;
      by eapply Hall].
  unfold sendMessage, getBookingState in H.
  assert (forall H' : firstTurn h ai aiIntentDetected conversation message
                        sessionId bookingStates = Some (bookingStates', reply),
            wellFormed s) as Hfirst.
  { intros H'.
    destruct (firstTurn_same _ _ _ _ _ _ _ _ _ _ H' Hs) as [Ho|(Ha & Hf & Hc & _)];
      [by eapply Hall|].
    split; [done|]. by rewrite Hc, Hf. }
  destruct (bookingStates !! sessionId) as [bs|] eqn:E;
    [destruct (isActive bs) eqn:Ea|]; try by apply Hfirst.
  injection H as H.
  pose proof (bookingTurn_same h ai create message sessionId bs bookingStates) as Hb.
  rewrite H in Hb. cbn [fst] in Hb. rewrite Hs in Hb.
  destruct (processMessage h ai message bs) as [r|] eqn:Hp;
    [|by eapply Hall].
  destruct (Hall _ _ E) as [_ Hbs].
  pose proof (processMessage_confirming_complete _ _ _ _ _ Hh Hbs Hp) as Hr.
  destruct (action r); try destruct (create _); try done;
    destruct (isActive (state r)) eqn:Hact; try done; injection Hb as ->;
    by split.
Qed.

(** A witness of X10: the fifth field arrives and the summary is awaited. *)
Lemma sendMessage_keeps_well_formed_witness :
  exists store' reply,
    sendMessage strictHost None false creationFails noConversation
      "10am" "s1" {[ "s1" := awaitingTime ]}
    = Some (store', reply)
    /\ forall sid s, store' !! sid = Some s -> wellFormed s.
Proof.
  eexists _, _. split; [vm_compute; reflexivity|].
  eapply (sendMessage_keeps_well_formed strictHost None false creationFails
            noConversation "10am" "s1" {[ "s1" := awaitingTime ]}).
  - exact strictHost_rejectsBlank.
  - intros sid s [<- <-]%lookup_singleton_Some. split; [done|]. done.
  - vm_compute. reflexivity.
Defined.

(** X11. A session in booking mode leaves it in exactly two ways: the turn
    cancels, or the turn confirms and the appointment is created.  After
    every other turn the store holds the state the turn returned, and after a
    confirmation whose creation failed it holds that state with the
    confirmation flag cleared. *)
Theorem booking_mode_ends (h : Host) (ai : option Extracted)
    (create : gmap string string -> option string) (message sessionId : string)
    (bookingState : BookingState) (bookingStates : gmap string BookingState) (r : Result) :
  isActive bookingState = true ->
  processMessage h ai message bookingState = Some r ->
  let after := (bookingTurn h ai create message sessionId bookingState
                  bookingStates).1 !! sessionId in
  (after = None
   <-> action r = Cancelled
       \/ (action r = Confirmed /\ is_Some (create (collectedFields (state r)))))
  /\ (action r <> Cancelled -> action r <> Confirmed -> after = Some (state r))
  /\ (action r = Confirmed -> create (collectedFields (state r)) = None ->
      after = Some (withConfirming false (state r))).
Proof.
  intros Ha Hp after. subst after. rewrite bookingTurn_same, Hp.
  pose proof (processMessage_active _ _ _ _ _ Hp Ha) as Hact.
  destruct (action r) eqn:Er;
    try (rewrite Hact by done; split_and!; [|done|done]; split;
         [done|intros [?|[? _]]; done]).
  - rewrite Hact by done.
    destruct (create (collectedFields (state r))) as [text|] eqn:Ec.
    + split_and!; [|done|done]. split; [|done]. intros _. right. eauto.
    + split_and!; [|done|done]. split; [done|].
      intros [?|[_ [? ?]]]; done.
  - split_and!; [|done|done]. split; [by left|done].
Qed.

(** A witness of X11: the confirmation of a complete booking, with a
    creation that succeeds. *)
Lemma booking_mode_ends_witness :
  exists r,
    processMessage strictHost None "yes" confirmingState = Some r
    /\ let after := (bookingTurn strictHost None creationSucceeds "yes"
                       "s1" confirmingState {[ "s1" := confirmingState ]}).1
                    !! "s1" in
       (after = None
        <-> action r = Cancelled
            \/ (action r = Confirmed
                /\ is_Some (creationSucceeds (collectedFields (state r)))))
       /\ (action r <> Cancelled -> action r <> Confirmed -> after = Some (state r))
       /\ (action r = Confirmed ->
           creationSucceeds (collectedFields (state r)) = None ->
           after = Some (withConfirming false (state r))).
Proof.
  eexists. split; [vm_compute; reflexivity|].
  apply (booking_mode_ends strictHost None creationSucceeds "yes" "s1"
           confirmingState {[ "s1" := confirmingState ]}).
  - reflexivity.
  - vm_compute. reflexivity.
Defined.

(** X12. A confirmation whose creation fails loses nothing: the session
    keeps every collected field and stays active, with the confirmation flag
    cleared and the apology as reply.  The next turn, unless it cancels or
    restarts, does not create the appointment either: whatever the utterance,
    a yes included, it shows the summary again (action [confirming]) over a
    complete map. *)
Theorem failed_creation_keeps_booking (h : Host) (ai : option Extracted)
    (create : gmap string string -> option string) (message sessionId : string)
    (bookingState : BookingState) (bookingStates : gmap string BookingState) (r : Result) :
  wellFormed bookingState ->
  processMessage h ai message bookingState = Some r ->
  action r = Confirmed ->
  create (collectedFields (state r)) = None ->
  exists kept,
    bookingTurn h ai create message sessionId bookingState bookingStates
    = (<[sessionId := kept]> bookingStates, Said (Some creationFailedText))
    /\ collectedFields kept = collectedFields bookingState
    /\ isActive kept = true
    /\ isConfirming kept = false
    /\ forall h' ai' message' r',
         rejectsBlank h' ->
         processMessage h' ai' message' kept = Some r' ->
         wantsToCancel (analyzeMessage h' ai' message') = false ->
         wantsToRestart (analyzeMessage h' ai' message') = false ->
         action r' = Confirming
         /\ isConfirming (state r') = true
         /\ isComplete (collectedFields (state r')) = true.
Proof.
  intros [Ha Hc] Hp Hact Hcreate.
  destruct (processMessage_cases _ _ _ _ _ Hp)
    as [[_ ->]|[[_ ->]|[[Hconf ->]|[[_ ->]|[(_ & text & _ & ->)|(_ & Hcoll & _)]]]]];
    try done; [|cbn in Hact; congruence].
  cbn [state action collectedFields withComplete] in *.
  exists (withConfirming false (withComplete true bookingState)).
  split_and!; try done.
  - unfold bookingTurn. rewrite Hp. cbn [action state collectedFields withComplete].
    rewrite Hcreate. unfold setBookingState. cbn [isActive withConfirming withComplete].
    rewrite Ha. by rewrite insert_insert_eq.
  - intros h' ai' message' r' Hh' Hp' Hnc Hnr.
    specialize (Hc Hconf).
    destruct (processMessage_cases _ _ _ _ _ Hp')
      as [[E _]|[[E _]|[[E _]|[[E _]|[(Hk & text & _ & ->)|(Hn & _)]]]]];
      try congruence; try done.
    cbn [collectedFields withConfirming withComplete] in Hn.
    by rewrite (collectAll_keeps_complete h' _ _ Hh' Hc) in Hn.
Qed.

(** A witness of X12: the yes of a complete booking, with a creation that
    fails. *)
Lemma failed_creation_keeps_booking_witness :
  exists kept,
    bookingTurn strictHost None creationFails "yes" "s1" confirmingState
      {[ "s1" := confirmingState ]}
    = (<["s1" := kept]> {[ "s1" := confirmingState ]},
       Said (Some creationFailedText))
    /\ collectedFields kept = collectedFields confirmingState
    /\ isActive kept = true
    /\ isConfirming kept = false
    /\ forall h' ai' message' r',
         rejectsBlank h' ->
         processMessage h' ai' message' kept = Some r' ->
         wantsToCancel (analyzeMessage h' ai' message') = false ->
         wantsToRestart (analyzeMessage h' ai' message') = false ->
         action r' = Confirming
         /\ isConfirming (state r') = true
         /\ isComplete (collectedFields (state r')) = true.
Proof.
  eapply (failed_creation_keeps_booking strictHost None creationFails "yes" "s1"
            confirmingState {[ "s1" := confirmingState ]}).
  - split; [reflexivity|]. intros _. vm_compute. reflexivity.
  - vm_compute. reflexivity.
  - reflexivity.
  - reflexivity.
Defined.

(** ** No exception while a booking goes on *)








(** ** The window of the date validator *)

Lemma validateDate_window h v :
  validateField h "preferredDate" (Some v) = Valid
  <-> v <> EmptyString
      /\ exists date,
           dateParse h v = Some date
           /\ (todayOf h <= date <= JsDate.addDays (now h) 90)%Z.
Proof.
  change (validateField h "preferredDate") with (validateDate h).
  assert (JsDate.setDate (todayOf h) (JsDate.getDate (todayOf h) + 90)
          = JsDate.addDays (now h) 90) as Hmax by apply setDate_add.
  unfold validateDate. cbv zeta. rewrite Hmax.
  destruct v as [|c v]; cbn [truthy negb].
  { split; [done|]. by intros [? _]. }
  destruct (dateParse h (String c v)) as [date|].
  - destruct (Z.ltb_spec date (todayOf h)).
    + split; [done|]. intros (_ & d & [= <-] & ?). lia.
    + destruct (Z.ltb_spec (JsDate.addDays (now h) 90) date).
      * split; [done|]. intros (_ & d & [= <-] & ?). lia.
      * split; [|done]. intros _. split; [done|]. exists date. split; [done|lia].
  - split; [done|]. by intros (_ & d & [=] & _).
Qed.

(** X14. The date validator accepts a value exactly when it is not empty,
    the host reads it as a date, and that date lies from the start of today
    to the start of the day 90 days ahead, both included (a time of day
    later than midnight on that last day is refused).  For a date read as
    the midnight [n] days from today this is [0 <= n <= 90]. *)
Theorem date_validator_window (h : Host) (v : string) :
  (validateField h "preferredDate" (Some v) = Valid
   <-> v <> EmptyString
       /\ exists date,
            dateParse h v = Some date
            /\ (todayOf h <= date <= JsDate.addDays (now h) 90)%Z)
  /\ forall n : Z,
       v <> EmptyString ->
       dateParse h v = Some (JsDate.addDays (now h) n) ->
       (validateField h "preferredDate" (Some v) = Valid <-> (0 <= n <= 90)%Z).
Proof.
  split; [apply validateDate_window|].
  intros n Hv Hd. rewrite validateDate_window.
  unfold JsDate.addDays, todayOf, JsDate.msPerDay. split.
  - intros (_ & d & Hd' & Hr). rewrite Hd in Hd'. injection Hd' as <-.
    unfold JsDate.addDays, JsDate.msPerDay in Hr. lia.
  - intros Hn. split; [done|]. eexists. split; [exact Hd|].
    unfold JsDate.addDays, JsDate.msPerDay. lia.
Qed.

(** ** Dates in a zone away from UTC *)

(** X15. Whether the validator accepts the dates the parser itself makes
    depends on the zone of the host.  Where the host reads the text
    YYYY-MM-DD of the [n]-th day from today as a time [delta] away from the
    local midnight of that day (the standard reads the date-only form as
    midnight UTC, so [delta] is the offset of the zone), the validator
    accepts it exactly when [0 <= n days + delta <= 90 days]: with a negative
    offset "today" is refused as a date of the past, with a positive one the
    90th day is refused. *)
Theorem parsed_date_validity_depends_on_zone (h : Host) (n delta : Z) :
  dateParse h (formatDate (JsDate.addDays (now h) n))
  = Some (JsDate.addDays (now h) n + delta)%Z ->
  parseNaturalDate h "today" = Some (formatDate (JsDate.addDays (now h) 0))
  /\ (validateField h "preferredDate"
        (Some (formatDate (JsDate.addDays (now h) n))) = Valid
      <-> (0 <= n * JsDate.msPerDay + delta <= 90 * JsDate.msPerDay)%Z).
Proof.
  intros Hd. split.
  - unfold parseNaturalDate. cbn [truthy negb].
    change (trim (toLowerCase "today")) with "today".
    change (String.eqb "today" "today") with true. cbv iota. do 2 f_equal.
    unfold JsDate.addDays, todayOf. lia.
  - rewrite validateDate_window, Hd. split.
    + intros (_ & d & [= <-] & Hr).
      unfold JsDate.addDays, todayOf in Hr. lia.
    + intros Hr. split.
      * pose proof (formatDate_truthy (JsDate.addDays (now h) n)) as Ht.
        by destruct (formatDate _).
      * eexists. split; [done|]. unfold JsDate.addDays, todayOf. lia.
Qed.

(** A witness of X15: the sample host, which reads the date as local
    midnight. *)
Lemma parsed_date_validity_depends_on_zone_witness :
  parseNaturalDate strictHost "today"
  = Some (formatDate (JsDate.addDays (now strictHost) 0))
  /\ (validateField strictHost "preferredDate"
        (Some (formatDate (JsDate.addDays (now strictHost) 90))) = Valid
      <-> (0 <= 90 * JsDate.msPerDay + 0 <= 90 * JsDate.msPerDay)%Z).
Proof.
  apply (parsed_date_validity_depends_on_zone strictHost 90 0).
  vm_compute. reflexivity.
Defined.

(** ** A date named by month and day is not in the past *)

Lemma rollForward_not_past (today month day : Z) :
  let year := JsDate.getFullYear today in
  let date := JsDate.newDate year month day in
  (today <= (if date <? today then JsDate.setFullYear date (year + 1) else date))%Z.
Proof.
  cbv zeta. destruct (Z.ltb_spec (JsDate.newDate (JsDate.getFullYear today) month day)
                        today) as [Hlt|]; [|done].
  set (date := JsDate.newDate (JsDate.getFullYear today) month day) in *.
  unfold JsDate.setFullYear, JsDate.getFullYear.
  destruct (civil_valid date) as (Hm & Hd & _).
  set (y := JsDate.YearFromTime today).
  pose proof (YearFromDay_spec (JsDate.Day today)) as [_ Hy].
  fold (JsDate.YearFromTime today) in Hy. fold y in Hy.
  unfold JsDate.MakeDay.
  rewrite (Z.div_small (JsDate.MonthFromTime date) 12) by lia.
  rewrite (Z.mod_small (JsDate.MonthFromTime date) 12) by lia.
  rewrite Z.add_0_r.
  set (leap := if JsDate.isLeap (y + 1) then 1%Z else 0%Z).
  assert (leap = 0 \/ leap = 1)%Z as Hleap
    by (subst leap; destruct (JsDate.isLeap _); auto).
  destruct (monthStart_leap_step (JsDate.MonthFromTime date) leap Hm Hleap)
    as (Hs & _).
  unfold JsDate.MakeDate, JsDate.TimeWithinDay, JsDate.Day, JsDate.msPerDay in *.
  pose proof (Z.mod_pos_bound date 86400000 ltac:(lia)).
  pose proof (Z.mod_pos_bound today 86400000 ltac:(lia)).
  pose proof (Z.div_mod today 86400000 ltac:(lia)).
  lia.
Qed.

(** X16. A date that the text names by month and day only is never
    resolved to a day before today: the parser takes the current year and,
    when that day is already past, the next one.  (For every text in which
    no fixed phrase or weekday decides and the month pattern finds a month
    and a day.) *)
Theorem month_and_day_not_in_the_past (h : Host) (text : string) (m : Match)
    (month day : Z) :
  text <> EmptyString ->
  noDatePhrase (trim (toLowerCase text)) ->
  exec nextDayRe (trim (toLowerCase text)) = None ->
  exec thisDayRe (trim (toLowerCase text)) = None ->
  exec monthDayRe (trim (toLowerCase text)) = Some m ->
  lookupZ (toLowerCase (default EmptyString (group m 2))) monthNames = Some month ->
  parseInt (orElse (group m 1) (group m 3)) = Some day ->
  exists date,
    parseNaturalDate h text = Some (formatDate date)
    /\ (todayOf h <= date)%Z.
Proof.
  intros H1 H2 H3 H4 H5 H6 H7.
  rewrite (parseNaturalDate_month h text m month day H1 H2 H3 H4 H5 H6 H7).
  eexists. split; [reflexivity|]. apply rollForward_not_past.
Qed.

(** A witness of X16: in November, the fifth of January is that of the
    next year. *)
Lemma month_and_day_not_in_the_past_witness :
  exists date,
    parseNaturalDate strictHost "Jan 5" = Some (formatDate date)
    /\ (todayOf strictHost <= date)%Z.
Proof.
  eapply (month_and_day_not_in_the_past strictHost "Jan 5").
  - done.
  - repeat split; vm_compute; reflexivity.
  - vm_compute. reflexivity.
  - vm_compute. reflexivity.
  - vm_compute. reflexivity.
  - vm_compute. reflexivity.
  - vm_compute. reflexivity.
Defined.

(** ** Times of the day *)

Lemma upTo_In (n : nat) (z : Z) : (0 <= z < Z.of_nat n)%Z -> In z (upTo n).
Proof.
  intros Hz. unfold upTo. apply in_map_iff. exists (Z.to_nat z).
  split; [lia|]. apply in_seq. lia.
Qed.

Lemma all_times_round_trip :
  forallb (fun hh => forallb (timeRoundTrips hh) (upTo 60)) (upTo 24) = true.
Proof. vm_compute. reflexivity. Qed.

Lemma time_round_trips hh mm :
  (0 <= hh <= 23)%Z -> (0 <= mm <= 59)%Z -> timeRoundTrips hh mm = true.
Proof.
  intros Hh Hm. pose proof all_times_round_trip as H.
  rewrite forallb_forall in H. specialize (H hh (upTo_In 24 hh ltac:(lia))).
  rewrite forallb_forall in H. exact (H mm (upTo_In 60 mm ltac:(lia))).
Qed.

Lemma sameText_eq a b : sameText a b = true -> a = Some b.
Proof.
  destruct a as [s|]; [|done]. simpl. by intros ->%String.eqb_eq.
Qed.

Lemma validateTime_test h v :
  v <> EmptyString -> test timeFormatRe v = true ->
  validateField h "preferredTime" (Some v) = Valid.
Proof.
  intros Hv Ht. change (validateField h "preferredTime") with (validateTime h).
  unfold validateTime. destruct v; [done|]. cbn [truthy negb]. by rewrite Ht.
Qed.

Lemma pad2_nonempty n s : pad2 n +:+ s <> EmptyString.
Proof.
  unfold pad2, padStart2. destruct (numToString n) as [|a [|b t]]; done.
Qed.

Lemma canonical_time_valid h hh mm :
  (0 <= hh <= 23)%Z -> (0 <= mm <= 59)%Z ->
  validateField h "preferredTime" (Some (pad2 hh +:+ ":" +:+ pad2 mm)) = Valid.
Proof.
  intros Hh Hm. pose proof (time_round_trips hh mm Hh Hm) as H.
  unfold timeRoundTrips in H.
  apply andb_prop in H as [[[H1 _]%andb_prop _]%andb_prop _].
  apply validateTime_test; [apply pad2_nonempty|done].
Qed.

(** X17. Every time of the day [hh:mm] on the 24-hour clock, written with
    two digits for the hour, passes the time validator; it is displayed in
    the 12-hour form with AM or PM (12 for the hours 0 and 12); and the
    parser reads that display back as the same [hh:mm].  The validator also
    accepts the hour without its leading zero. *)
Theorem time_display_round_trip (h : Host) (hh mm : Z) :
  (0 <= hh <= 23)%Z -> (0 <= mm <= 59)%Z ->
  let t := pad2 hh +:+ ":" +:+ pad2 mm in
  validateField h "preferredTime" (Some t) = Valid
  /\ validateField h "preferredTime" (Some (numToString hh +:+ ":" +:+ pad2 mm))
     = Valid
  /\ formatTimeForDisplay t = Some (twelveHour hh mm)
  /\ parseNaturalTime (twelveHour hh mm) = Some t.
Proof.
  intros Hh Hm t. pose proof (time_round_trips hh mm Hh Hm) as H.
  unfold timeRoundTrips in H. fold t in H.
  apply andb_prop in H as [[[H1 H2]%andb_prop H3]%andb_prop H4].
  split_and!.
  - apply validateTime_test; [apply pad2_nonempty|done].
  - apply validateTime_test; [|done].
    destruct (numToString_digits hh ltac:(lia)) as [_ Hne].
    destruct (numToString hh); done.
  - by apply sameText_eq.
  - by apply sameText_eq.
Qed.

(** A witness of X17: a quarter to midnight. *)
Lemma time_display_round_trip_witness :
  let t := pad2 23 +:+ ":" +:+ pad2 45 in
  validateField strictHost "preferredTime" (Some t) = Valid
  /\ validateField strictHost "preferredTime"
       (Some (numToString 23 +:+ ":" +:+ pad2 45)) = Valid
  /\ formatTimeForDisplay t = Some (twelveHour 23 45)
  /\ parseNaturalTime (twelveHour 23 45) = Some t.
Proof. apply (time_display_round_trip strictHost 23 45); lia. Defined.

Lemma all_bare_hours : forallb bareHourParsed (upTo 100) = true.
Proof. vm_compute. reflexivity. Qed.

(** X18. A bare number of one or two digits is read as a time only from 8
    to 18, as that hour sharp; every other number from 0 to 99 gives no
    time. *)
Theorem bare_hour_heuristic (n : Z) :
  (0 <= n <= 99)%Z ->
  parseNaturalTime (numToString n)
  = if (8 <=? n)%Z && (n <=? 18)%Z then Some (pad2 n +:+ ":00") else None.
Proof.
  intros Hn. pose proof all_bare_hours as H. rewrite forallb_forall in H.
  specialize (H n (upTo_In 100 n ltac:(lia))).
  unfold bareHourParsed, bareHour in H.
  destruct (parseNaturalTime (numToString n)) as [a|];
    destruct ((8 <=? n)%Z && (n <=? 18)%Z); try done.
  by apply String.eqb_eq in H as ->.
Qed.

(** A witness of X18: 7 is no time, although 07:00 is a valid one. *)
Lemma bare_hour_heuristic_witness :
  parseNaturalTime (numToString 7)
  = if (8 <=? 7)%Z && (7 <=? 18)%Z then Some (pad2 7 +:+ ":00") else None.
Proof. apply (bare_hour_heuristic 7). lia. Defined.

(** X19. Apart from the forms with am or pm, the time parser only returns
    times the validator accepts: when no hour followed by am or pm is found
    in the text, every result of the parser passes the time validator.  (The
    am and pm forms are not checked: "99pm" gives 111:00.) *)
Theorem parsed_time_is_valid (h : Host) (text t : string) :
  exec amPmRe (trim (toLowerCase text)) = None ->
  exec simpleAmPmRe (trim (toLowerCase text)) = None ->
  parseNaturalTime text = Some t ->
  validateField h "preferredTime" (Some t) = Valid.
Proof.
  intros Ha Hs. unfold parseNaturalTime. rewrite Ha, Hs.
  destruct (negb _); [done|].
  repeat match goal with
         | |- (if ?b then Some _ else _) = Some t -> _ =>
             destruct b; [intros [= <-]; vm_compute; reflexivity|]
         end.
  assert (forall hh mm, (0 <=? hh)%Z && (hh <=? 23)%Z && (0 <=? mm)%Z
                        && (mm <=? 59)%Z = true ->
            validateField h "preferredTime" (Some (pad2 hh +:+ ":" +:+ pad2 mm))
            = Valid) as Hok.
  { intros hh mm Hr.
    apply andb_prop in Hr as [[[H1 H2]%andb_prop H3]%andb_prop H4].
    apply canonical_time_valid; lia. }
  assert (forall hh, (8 <=? hh)%Z && (hh <=? 18)%Z = true ->
            validateField h "preferredTime" (Some (pad2 hh +:+ ":00")) = Valid)
    as Hbare.
  { intros hh [H1 H2]%andb_prop.
    apply (canonical_time_valid h hh 0); lia. }
  destruct (exec hourMinRe _) as [m3|].
  - destruct (_ && _ && _ && _) eqn:E.
    + intros [= <-]. by apply Hok.
    + clear E. destruct (exec justHourRe _) as [m4|]; [|done].
      destruct (_ && _) eqn:E2; [|done]. intros [= <-]. by apply Hbare.
  - destruct (exec justHourRe _) as [m4|]; [|done].
    destruct (_ && _) eqn:E2; [|done]. intros [= <-]. by apply Hbare.
Qed.

(** A witness of X19. *)
Lemma parsed_time_is_valid_witness :
  validateField strictHost "preferredTime" (Some "14:30") = Valid.
Proof.
  apply (parsed_time_is_valid strictHost "let's say 14:30" "14:30");
    vm_compute; reflexivity.
Defined.

(** ** The booking intent *)

Lemma startsWith_iff p s : startsWith p s = true <-> beginsWith p s.
Proof.
  unfold beginsWith. revert s. induction p as [|a p IH]; intros s.
  - split; [|done]. intros _. by exists s.
  - destruct s as [|b s]; cbn [startsWith].
    + split; [done|]. by intros [post H].
    + rewrite andb_true_iff, IH, Ascii.eqb_eq. split.
      * intros [-> [post ->]]. by exists post.
      * intros [post H]. rewrite append_cons in H. injection H as -> ->.
        split; [done|]. by exists post.
Qed.

Lemma includes_iff needle hay : includes needle hay = true <-> occursIn needle hay.
Proof.
  unfold occursIn. induction hay as [|c hay IH]; cbn [includes].
  - rewrite orb_false_r, startsWith_iff. split.
    + intros [post H]. by exists EmptyString, post.
    + intros ([|a pre] & post & H).
      * by exists post.
      * by rewrite append_cons in H.
  - rewrite orb_true_iff, startsWith_iff, IH. split.
    + intros [[post H]|(pre & post & ->)].
      * by exists EmptyString, post.
      * by exists (String c pre), post.
    + intros ([|a pre] & post & H).
      * left. by exists post.
      * rewrite append_cons in H. injection H as -> ->. right. by exists pre, post.
Qed.

(** X20. The booking intent is detected exactly when one of the keywords
    occurs somewhere in the lowercased message, as a substring: no word
    boundary is asked for, so a keyword inside a longer word counts. *)
Theorem intent_is_keyword_substring (message : string) :
  Controller.detectAppointmentIntent message = true
  <-> exists keyword,
        In keyword Controller.APPOINTMENT_KEYWORDS
        /\ occursIn keyword (toLowerCase message).
Proof.
  unfold Controller.detectAppointmentIntent. rewrite existsb_exists.
  split; intros (kw & Hin & H); exists kw; (split; [done|]); by apply includes_iff.
Qed.

(** ** Phone numbers found by the patterns *)

(** X21. Every phone number the patterns extract from a message has ten to
    fifteen digits, so it passes the phone validator: in an extraction made
    without the generative model the phone number is never refused. *)
Theorem extracted_phone_is_valid (h h' : Host) (message v : string) :
  extractWithPatterns h message !! "phoneNumber" = Some v ->
  (10 <= String.length (digitsOf v) <= 15)%nat
  /\ validateField h' "phoneNumber" (Some v) = Valid.
Proof.
  intros H%extracted_phone_origin%firstCapture_phone.
  split; [exact H|by apply validatePhone_digits].
Qed.

(** A witness of X21. *)
Lemma extracted_phone_is_valid_witness :
  (10 <= String.length (digitsOf "(555) 123-4567") <= 15)%nat
  /\ validateField strictHost "phoneNumber" (Some "(555) 123-4567") = Valid.
Proof.
  apply (extracted_phone_is_valid strictHost strictHost
           "You can reach me on (555) 123-4567 after six").
  vm_compute. reflexivity.
Defined.

Lemma last_In {A} (l : list A) x : last l = Some x -> In x l.
Proof.
  induction l as [|a [|b l] IH]; [done| |].
  - intros [= ->]. by left.
  - intros H. right. by apply IH.
Qed.

Lemma invalidField_rejected h ex (m : gmap string string) f :
  invalidField (collectAll h ex m) = Some f ->
  In f REQUIRED_FIELDS /\ rejected h ex f = true.
Proof.
  unfold collectAll.
  pose proof (collect_fold_invalid h ex REQUIRED_FIELDS
                {| updatedFields := m; hasNewData := false;
                   invalidField := None; validationError := None |}) as H.
  destruct (last (List.filter (rejected h ex) REQUIRED_FIELDS)) as [g|] eqn:El.
  - destruct H as [-> _]. intros [= <-].
    apply last_In, filter_In in El. exact El.
  - destruct H as [-> _]. done.
Qed.

Lemma phone_never_rejected h message :
  rejected h (extractWithPatterns h message) "phoneNumber" = false.
Proof.
  unfold rejected.
  destruct (extractWithPatterns h message !! "phoneNumber") as [v|] eqn:E;
    [|done].
  apply extracted_phone_origin, firstCapture_phone in E.
  by rewrite (validatePhone_digits h v E), andb_false_r.
Qed.

Lemma confirmation_starts h (m : gmap string string) text :
  generateConfirmationMessage h m = Some text -> exists tail, text = String "G" tail.
Proof.
  unfold generateConfirmationMessage.
  destruct (m !! "preferredTime") as [[|c s]|].
  - intros [= <-]. eexists. reflexivity.
  - destruct (formatTimeForDisplay (String c s)) as [d|]; [|done].
    intros [= <-]. eexists. reflexivity.
  - intros [= <-]. eexists. reflexivity.
Qed.

(** X22. Without the generative model no utterance is ever answered with
    the retry prompt of the phone number: the patterns only extract phone
    numbers that the validator accepts, so that prompt can only follow a
    value the model extracted. *)
Theorem phone_retry_needs_the_model (h : Host) (message : string)
    (s : BookingState) (r : Result) :
  processMessage h None message s = Some r ->
  response r <> Some (generatePrompt "phoneNumber" true)
  /\ invalidField (collectAll h (fields (analyzeMessage h None message))
                     (collectedFields s)) <> Some "phoneNumber".
Proof.
  intros Hp.
  assert (invalidField (collectAll h (fields (analyzeMessage h None message))
                          (collectedFields s)) <> Some "phoneNumber") as Hinv.
  { intros [_ H]%invalidField_rejected.
    cbn [analyzeMessage fields] in H. by rewrite phone_never_rejected in H. }
  split; [|done].
  set (retry := generatePrompt "phoneNumber" true) in *.
  assert (allChars notNewline retry = true) as Hnl by (vm_compute; reflexivity).
  assert (exists tail, retry = String "I" tail) as [tail Hretry]
    by (eexists; vm_compute; reflexivity).
  destruct (processMessage_cases _ _ _ _ _ Hp)
    as [[_ ->]|[[_ ->]|[[_ ->]|[[_ ->]|[(_ & text & Hg & ->)|(_ & Hcoll & _)]]]]];
    cbn [response]; try (rewrite Hretry; done).
  - apply confirmation_starts in Hg as [tl ->]. by rewrite Hretry.
  - destruct (processMessage_collecting _ _ _ _ _ Hp Hcoll) as (_ & _ & H).
    destruct (invalidField _) as [field|] eqn:Ef.
    + destruct H as (-> & _). intros [= Heq].
      apply invalidField_rejected in Ef as [Hin _]. simpl in Hin.
      destruct Hin as [<-|[<-|[<-|[<-|[<-|[]]]]]];
        try (vm_compute in Heq; discriminate).
      by apply Hinv.
    + destruct H as (nf & np & Hn & _ & _ & ->).
      apply getNextField_prompt in Hn. intros [= Heq].
      destruct (hasNewData _).
      * rewrite <- Heq, allChars_app in Hnl.
        apply andb_prop in Hnl as [_ Hnl]. by vm_compute in Hnl.
      * subst np. simpl in Hn.
        destruct Hn as [Hn|[Hn|[Hn|[Hn|[Hn|[]]]]]];
          vm_compute in Hn; discriminate.
Qed.

(** A witness of X22: nine digits are no phone number, and the answer is
    the plain prompt of the phone number, not its retry prompt. *)
Lemma phone_retry_needs_the_model_witness :
  exists r,
    processMessage strictHost None "my number is 555-123-456" awaitingPhone
    = Some r
    /\ response r <> Some (generatePrompt "phoneNumber" true)
    /\ invalidField
         (collectAll strictHost
            (fields (analyzeMessage strictHost None "my number is 555-123-456"))
            (collectedFields awaitingPhone)) <> Some "phoneNumber".
Proof.
  eexists. split; [vm_compute; reflexivity|].
  apply (phone_retry_needs_the_model strictHost "my number is 555-123-456"
           awaitingPhone).
  vm_compute. reflexivity.
Defined.

(** ** The data a booking starts with *)



(** ** When the appointment is created *)

(** X24. The creation of the appointment is only ever asked for a complete
    map: for a stored state in good order, two ways of creating appointments
    that agree on every map without a missing required field give the same
    store and the same reply, whatever the turn. *)
Theorem creation_only_from_complete_map (h : Host) (ai : option Extracted)
    (create create' : gmap string string -> option string)
    (message sessionId : string) (bookingState : BookingState)
    (bookingStates : gmap string BookingState) :
  wellFormed bookingState ->
  (forall m, isComplete m = true -> create m = create' m) ->
  bookingTurn h ai create message sessionId bookingState bookingStates
  = bookingTurn h ai create' message sessionId bookingState bookingStates.
Proof.
  intros [_ Hc] Hagree. unfold bookingTurn.
  destruct (processMessage h ai message bookingState) as [r|] eqn:Hp; [|done].
  destruct (action r) eqn:Ha; try done.
  destruct (processMessage_cases _ _ _ _ _ Hp)
    as [[_ ->]|[[_ ->]|[[Hconf ->]|[[_ ->]|[(_ & text & _ & ->)|(_ & Hcoll & _)]]]]];
    try done; [|congruence].
  cbn [state collectedFields withComplete]. by rewrite (Hagree _ (Hc Hconf)).
Qed.

(** A witness of X24: a creation that always fails, and one that fails on
    complete maps only. *)
Lemma creation_only_from_complete_map_witness :
  bookingTurn strictHost None creationFails "yes" "s1" confirmingState
    {[ "s1" := confirmingState ]}
  = bookingTurn strictHost None creationPicky "yes" "s1" confirmingState
      {[ "s1" := confirmingState ]}.
Proof.
  apply (creation_only_from_complete_map strictHost None creationFails
           creationPicky "yes" "s1" confirmingState).
  - split; [reflexivity|]. intros _. vm_compute. reflexivity.
  - intros m Hm. unfold creationFails, creationPicky. by rewrite Hm.
Defined.

(** ** Ending a session *)


(** ** The question of a collecting turn *)

(** X26. A turn that goes on collecting and refused no extracted value
    asks for the first required field, in the fixed order, that is still
    missing after the turn: that field becomes the current field, and the
    response ends with its first-time prompt, after an acknowledgement when
    the turn stored a new value.  The turn leaves the error of the state as
    it was. *)
Theorem collecting_turn_asks_first_missing (h : Host) (ai : option Extracted)
    (message : string) (s : BookingState) (r : Result) :
  processMessage h ai message s = Some r ->
  action r = Collecting ->
  List.filter (rejected h (fields (analyzeMessage h ai message))) REQUIRED_FIELDS
  = [] ->
  exists f earlier later,
    REQUIRED_FIELDS = (earlier ++ f :: later)%list
    /\ (forall g, In g earlier -> isMissing (collectedFields (state r)) g = false)
    /\ isMissing (collectedFields (state r)) f = true
    /\ currentField (state r) = Some f
    /\ errorField (state r) = errorField s
    /\ (response r = Some (generatePrompt f false)
        \/ exists ack,
             response r = Some (ack +:+ nl +:+ nl +:+ generatePrompt f false)).
Proof.
  intros Hp Ha Hnone.
  destruct (processMessage_collecting _ _ _ _ _ Hp Ha) as (Hf & _ & H).
  pose proof (collect_fold_invalid h (fields (analyzeMessage h ai message))
                REQUIRED_FIELDS
                {| updatedFields := collectedFields s; hasNewData := false;
                   invalidField := None; validationError := None |}) as Hi.
  rewrite Hnone in Hi. cbn [last invalidField] in Hi. destruct Hi as [Hi _].
  fold (collectAll h (fields (analyzeMessage h ai message)) (collectedFields s))
    in Hi.
  rewrite Hi in H. destruct H as (nf & np & Hn & Hcur & Herr & Hresp).
  rewrite <- Hf in Hn.
  assert (isMissing (collectedFields (state r)) nf = true
          /\ np = generatePrompt nf false
          /\ exists l1 l2,
               REQUIRED_FIELDS = (l1 ++ nf :: l2)%list
               /\ forall g, In g l1 -> isMissing (collectedFields (state r)) g = false)
    as (Hm & -> & l1 & l2 & Hl & Hl1).
  { unfold getNextField in Hn.
    destruct (getMissingFields _) as [|x l] eqn:E; [done|].
    assert (In x REQUIRED_FIELDS) as Hin.
    { apply (getMissingFields_required (collectedFields (state r))).
      rewrite E. by left. }
    destruct (required_has_config x Hin) as [config Hc]. rewrite Hc in Hn.
    injection Hn as -> <-. unfold getMissingFields in E.
    apply filter_head in E as (? & l1 & l2 & ? & ?).
    split_and!; [done| |by exists l1, l2].
    unfold generatePrompt. by rewrite Hc. }
  exists nf, l1, l2. split_and!; try done.
  rewrite Hresp. destruct (hasNewData _); [right; eauto|by left].
Qed.

(** A witness of X26: the owner's name arrives, the pet's name is asked. *)
Lemma collecting_turn_asks_first_missing_witness :
  exists r f earlier later,
    processMessage strictHost None "My name is John" emptyState = Some r
    /\ REQUIRED_FIELDS = (earlier ++ f :: later)%list
    /\ (forall g, In g earlier -> isMissing (collectedFields (state r)) g = false)
    /\ isMissing (collectedFields (state r)) f = true
    /\ currentField (state r) = Some f
    /\ errorField (state r) = errorField emptyState
    /\ (response r = Some (generatePrompt f false)
        \/ exists ack,
             response r = Some (ack +:+ nl +:+ nl +:+ generatePrompt f false)).
Proof.
  eexists.
  destruct (collecting_turn_asks_first_missing strictHost None "My name is John"
              emptyState _ ltac:(vm_compute; reflexivity) eq_refl
              ltac:(vm_compute; reflexivity))
    as (f & earlier & later & H).
  exists f, earlier, later. split; [vm_compute; reflexivity|exact H].
Defined.

(** ** The fixed phrases of the date parser *)

Lemma eqb_shorter (l w : string) :
  (String.length w < String.length l)%nat -> String.eqb l w = false.
Proof. intros H. apply String.eqb_neq. intros ->. lia. Qed.

(** X27. The fixed phrases of the date parser, whatever the case of the
    letters and the white space around them: "today" is today, "tomorrow"
    the next day, "next week" the day seven days ahead, and every text in
    which "day after tomorrow" occurs is the day two days ahead.  The days
    are counted on the calendar, across the ends of months and years. *)
Theorem fixed_date_phrases (h : Host) (text : string) :
  text <> EmptyString ->
  let lowerText := trim (toLowerCase text) in
  (lowerText = "today" ->
   parseNaturalDate h text = Some (formatDate (JsDate.addDays (now h) 0)))
  /\ (lowerText = "tomorrow" ->
      parseNaturalDate h text = Some (formatDate (JsDate.addDays (now h) 1)))
  /\ (occursIn "day after tomorrow" lowerText ->
      parseNaturalDate h text = Some (formatDate (JsDate.addDays (now h) 2)))
  /\ (lowerText = "next week" ->
      parseNaturalDate h text = Some (formatDate (JsDate.addDays (now h) 7))).
Proof.
  intros Hne lowerText.
  assert (formatDate (todayOf h) = formatDate (JsDate.addDays (now h) 0)) as H0.
  { f_equal. unfold JsDate.addDays, todayOf. lia. }
  assert (forall n, JsDate.setDate (todayOf h) (JsDate.getDate (todayOf h) + n)
                    = JsDate.addDays (now h) n) as Hn
    by (intros n; apply setDate_add).
  unfold parseNaturalDate. fold lowerText.
  destruct text as [|c text]; [done|]. cbn [truthy negb]. rewrite !Hn, H0.
  split_and!.
  - by intros ->.
  - by intros ->.
  - intros Hocc. pose proof Hocc as (pre & post & Hl).
    assert (18 <= String.length lowerText)%nat as Hlen.
    { rewrite Hl, !length_append. simpl. lia. }
    rewrite !eqb_shorter by (simpl; lia).
    apply includes_iff in Hocc. by rewrite Hocc.
  - intros ->. reflexivity.
Qed.

(** A witness of X27. *)
Lemma fixed_date_phrases_witness :
  let lowerText := trim (toLowerCase "  Not the Day After Tomorrow ") in
  (lowerText = "today" ->
   parseNaturalDate strictHost "  Not the Day After Tomorrow "
   = Some (formatDate (JsDate.addDays (now strictHost) 0)))
  /\ (lowerText = "tomorrow" ->
      parseNaturalDate strictHost "  Not the Day After Tomorrow "
      = Some (formatDate (JsDate.addDays (now strictHost) 1)))
  /\ (occursIn "day after tomorrow" lowerText ->
      parseNaturalDate strictHost "  Not the Day After Tomorrow "
      = Some (formatDate (JsDate.addDays (now strictHost) 2)))
  /\ (lowerText = "next week" ->
      parseNaturalDate strictHost "  Not the Day After Tomorrow "
      = Some (formatDate (JsDate.addDays (now strictHost) 7))).
Proof. by apply (fixed_date_phrases strictHost "  Not the Day After Tomorrow "). Defined.

(** ** The texts the time validator accepts *)

Lemma digit_cases c :
  isDigit c = true ->
  In c ["0"; "1"; "2"; "3"; "4"; "5"; "6"; "7"; "8"; "9"]%char.
Proof.
  destruct c as [[] [] [] [] [] [] [] []]; vm_compute; intros H;
    try discriminate H; tauto.
Qed.

Lemma class_digit c :
  classMatches false false [CRange "0" "9"] c = true -> isDigit c = true.
Proof. unfold classMatches, inClass. cbn. by rewrite orb_false_r. Qed.

Lemma class_upto ic hi c :
  classMatches ic false [CRange "0" hi] c = true ->
  isDigit hi = true -> ic = false ->
  isDigit c = true /\ (code c <= code hi)%N.
Proof.
  intros H Hhi ->. unfold classMatches, inClass in H. cbn in H.
  rewrite orb_false_r in H. unfold isDigit, inRange in *.
  apply andb_prop in H as [H1 H2]. apply andb_prop in Hhi as [H3 H4].
  rewrite N.leb_le in *. split; [|done].
  apply andb_true_intro. rewrite !N.leb_le.
  change (code "0") with 48%N in H1. lia.
Qed.

Lemma opt_matches ic r s :
  matches ic (opt r) s -> s = EmptyString \/ matches ic r s.
Proof.
  unfold opt. cbn [matches]. intros (l & -> & Hl & _ & Hmax).
  destruct l as [|a [|b l]]; simpl in Hmax; [by left| |lia].
  right. inversion Hl; subst. cbn [concatAll]. by rewrite append_empty_r.
Qed.

(** The four parts of a text that the time pattern matches. *)
Lemma timeFormat_parts v :
  test timeFormatRe v = true ->
  exists hours c3 c4,
    v = hours +:+ ":" +:+ String c3 (String c4 EmptyString)
    /\ isDigit c3 = true /\ (code c3 <= code "5")%N /\ isDigit c4 = true
    /\ ((exists d, hours = String d EmptyString /\ isDigit d = true)
        \/ (exists a d, hours = String a (String d EmptyString)
                        /\ (a = "0" \/ a = "1")%char /\ isDigit d = true)
        \/ (exists d, hours = String "2" (String d EmptyString)
                      /\ isDigit d = true /\ (code d <= code "3")%N)).
Proof.
  unfold test. intros H%bool_decide_eq_true.
  unfold exec, timeFormatRe in H. cbn [icase body seq] in H.
  apply search_anchored in H as [z Hz].
  rewrite matcher_seq in Hz.
  apply matcher_sound in Hz as (s1 & y1 & Hr1 & _ & Hs1 & Hz).
  rewrite matcher_seq in Hz.
  apply matcher_sound in Hz as (s2 & y2 & Hr2 & _ & Hs2 & Hz).
  rewrite matcher_seq in Hz.
  apply matcher_sound in Hz as (s3 & y3 & Hr3 & _ & Hs3 & Hz).
  rewrite matcher_seq in Hz.
  apply matcher_sound in Hz as (s4 & y4 & Hr4 & _ & Hs4 & Hz).
  assert (rest y4 = EmptyString) as Hend by (apply eol_atEnd; eauto).
  cbn [rest] in Hr1. rewrite Hr2, Hr3, Hr4, Hend, append_empty_r in Hr1.
  cbn [matches] in Hs2. destruct Hs2 as (c2 & -> & Hc2).
  unfold charMatches in Hc2. apply Ascii.eqb_eq in Hc2 as <-.
  cbn [matches] in Hs3. destruct Hs3 as (c3 & -> & Hc3).
  apply class_upto in Hc3 as [Hd3 H5]; [|done|done].
  unfold digit09 in Hs4. cbn [matches] in Hs4. destruct Hs4 as (c4 & -> & Hc4).
  apply class_digit in Hc4.
  exists s1, c3, c4. split_and!; try done.
  cbn [matches alt] in Hs1. destruct Hs1 as [Hs1|Hs1].
  - cbn [seq] in Hs1. cbn [matches] in Hs1.
    destruct Hs1 as (sa & sb & -> & Ha & (sd & se & -> & Hd & ->)).
    unfold digit09 in Hd. cbn [matches] in Hd. destruct Hd as (d & -> & Hd).
    apply class_digit in Hd. rewrite append_empty_r.
    apply opt_matches in Ha as [->|Ha].
    + left. by exists d.
    + right. left. cbn [matches] in Ha. destruct Ha as (a & -> & Ha).
      exists a, d. split_and!; [done| |done].
      unfold classMatches, inClass in Ha. cbn [existsb itemMatches xorb] in Ha.
      rewrite orb_false_r in Ha. apply orb_prop in Ha as [Ha|Ha];
        apply Ascii.eqb_eq in Ha; auto.
  - cbn [seq] in Hs1. cbn [matches] in Hs1.
    destruct Hs1 as (sa & sb & -> & (a & -> & Ha) & (sd & se & -> & (d & -> & Hd) & ->)).
    unfold charMatches in Ha. apply Ascii.eqb_eq in Ha as <-.
    apply class_upto in Hd as [Hd H3]; [|done|done].
    right. right. exists d. by rewrite append_empty_r.
Qed.

Ltac ten_cases H :=
  simpl in H;
  destruct H as [<-|[<-|[<-|[<-|[<-|[<-|[<-|[<-|[<-|[<-|[]]]]]]]]]]].

(** X28. The time validator accepts exactly the texts H:MM and HH:MM of a
    time of the 24-hour clock: a missing or empty value is refused, and a
    text is accepted if and only if it is an hour from 0 to 23, written with
    or without a leading zero, a colon, and a minute from 00 to 59 in two
    digits. *)
Theorem time_validator_accepts (h : Host) (v : string) :
  validateField h "preferredTime" None = Invalid "Time is required"
  /\ (validateField h "preferredTime" (Some v) = Valid
      <-> exists hh mm,
            (0 <= hh <= 23)%Z /\ (0 <= mm <= 59)%Z
            /\ (v = pad2 hh +:+ ":" +:+ pad2 mm
                \/ v = numToString hh +:+ ":" +:+ pad2 mm)).
Proof.
  split; [done|]. split.
  - change (validateField h "preferredTime") with (validateTime h).
    unfold validateTime. destruct (negb (truthy (Some v))); [done|].
    destruct (test timeFormatRe v) eqn:Ht; [intros _|done].
    apply timeFormat_parts in Ht
      as (hours & c3 & c4 & -> & Hd3 & H5 & Hd4 & Hh).
    assert (exists mm, (0 <= mm <= 59)%Z
                       /\ String c3 (String c4 EmptyString) = pad2 mm)
      as (mm & Hmm & ->).
    { exists (parseDigits 0 (String c3 (String c4 EmptyString))).
      apply digit_cases in Hd3, Hd4.
      ten_cases Hd3; try (exfalso; vm_compute in H5; by apply H5);
        ten_cases Hd4;
        (split; [vm_compute; split; discriminate|vm_compute; reflexivity]). }
    destruct Hh as [(d & -> & Hd)|[(a & d & -> & Ha & Hd)|(d & -> & Hd & H3)]].
    + exists (parseDigits 0 (String d EmptyString)), mm.
      apply digit_cases in Hd.
      ten_cases Hd;
        (split_and!; [vm_compute; discriminate|vm_compute; discriminate
                     |apply Hmm|apply Hmm|by right]).
    + exists (parseDigits 0 (String a (String d EmptyString))), mm.
      apply digit_cases in Hd.
      destruct Ha as [-> | ->]; ten_cases Hd;
        (split_and!; [vm_compute; discriminate|vm_compute; discriminate
                     |apply Hmm|apply Hmm|by left]).
    + exists (parseDigits 0 (String "2" (String d EmptyString))), mm.
      apply digit_cases in Hd.
      ten_cases Hd; try (exfalso; vm_compute in H3; by apply H3);
        (split_and!; [vm_compute; discriminate|vm_compute; discriminate
                     |apply Hmm|apply Hmm|by left]).
  - intros (hh & mm & Hh & Hm & Hv).
    pose proof (time_round_trips hh mm Hh Hm) as H.
    unfold timeRoundTrips in H.
    apply andb_prop in H as [[[H1 H2]%andb_prop _]%andb_prop _].
    destruct Hv as [-> | ->]; apply validateTime_test; try done.
    + apply pad2_nonempty.
    + destruct (numToString_digits hh ltac:(lia)) as [_ Hne].
      by destruct (numToString hh).
Qed.
